(** * Trotterized imaginary-time evolution on a PEPS grid (koala experiments)

    A shallow embedding of [experiments/tfi_ite_peps.py] and
    [experiments/rqc_statevector.py].  The tensor library the scripts call
    (tensorbackends, koala.peps, koala.peps.sites) is an interface here: the
    scripts are translated once, over any implementation of it, and then
    run on three implementations: a free one that records which operations
    were performed, a dense one over the reals, and one that tracks the
    dimensions of the virtual legs. *)

From Stdlib Require Import ZArith List Lia Reals Lra.
From stdpp Require Import gmap strings list fin_maps.

Open Scope Z_scope.

#[local] Set Warnings "-clear-no-such-hyp".

(** ** Python values shared by both scripts *)

(** The exceptions the scripts can raise on their own account. *)
Inductive exn := ValueError | ZeroDivisionError | IndexError.

(** A computation that returns or raises. *)
Inductive res (A : Type) :=
  | Ok (a : A)
  | Raise (e : exn).
Arguments Ok {A} a.
Arguments Raise {A} e.

Global Instance res_ret : MRet res := fun A a => Ok a.
Global Instance res_bind : MBind res := fun A B f m =>
  match m with Ok a => f a | Raise e => Raise e end.

(** [range(n)]: empty when [n <= 0]. *)
Definition range (n : Z) : list Z := seqZ 0 n.

(** The index pairs of an [n] by [m] array in C order: the last index runs
    fastest. *)
Definition index_pairs (n m : Z) : list (Z * Z) :=
  i ← range n; (fun j => (i, j)) <$> range m.

(** [np.ndindex(n, m)]; numpy refuses a negative dimension. *)
Definition ndindex (n m : Z) : res (list (Z * Z)) :=
  if bool_decide (n < 0 ∨ m < 0) then Raise ValueError
  else Ok (index_pairs n m).

(** [a % b] on Python integers: the sign follows the divisor, as [Z.modulo]
    does, and a zero divisor raises. *)
Definition py_mod (a b : Z) : res Z :=
  if bool_decide (b = 0) then Raise ZeroDivisionError else Ok (a `mod` b).

(** A Python [dict] keeps its keys in insertion order: an association list
    in which [d[k] = v] overwrites in place or appends. *)
Abbreviation dict K V := (list (K * V)) (only parsing).

Fixpoint dict_set {K V} `{EqDecision K} (d : dict K V) (k : K) (v : V) : dict K V :=
  match d with
  | [] => [(k, v)]
  | (k', v') :: d' =>
      if decide (k = k') then (k, v) :: d' else (k', v') :: dict_set d' k v
  end.

Fixpoint dict_get {K V} `{EqDecision K} (d : dict K V) (k : K) : option V :=
  match d with
  | [] => None
  | (k', v') :: d' => if decide (k = k') then Some v' else dict_get d' k
  end.

Definition dict_keys {K V} (d : dict K V) : list K := fst <$> d.

(** ** The tensor library, as an interface *)

Definition coord : Type := Z * Z.
Definition edge : Type := coord * coord.

(** [tensorbackends.interface]: the truncation options of an SVD. *)
Inductive svd_option :=
  | ReducedSVD (rank : Z)
  | RandomizedSVD (rank : Z)
  | ImplicitRandomizedSVD (rank : Z).

Definition svd_rank (o : svd_option) : Z :=
  match o with
  | ReducedSVD k | RandomizedSVD k | ImplicitRandomizedSVD k => k
  end.

(** The three backends the command line accepts. *)
Inductive backend_name := numpy | ctf | ctfview.

Global Instance backend_name_eq_dec : EqDecision backend_name.
Proof. solve_decision. Defined.

Global Instance svd_option_eq_dec : EqDecision svd_option.
Proof. solve_decision. Defined.

(** Dense tensor algebra of a backend, as far as the operator builder uses
    it.  [expm_pauli_x c] is [astensor(sla.expm(PAULI_X * c))] and
    [expm_pauli_zz c] is
    [astensor(sla.expm(PAULI_ZZ.reshape(4,4) * c).reshape(2,2,2,2))]. *)
Class TensorBackend (T : Type) := {
  expm_pauli_x : R -> T;
  expm_pauli_zz : R -> T;
  reshape : list Z -> T -> T;
  einsvd : string -> T -> T * T * T;
  einsum : string -> T -> T -> T;
  tpow : T -> Z -> T;
  astensor : backend_name -> T -> T
}.

(** [koala.peps.sites] and the grid container [koala.peps]: absent from the
    sources at hand, so a parameter of everything below. *)
Class Sites (T : Type) := {
  contract_z : T -> T -> T;
  reduce_x : T -> T -> svd_option -> T * T;
  reduce_y : T -> T -> svd_option -> T * T;
  random_site : Z -> Z -> Z -> backend_name -> coord -> T;
  rescale : T -> T
}.

(** ** experiments/tfi_ite_peps.py: local operators *)

Section local_operators.
Context {T : Type} {TB : TensorBackend T}.

Definition one_site_operator (tsr : T) : T := reshape [1; 1; 1; 1; 2; 2] tsr.

Definition horizontal_pair_site_operator (tsr : T) : T * T :=
  let '(xy, s, uv) := einsvd "xyuv->xys,uvs" tsr in
  let s := tpow s 2 in
  let xy := einsum "xys,s->()s()()xy" xy s in
  let uv := einsum "uvs,s->()()()suv" uv s in
  (xy, uv).

Definition vertical_pair_site_operator (tsr : T) : T * T :=
  let '(xy, s, uv) := einsvd "xyuv->sxy,suv" tsr in
  let s := tpow s 2 in
  let xy := einsum "sxy,s->()()s()xy" xy s in
  let uv := einsum "suv,s->s()()()uv" uv s in
  (xy, uv).
End local_operators.

(** ** experiments/tfi_ite_peps.py: the operator builder *)

Section builder.
Context {T : Type} {TB : TensorBackend T} {ST : Sites T}.

(** The state of the first loop: [hoperators] and [touched_sites]. *)
Definition hstate : Type := dict edge (T * T) * gset coord.

(** One iteration of the loop over [np.ndindex(nrows, ncols-1)]. *)
Definition horizontal_iteration (one_site : T) (h_two_site : T * T)
    (st : hstate) (ij : Z * Z) : hstate :=
  let '(hoperators, touched_sites) := st in
  let '(i, j) := ij in
  let a := (i, j) in
  let b := (i, j + 1) in
  let op_a := h_two_site.1 in
  let op_b := h_two_site.2 in
  let '(op_a, touched_sites) :=
    if bool_decide (a ∉ touched_sites)
    then (contract_z one_site op_a, touched_sites ∪ {[a]})
    else (op_a, touched_sites) in
  let '(op_b, touched_sites) :=
    if bool_decide (b ∉ touched_sites)
    then (contract_z one_site op_b, touched_sites ∪ {[b]})
    else (op_b, touched_sites) in
  (dict_set hoperators (a, b) (op_a, op_b), touched_sites).

Definition horizontal_loop (one_site : T) (h_two_site : T * T)
    (nrows ncols : Z) : res hstate :=
  idx ← ndindex nrows (ncols - 1);
  Ok (foldl (horizontal_iteration one_site h_two_site) ([], ∅) idx).

(** One iteration of the loop over [np.ndindex(nrows-1, ncols)]. *)
Definition vertical_iteration (v_two_site : T * T)
    (voperators : dict edge (T * T)) (ij : Z * Z) : dict edge (T * T) :=
  let '(i, j) := ij in
  dict_set voperators ((i, j), (i + 1, j)) (v_two_site.1, v_two_site.2).

Definition vertical_loop (v_two_site : T * T) (nrows ncols : Z)
    : res (dict edge (T * T)) :=
  idx ← ndindex (nrows - 1) ncols;
  Ok (foldl (vertical_iteration v_two_site) [] idx).

(** The two comprehensions of the [return]: every factor is moved to the
    target backend; keys and their order are kept. *)
Definition to_backend (backend : backend_name) (d : dict edge (T * T))
    : dict edge (T * T) :=
  (fun '(idx, (a, b)) => (idx, (astensor backend a, astensor backend b))) <$> d.

Definition build_tfi_trottered_step_operators
    (J h : R) (nrows ncols : Z) (tau : R) (backend : backend_name)
    : res (dict edge (T * T) * dict edge (T * T)) :=
  let one_site := one_site_operator (expm_pauli_x (h * tau)%R) in
  let exp_pauli_zz := expm_pauli_zz (J * tau)%R in
  let h_two_site := horizontal_pair_site_operator exp_pauli_zz in
  let v_two_site := vertical_pair_site_operator exp_pauli_zz in
  '(hoperators, touched_sites) ← horizontal_loop one_site h_two_site nrows ncols;
  voperators ← vertical_loop v_two_site nrows ncols;
  Ok (to_backend backend hoperators, to_backend backend voperators).
End builder.

(** ** experiments/tfi_ite_peps.py: the edge enumerator *)

Definition horizontal_links (nrows ncols : Z) : res (list edge) :=
  ndindex nrows (ncols - 1) ≫= fun idx : list (Z * Z) =>
  Ok ((fun '(i, j) => ((i, j), (i, j + 1))) <$> idx).

Definition vertical_links (nrows ncols : Z) : res (list edge) :=
  ndindex (nrows - 1) ncols ≫= fun idx : list (Z * Z) =>
  Ok ((fun '(i, j) => ((i, j), (i + 1, j))) <$> idx).

(** ** Calls into the collaborators, as a trace *)

(** What the script asks of [ctf] when it runs on a distributed backend. *)
Inductive ctf_call :=
  | CtfTimerEpochBegin (name : string)
  | CtfTimerEpochEnd (name : string)
  | CtfInitializeFlopsCounter
  | CtfGetEstimatedFlops
  | CtfTimerStart (name : string)
  | CtfTimerStop (name : string).

(** One entry per call into koala and into [ctf], in the order of the
    calls: the grid constructor, the three site operations, the
    normalization, entering and leaving a [with Timer(...)] block, and the
    [ctf] counters.  The tensor algebra of tensorbackends is the interface
    above: its operations are values here and leave no entry. *)
Inductive event :=
  | EvRandom (nrow ncol maxrank : Z) (backend : backend_name)
  | EvContractZ
  | EvReduceX (option : svd_option)
  | EvReduceY (option : svd_option)
  | EvSiteNormalize
  | EvEnter (region : string)
  | EvExit (region : string)
  | EvCtf (call : ctf_call).

Global Instance ctf_call_eq_dec : EqDecision ctf_call.
Proof. solve_decision. Defined.

Global Instance event_eq_dec : EqDecision event.
Proof. solve_decision. Defined.

(** A run: how it ended and the calls it made up to there. *)
Record M (A : Type) := Run { result : res A; trace : list event }.
Arguments Run {A} result trace.
Arguments result {A} m.
Arguments trace {A} m.

Global Instance M_ret : MRet M := fun A a => Run (Ok a) [].
Global Instance M_bind : MBind M := fun A B f m =>
  match result m with
  | Ok a => Run (result (f a)) (trace m ++ trace (f a))
  | Raise e => Run (Raise e) (trace m)
  end.

Definition emit (e : event) : M unit := Run (Ok tt) [e].
Definition lift {A} (r : res A) : M A := Run r [].

(** [try: body finally: fin], for a [fin] that does not raise. *)
Definition finally {A} (body : M A) (fin : M unit) : M A :=
  Run (result body) (trace body ++ trace fin).

Fixpoint foldM {A B} (f : A -> B -> M A) (a : A) (l : list B) : M A :=
  match l with
  | [] => mret a
  | b :: l => a' ← f a b; foldM f a' l
  end.

(** The flop counter of [ctf]: a function of the calls made since it was
    last initialized, otherwise opaque. *)
Class FlopCounter := { get_estimated_flops : list event -> Z }.

(** ** experiments/tfi_ite_peps.py: class Timer *)

Definition is_ctf (backend : backend_name) : bool :=
  bool_decide (backend ∈ [ctf; ctfview]).

Record Timer := { timer : option string }.

Definition Timer_init (backend : backend_name) (name : string) : Timer :=
  {| timer := if is_ctf backend then Some name else None |}.

Definition Timer_enter (self : Timer) : M unit :=
  match timer self with
  | Some name => emit (EvCtf (CtfTimerStart name))
  | None => mret tt
  end.

Definition Timer_exit (self : Timer) : M unit :=
  match timer self with
  | Some name => emit (EvCtf (CtfTimerStop name))
  | None => mret tt
  end.

(** [with Timer(backend, name): body] *)
Definition with_timer {A} (backend : backend_name) (name : string) (body : M A) : M A :=
  let t := Timer_init backend name in
  emit (EvEnter name);;
  Timer_enter t;;
  finally body (Timer_exit t;; emit (EvExit name)).

(** ** The grid state *)

(** The [PEPS] object the script calls [qstate]. *)
Record PEPS (T : Type) := QState { grid : gmap coord T; qbackend : backend_name }.
Arguments QState {T} grid qbackend.
Arguments grid {T} _.
Arguments qbackend {T} _.

Section grid_state.
Context {T : Type} {ST : Sites T}.

(** [qstate[a]] *)
Definition qstate_get (q : PEPS T) (a : coord) : M T :=
  lift (match grid q !! a with Some t => Ok t | None => Raise IndexError end).

(** [qstate.grid[a] = t] *)
Definition grid_set (q : PEPS T) (a : coord) (t : T) : PEPS T :=
  QState (<[a := t]> (grid q)) (qbackend q).

Definition call_contract_z (t op : T) : M T :=
  emit EvContractZ;; mret (contract_z t op).

Definition call_reduce_x (a b : T) (option : svd_option) : M (T * T) :=
  emit (EvReduceX option);; mret (reduce_x a b option).

Definition call_reduce_y (a b : T) (option : svd_option) : M (T * T) :=
  emit (EvReduceY option);; mret (reduce_y a b option).

(** Modelled from the spec: [peps.random] (koala.peps, not among the
    sources), "create_random(R, C, max_rank)": one site tensor at every
    coordinate of the R by C lattice and none elsewhere. *)
Definition peps_random (nrow ncol maxrank : Z) (backend : backend_name) : M (PEPS T) :=
  emit (EvRandom nrow ncol maxrank backend);;
  mret (QState
          (list_to_map ((fun c => (c, random_site nrow ncol maxrank backend c))
                          <$> index_pairs nrow ncol))
          backend).

(** Modelled from the spec: [PEPS.site_normalize] (koala.peps, not among
    the sources), "rescale each site tensor by a backend-computed factor",
    in place and without changing which coordinates hold a tensor. *)
Definition site_normalize (q : PEPS T) : M (PEPS T) :=
  emit EvSiteNormalize;; mret (QState (rescale <$> grid q) (qbackend q)).
End grid_state.

(** ** experiments/tfi_ite_peps.py: the update sweep and the simulation loop *)

Section simulation.
Context {T : Type} {ST : Sites T} {FC : FlopCounter}.

(** The body of the loop over [hoperators.items()]. *)
Definition horizontal_update (qstate : PEPS T) (ab : edge) (ops : T * T)
    (maxrank : Z) : M (PEPS T) :=
  let '(a, b) := ab in
  let '(op_a, op_b) := ops in
  qstate ← with_timer (qbackend qstate) "apply_trottered_step_operators_contraction" (
    ta ← qstate_get qstate a;
    ta ← call_contract_z ta op_a;
    let qstate := grid_set qstate a ta in
    tb ← qstate_get qstate b;
    tb ← call_contract_z tb op_b;
    mret (grid_set qstate b tb));
  with_timer (qbackend qstate) "reduce_bond_dimensions" (
    ta ← qstate_get qstate a;
    tb ← qstate_get qstate b;
    '(ra, rb) ← call_reduce_y ta tb (ImplicitRandomizedSVD maxrank);
    mret (grid_set (grid_set qstate a ra) b rb)).

(** The body of the loop over [voperators.items()]. *)
Definition vertical_update (qstate : PEPS T) (ab : edge) (ops : T * T)
    (maxrank : Z) : M (PEPS T) :=
  let '(a, b) := ab in
  let '(op_a, op_b) := ops in
  qstate ← with_timer (qbackend qstate) "apply_trottered_step_operators_contraction" (
    ta ← qstate_get qstate a;
    ta ← call_contract_z ta op_a;
    let qstate := grid_set qstate a ta in
    tb ← qstate_get qstate b;
    tb ← call_contract_z tb op_b;
    mret (grid_set qstate b tb));
  with_timer (qbackend qstate) "reduce_bond_dimensions" (
    ta ← qstate_get qstate a;
    tb ← qstate_get qstate b;
    '(ra, rb) ← call_reduce_x ta tb (ImplicitRandomizedSVD maxrank);
    mret (grid_set (grid_set qstate a ra) b rb)).

Definition apply_trottered_step_operators (qstate : PEPS T)
    (hoperators voperators : dict edge (T * T)) (maxrank : Z)
    : M (PEPS T) :=
  qstate ← foldM (fun q item => horizontal_update q item.1 item.2 maxrank)
                 qstate hoperators;
  foldM (fun q item => vertical_update q item.1 item.2 maxrank)
        qstate voperators.

(** One pass of [for i in range(steps)]. *)
Definition run_peps_iteration (operators : dict edge (T * T) * dict edge (T * T))
    (normfreq maxrank : Z) (qstate : PEPS T) (i : Z) : M (PEPS T) :=
  qstate ← with_timer (qbackend qstate) "apply_trottered_step_operators"
    (apply_trottered_step_operators qstate operators.1 operators.2 maxrank);
  r ← lift (py_mod (i + 1) normfreq);
  if bool_decide (r = 0) then site_normalize qstate else mret qstate.

Definition run_peps (operators : dict edge (T * T) * dict edge (T * T))
    (nrow ncol steps normfreq : Z) (backend : backend_name) (threshold : R)
    (maxrank : Z) (randomized_svd : bool) : M (PEPS T * option Z) :=
  let using_ctf := is_ctf backend in
  (if using_ctf
   then emit (EvCtf (CtfTimerEpochBegin "run_peps"));;
        emit (EvCtf CtfInitializeFlopsCounter)
   else mret tt);;
  qstate ← peps_random nrow ncol maxrank backend;
  (if using_ctf then emit (EvCtf CtfInitializeFlopsCounter) else mret tt);;
  let loop := foldM (run_peps_iteration operators normfreq maxrank)
                    qstate (range steps) in
  qstate ← loop;
  flops ← (if using_ctf
           then emit (EvCtf (CtfTimerEpochEnd "run_peps"));;
                emit (EvCtf CtfGetEstimatedFlops);;
                mret (Some (get_estimated_flops (trace loop)))
           else mret None);
  mret (qstate, flops).
End simulation.

(** ** experiments/tfi_ite_peps.py: the operator builder as a run *)

Section builder_run.
Context {T : Type} {TB : TensorBackend T} {ST : Sites T}.

(** The iteration of the loop over [np.ndindex(nrows, ncols-1)] once more,
    now with its calls: the two [sites.contract_z] of lines 68 and 71 are
    the call a bond update makes, and enter the trace as that call does. *)
Definition call_horizontal_iteration (one_site : T) (h_two_site : T * T)
    (st : hstate) (ij : Z * Z) : M hstate :=
  let '(hoperators, touched_sites) := st in
  let '(i, j) := ij in
  let a := (i, j) in
  let b := (i, j + 1) in
  let op_a := h_two_site.1 in
  let op_b := h_two_site.2 in
  '(op_a, touched_sites) ←
    (if bool_decide (a ∉ touched_sites)
     then op_a ← call_contract_z one_site op_a; mret (op_a, touched_sites ∪ {[a]})
     else mret (op_a, touched_sites));
  '(op_b, touched_sites) ←
    (if bool_decide (b ∉ touched_sites)
     then op_b ← call_contract_z one_site op_b; mret (op_b, touched_sites ∪ {[b]})
     else mret (op_b, touched_sites));
  mret (dict_set hoperators (a, b) (op_a, op_b), touched_sites).

(** The builder as [main] runs it: what it returns or raises, and the
    calls into [koala.peps.sites] it has made by then.  The second loop and
    the two comprehensions call nothing of koala. *)
Definition call_build_tfi_trottered_step_operators
    (J h : R) (nrows ncols : Z) (tau : R) (backend : backend_name)
    : M (dict edge (T * T) * dict edge (T * T)) :=
  let one_site := one_site_operator (expm_pauli_x (h * tau)%R) in
  let exp_pauli_zz := expm_pauli_zz (J * tau)%R in
  let h_two_site := horizontal_pair_site_operator exp_pauli_zz in
  let v_two_site := vertical_pair_site_operator exp_pauli_zz in
  idx ← lift (ndindex nrows (ncols - 1));
  '(hoperators, touched_sites) ←
    foldM (call_horizontal_iteration one_site h_two_site) ([], ∅) idx;
  voperators ← lift (vertical_loop v_two_site nrows ncols);
  mret (to_backend backend hoperators, to_backend backend voperators).
End builder_run.

(** The parsed command line, with the defaults of [build_cli_parser]. *)
Record args := Args {
  nrow : Z; ncol : Z; coupling : R; field : R; steps : Z; tau : R;
  normfreq : Z; backend : backend_name; threshold : R; maxrank : Z;
  randomized_svd : bool
}.

Definition default_args : args :=
  Args 3 3 1 (2 / 10) 100 (1 / 100) 10 numpy (1 / 100000) 1 false.

Section entry_point.
Context {T : Type} {TB : TensorBackend T} {ST : Sites T} {FC : FlopCounter}.

(** [main], without the clock and the printing. *)
Definition main (args : args) : M (PEPS T * option Z) :=
  operators ← with_timer (backend args) "build_operators"
    (call_build_tfi_trottered_step_operators (coupling args) (field args)
       (nrow args) (ncol args) (tau args) (backend args));
  run_peps operators (nrow args) (ncol args) (steps args) (normfreq args)
    (backend args) (threshold args) (maxrank args) (randomized_svd args).
End entry_point.

(** ** experiments/rqc_statevector.py: the random circuit generator *)

Module Rqc.

Record Gate := MkGate { name : string; parameters : list R; qubits : list Z }.

Record Circuit := MkCircuit {
  gates : list (list Gate);
  nrow : Z; ncol : Z; nlayer : Z;
  two_qubit_gate_name : string;
  seed : Z
}.

(** [np.random.RandomState]: a generator state made from a seed, and a
    draw that yields a number and the next state. *)
Class RandomState (G : Type) := {
  seeded : Z -> G;
  randint : G -> nat -> nat * G
}.

Fixpoint foldR {A B} (f : A -> B -> res A) (a : A) (l : list B) : res A :=
  match l with
  | [] => Ok a
  | b :: l => f a b ≫= fun a' => foldR f a' l
  end.

(** [l[i]] on a Python list, for an index that is not negative. *)
Definition index {A} (l : list A) (i : Z) : res A :=
  match l !! Z.to_nat i with Some x => Ok x | None => Raise IndexError end.

Section generator.
Context {G : Type} {RS : RandomState G}.

(** [np.random.RandomState(seed)]: the seed must fit 32 bits. *)
Definition new_random_state (seed : Z) : res G :=
  if bool_decide (0 ≤ seed < 2 ^ 32) then Ok (seeded seed) else Raise ValueError.

(** [rand_state.choice(a)]: some element of [a], whatever the draw is;
    numpy refuses an empty [a]. *)
Definition choice (rand_state : G) (a : list string) : res (string * G) :=
  match a with
  | [] => Raise ValueError
  | x :: _ =>
      let '(k, rand_state) := randint rand_state (length a) in
      Ok (nth (k mod length a)%nat a x, rand_state)
  end.

Definition one_qubit_gate_names : list string := ["sqrtX"; "sqrtY"; "sqrtW"].
Definition the_two_qubit_gate_name : string := "ISWAP".
Definition pattern : list Z := [0; 1; 2; 3; 2; 3; 0; 1].

Definition as_qubit (ncol i j : Z) : Z := i * ncol + j.

(** One iteration of the loop that fills [pairs]. *)
Definition pairs_iteration (nrow ncol : Z) (pairs : list (list (Z * Z)))
    (ij : Z * Z) : list (list (Z * Z)) :=
  let '(i, j) := ij in
  let pairs :=
    if bool_decide (i ≠ nrow - 1)
    then alter (fun l => l ++ [(as_qubit ncol i j, as_qubit ncol (i + 1) j)])
               (Z.to_nat (i `mod` 2)) pairs
    else pairs in
  if bool_decide (j ≠ ncol - 1)
  then alter (fun l => l ++ [(as_qubit ncol i j, as_qubit ncol i (j + 1))])
             (Z.to_nat (j `mod` 2 + 2)) pairs
  else pairs.

(** The state the two nested functions share: the generator,
    [previous_gate], and the layer being filled. *)
Definition layer_state : Type := G * list (option string) * list Gate.

(** One iteration of the loop of [add_one_qubit_gates]. *)
Definition one_qubit_iteration (st : layer_state) (i : Z) : res layer_state :=
  let '(rand_state, previous_gate, layer) := st in
  prev ← index previous_gate i;
  '(name, rand_state) ←
    choice rand_state
           (filter (fun n => Some n ≠ prev) one_qubit_gate_names);
  Ok (rand_state, <[Z.to_nat i := Some name]> previous_gate,
      layer ++ [MkGate name [] [i]]).

Definition add_one_qubit_gates (qubits : list Z) (st : layer_state) : res layer_state :=
  foldR one_qubit_iteration st qubits.

Definition add_two_qubit_gates (qubits : list (Z * Z)) (layer : list Gate) : list Gate :=
  foldl (fun layer '(i, j) => layer ++ [MkGate the_two_qubit_gate_name [] [i; j]])
        layer qubits.

(** One iteration of [for i in range(nlayer)]. *)
Definition layer_iteration (qubits : list Z) (pairs : list (list (Z * Z)))
    (st : G * list (option string) * list (list Gate)) (i : Z)
    : res (G * list (option string) * list (list Gate)) :=
  let '(rand_state, previous_gate, gates) := st in
  '(rand_state, previous_gate, layer) ←
    add_one_qubit_gates qubits (rand_state, previous_gate, []);
  p ← index pattern (i `mod` 8);
  group ← index pairs p;
  let layer := add_two_qubit_gates group layer in
  Ok (rand_state, previous_gate, gates ++ [layer]).

Definition make_pairs (nrow ncol : Z) : res (list (list (Z * Z))) :=
  ndindex nrow ncol ≫= fun idx : list (Z * Z) =>
  Ok (foldl (pairs_iteration nrow ncol) [[]; []; []; []] idx).

Definition generate (nrow ncol nlayer seed : Z) : res Circuit :=
  rand_state ← new_random_state seed;
  let qubits := range (nrow * ncol) in
  pairs ← make_pairs nrow ncol;
  let previous_gate := replicate (length qubits) None in
  '(rand_state, previous_gate, gates) ←
    foldR (layer_iteration qubits pairs) (rand_state, previous_gate, [])
          (range nlayer);
  Ok (MkCircuit gates nrow ncol nlayer the_two_qubit_gate_name seed).
End generator.

End Rqc.

(** ** experiments/rqc_statevector.py: running a circuit *)

Module RqcRun.
Import Rqc.

(** [koala.statevector], as far as the script uses it: the constructor of
    the all-zeros state and [apply_circuit], which updates the state. *)
Class Statevector (V : Type) := {
  computational_zeros : Z -> backend_name -> V;
  apply_circuit : V -> list Gate -> V
}.

(** [tensorbackends.get(backend).rank]: the rank of the process. *)
Class Process := { rank : backend_name -> Z }.

(** A printed line, by what it starts with: [layer_time_<i>] or the key
    of a field of the summary.  The clock readings and the values that
    follow on the line are left out. *)
Inductive line :=
  | LayerTime (i : nat)
  | Field (key : string).

(** [enumerate(l)] *)
Definition enumerate {A} (l : list A) : list (nat * A) := imap pair l.

Record args := Args {
  nrow : Z; ncol : Z; nlayer : Z; seed : Z; backend : backend_name
}.

Section runner.
Context {G : Type} {RS : RandomState G} {V : Type} {SV : Statevector V} {PR : Process}.

(** One iteration of the loop over [enumerate(circuit.gates)]: the state
    and the lines printed so far. *)
Definition run_statevector_iteration (rank : Z) (st : V * list line)
    (item : nat * list Gate) : V * list line :=
  let '(qstate, out) := st in
  let '(i, layer) := item in
  let qstate := apply_circuit qstate layer in
  (qstate, if bool_decide (rank = 0) then out ++ [LayerTime i] else out).

Definition run_statevector (circuit : Circuit) (backend : backend_name)
    : V * list line :=
  let rank := rank backend in
  let qstate := computational_zeros (Rqc.nrow circuit * Rqc.ncol circuit) backend in
  foldl (run_statevector_iteration rank) (qstate, []) (enumerate (gates circuit)).

(** [main]: the state it leaves and the lines it prints. *)
Definition main (args : args) : res (V * list line) :=
  circuit ← generate (G:=G) (nrow args) (ncol args) (nlayer args) (seed args);
  let '(qstate_peps, out) := run_statevector circuit (backend args) in
  Ok (qstate_peps,
      if bool_decide (rank (backend args) = 0)
      then out ++ (Field <$> ["circuit.nrow"; "circuit.ncol"; "circuit.nlayer";
                              "circuit.seed"; "backend.name"; "backend.nproc";
                              "result.statevector_time"])
      else out).
End runner.

End RqcRun.

(** ** A free implementation: every tensor is the expression that made it *)

Module Free.

Inductive svd_part := PartU | PartS | PartV.

Inductive term :=
  | TExpmPauliX (c : R)
  | TExpmPauliZZ (c : R)
  | TReshape (shape : list Z) (t : term)
  | TEinsvd (pattern : string) (part : svd_part) (t : term)
  | TEinsum (pattern : string) (a b : term)
  | TPow (t : term) (e : Z)
  | TAsTensor (backend : backend_name) (t : term)
  | TContractZ (a b : term)
  | TReduceX (first : bool) (a b : term) (option : svd_option)
  | TReduceY (first : bool) (a b : term) (option : svd_option)
  | TRandom (nrow ncol maxrank : Z) (backend : backend_name) (c : coord)
  | TRescale (t : term).

Global Instance term_backend : TensorBackend term := {
  expm_pauli_x := TExpmPauliX;
  expm_pauli_zz := TExpmPauliZZ;
  reshape := TReshape;
  einsvd p t := (TEinsvd p PartU t, TEinsvd p PartS t, TEinsvd p PartV t);
  einsum := TEinsum;
  tpow := TPow;
  astensor := TAsTensor
}.

Global Instance term_sites : Sites term := {
  contract_z := TContractZ;
  reduce_x a b o := (TReduceX true a b o, TReduceX false a b o);
  reduce_y a b o := (TReduceY true a b o, TReduceY false a b o);
  random_site := TRandom;
  rescale := TRescale
}.

(** The flops of a run of this implementation: one per site operation. *)
Definition is_site_operation (e : event) : bool :=
  match e with
  | EvContractZ | EvReduceX _ | EvReduceY _ => true
  | _ => false
  end.

Global Instance term_flops : FlopCounter := {
  get_estimated_flops tr := Z.of_nat (length (List.filter is_site_operation tr))
}.

(** Was the single-site operator [one_site_operator(expm(X * c))]
    contracted into this factor (before it was moved to its backend)? *)
Fixpoint has_field_term (t : term) : bool :=
  match t with
  | TContractZ (TReshape _ (TExpmPauliX _)) _ => true
  | TAsTensor _ t => has_field_term t
  | _ => false
  end.

End Free.

(** * The vocabulary of the properties *)

(** ** The operator builder in closed form *)

Section builder_closed_forms.
Context {T : Type} {ST : Sites T}.
Variables (one_site : T) (h_two_site v_two_site : T * T).

(** What the first loop stores for the edge that starts in column [j]. *)
Definition expected_hfactors (j : Z) : T * T :=
  (if bool_decide (j = 0) then contract_z one_site h_two_site.1 else h_two_site.1,
   contract_z one_site h_two_site.2).

Definition expected_hoperators (nrows ncols : Z) : dict edge (T * T) :=
  (fun ij : Z * Z => ((ij, (ij.1, ij.2 + 1)), expected_hfactors ij.2))
    <$> index_pairs nrows (ncols - 1).

Definition expected_voperators (nrows ncols : Z) : dict edge (T * T) :=
  (fun ij : Z * Z => ((ij, (ij.1 + 1, ij.2)), (v_two_site.1, v_two_site.2)))
    <$> index_pairs (nrows - 1) ncols.

Definition expected_row (i m : Z) : dict edge (T * T) :=
  (fun j => (((i, j), (i, j + 1)), expected_hfactors j)) <$> range m.

End builder_closed_forms.

(** The edges in the words of the specification. *)
Definition spec_horizontal_edges (R C : Z) : list edge :=
  i ← seqZ 0 R; j ← seqZ 0 (C - 1); [((i, j), (i, j + 1))].

Definition spec_vertical_edges (R C : Z) : list edge :=
  i ← seqZ 0 (R - 1); j ← seqZ 0 C; [((i, j), (i + 1, j))].

(** The operators the builder makes on the free implementation, for the
    default coupling, field and step of the command line. *)
Definition free_operators (nrows ncols : Z)
  : dict edge (Free.term * Free.term) * dict edge (Free.term * Free.term) :=
  match build_tfi_trottered_step_operators
          (coupling default_args) (field default_args) nrows ncols
          (tau default_args) numpy with
  | Ok ops => ops
  | Raise _ => ([], [])
  end.

(** How often the single-site operator was contracted into a stored factor
    that acts on site [c]. *)
Definition field_count (ops : dict edge (Free.term * Free.term)) (c : coord) : nat :=
  sum_list ((fun item : edge * (Free.term * Free.term) =>
               (if bool_decide (item.1.1 = c) && Free.has_field_term item.2.1
                then 1 else 0)
               + (if bool_decide (item.1.2 = c) && Free.has_field_term item.2.2
                  then 1 else 0))%nat <$> ops).

(** ** Traces in closed form *)

(** The calls a timer makes on its own. *)
Definition timer_start (backend : backend_name) (name : string) : list event :=
  if is_ctf backend then [EvCtf (CtfTimerStart name)] else [].

Definition timer_stop (backend : backend_name) (name : string) : list event :=
  if is_ctf backend then [EvCtf (CtfTimerStop name)] else [].

(** The trace of a [with Timer(backend, name)] block around [tr]. *)
Definition timed (backend : backend_name) (name : string) (tr : list event) : list event :=
  EvEnter name :: timer_start backend name ++ tr ++ timer_stop backend name ++ [EvExit name].

(** The calls of the operator builder: one [sites.contract_z] per site of
    a lattice with at least two columns, and none on any other lattice. *)
Definition builder_trace (nrows ncols : Z) : list event :=
  if bool_decide (1 ≤ nrows ∧ 2 ≤ ncols)
  then replicate (Z.to_nat (nrows * ncols)) EvContractZ
  else [].

(** The calls of one bond update, [reduce] being its truncation. *)
Definition update_trace (backend : backend_name) (reduce : event) : list event :=
  timed backend "apply_trottered_step_operators_contraction" [EvContractZ; EvContractZ]
  ++ timed backend "reduce_bond_dimensions" [reduce].

Section grid_closed_forms.
Context {T : Type} {ST : Sites T}.

(** The grid after the update of an edge with two distinct ends. *)
Definition updated_grid (reduce : T → T → svd_option → T * T)
    (g : gmap coord T) (a b : coord) (op_a op_b : T) (maxrank : Z) (ta tb : T)
    : gmap coord T :=
  let r := reduce (contract_z ta op_a) (contract_z tb op_b)
                  (ImplicitRandomizedSVD maxrank) in
  <[b := r.2]> (<[a := r.1]> (<[b := contract_z tb op_b]> (<[a := contract_z ta op_a]> g))).

(** An operator map whose keys are pairs of distinct sites of the grid. *)
Definition on_sites (D : gset coord) (ops : dict edge (T * T)) : Prop :=
  Forall (fun item : edge * (T * T) =>
            item.1.1 ≠ item.1.2 ∧ item.1.1 ∈ D ∧ item.1.2 ∈ D) ops.

Global Instance on_sites_dec (D : gset coord) (ops : dict edge (T * T)) :
  Decision (on_sites D ops).
Proof. unfold on_sites. apply _. Defined.

End grid_closed_forms.

Definition sweep_trace (backend : backend_name) (reduce : event) (n : nat) : list event :=
  concat (replicate n (update_trace backend reduce)).

Definition step_trace (backend : backend_name) (maxrank : Z) (nh nv : nat) : list event :=
  sweep_trace backend (EvReduceY (ImplicitRandomizedSVD maxrank)) nh
  ++ sweep_trace backend (EvReduceX (ImplicitRandomizedSVD maxrank)) nv.

Definition iteration_trace (backend : backend_name) (maxrank : Z) (nh nv : nat)
    (normfreq i : Z) : list event :=
  timed backend "apply_trottered_step_operators" (step_trace backend maxrank nh nv)
  ++ (if bool_decide ((i + 1) `mod` normfreq = 0) then [EvSiteNormalize] else []).

Definition ctf_prelude (backend : backend_name) : list event :=
  if is_ctf backend
  then [EvCtf (CtfTimerEpochBegin "run_peps"); EvCtf CtfInitializeFlopsCounter]
  else [].

Definition ctf_reset (backend : backend_name) : list event :=
  if is_ctf backend then [EvCtf CtfInitializeFlopsCounter] else [].

Definition ctf_postlude (backend : backend_name) : list event :=
  if is_ctf backend
  then [EvCtf (CtfTimerEpochEnd "run_peps"); EvCtf CtfGetEstimatedFlops]
  else [].

(** The two moments of a run the normalization schedule is about. *)
Inductive mark := StepDone | Normalized.

Definition mark_of (e : event) : option mark :=
  match e with
  | EvExit region =>
      if bool_decide (region = "apply_trottered_step_operators")
      then Some StepDone else None
  | EvSiteNormalize => Some Normalized
  | _ => None
  end.

Definition marks (tr : list event) : list mark := omap mark_of tr.

(** The schedule in the words of the specification: a normalization right
    after each completed step whose 1-based index is a multiple of
    [normfreq], and nowhere else. *)
Definition expected_marks (steps normfreq : Z) : list mark :=
  i ← seqZ 1 steps;
  StepDone :: (if bool_decide (i `mod` normfreq = 0) then [Normalized] else []).

(** Calls into koala: the grid constructor, the site operations and the
    normalization. *)
Definition is_koala_call (e : event) : bool :=
  match e with
  | EvRandom _ _ _ _ | EvContractZ | EvReduceX _ | EvReduceY _ | EvSiteNormalize => true
  | _ => false
  end.

Definition is_truncation (e : event) : bool :=
  match e with EvReduceX _ | EvReduceY _ => true | _ => false end.

(** Every truncation in the trace was asked for with option [o]. *)
Definition truncates_with (o : svd_option) (e : event) : Prop :=
  match e with
  | EvReduceX o' | EvReduceY o' => o' = o
  | _ => True
  end.

Definition invalid_configuration (nrow ncol maxrank : Z) : Prop :=
  nrow ≤ 0 ∨ ncol ≤ 0 ∨ maxrank < 1.

(** Failing fast: the run raises and koala was never called. *)
Definition fails_fast {A} (m : M A) : Prop :=
  (∃ e, result m = Raise e) ∧ Forall (fun e => is_koala_call e = false) (trace m).

(** A rank of zero on the command line. *)
Definition rank_zero_args : args :=
  Args 2 2 1 (2 / 10) 1 (1 / 100) 10 numpy (1 / 100000) 0 false.

(** ** The layers of a random circuit *)

Module RqcSpec.
Import Rqc.

(** The two-qubit gates of a layer, from its pair group. *)
Definition iswap_gates (group : list (Z * Z)) : list Gate :=
  (fun ab : Z * Z => MkGate "ISWAP" [] [ab.1; ab.2]) <$> group.

(** A run of [add_one_qubit_gates] over [n] qubits: one gate per qubit, in
    order, each named differently from what [prev] holds for its qubit, and
    [next] holds the names chosen. *)
Definition singles_ok (prev : list (option string)) (singles : list Gate)
    (next : list (option string)) : Prop :=
  length singles = length prev
  ∧ length next = length prev
  ∧ ∀ (q : nat) (g : Gate), singles !! q = Some g →
      qubits g = [Z.of_nat q] ∧ parameters g = []
      ∧ name g ∈ one_qubit_gate_names
      ∧ prev !! q ≠ Some (Some (name g))
      ∧ next !! q = Some (Some (name g)).

(** Layer [i] of a circuit on [n] qubits: one single-qubit gate per qubit,
    in order, then the ISWAP gates of the pair group the pattern selects. *)
Definition layer_ok (n : nat) (pairs : list (list (Z * Z))) (i : nat)
    (layer : list Gate) : Prop :=
  ∃ singles p group,
    pattern !! Z.to_nat (Z.of_nat i `mod` 8) = Some p
    ∧ pairs !! Z.to_nat p = Some group
    ∧ layer = singles ++ iswap_gates group
    ∧ length singles = n
    ∧ ∀ (q : nat) (g : Gate), singles !! q = Some g →
        qubits g = [Z.of_nat q] ∧ parameters g = []
        ∧ name g ∈ one_qubit_gate_names.

(** No qubit keeps the name of its single-qubit gate from one layer to the
    next. *)
Definition names_alternate (n : nat) (gates : list (list Gate)) : Prop :=
  ∀ (i q : nat) (l1 l2 : list Gate) (g1 g2 : Gate),
    gates !! i = Some l1 → gates !! S i = Some l2 → (q < n)%nat →
    l1 !! q = Some g1 → l2 !! q = Some g2 → name g1 ≠ name g2.

(** A small generator to run the circuit generator with: a counter. *)
Global Instance counter_random_state : RandomState nat := {
  seeded seed := Z.to_nat seed;
  randint g bound := ((7 * g + 3) mod 11, S g)%nat
}.

End RqcSpec.

(** ** The dimensions of the virtual legs *)

(** The four virtual legs of a site tensor, in the order of its axes: the
    factor patterns of the script put the gate bond of a horizontal pair on
    axis 1 of the left site and axis 3 of the right site, and that of a
    vertical pair on axis 2 of the upper site and axis 0 of the lower one. *)
Inductive leg := North | East | South | West.

Global Instance leg_eq_dec : EqDecision leg.
Proof. solve_decision. Defined.

Definition leg_axis (l : leg) : nat :=
  match l with North => 0 | East => 1 | South => 2 | West => 3 end%nat.

(** Modelled from the spec: [sites.contract_z], [sites.reduce_y] and
    [sites.reduce_x] (koala.peps.sites, not among the sources), as far as
    the dimensions of the virtual legs go.  Contracting a gate factor into
    a site over the physical leg multiplies each virtual leg by the
    factor's ("increasing that bond's dimension by the gate-bond's
    dimension"); the joint SVD across the shared bond, "truncating to the
    top k singular values/vectors", leaves the two sites with one shared
    dimension of at most k on that bond and every other leg as it was. *)
Class SiteShapes (T : Type) {ST : Sites T} := {
  bond_dim : T -> leg -> Z;
  bond_dim_contract_z : forall (t op : T) (l : leg),
    bond_dim (contract_z t op) l = bond_dim t l * bond_dim op l;
  bond_dim_reduce_y : forall (a b : T) (o : svd_option),
    bond_dim (reduce_y a b o).1 East = bond_dim (reduce_y a b o).2 West
    /\ bond_dim (reduce_y a b o).1 East <= svd_rank o
    /\ (forall l, l <> East -> bond_dim (reduce_y a b o).1 l = bond_dim a l)
    /\ (forall l, l <> West -> bond_dim (reduce_y a b o).2 l = bond_dim b l);
  bond_dim_reduce_x : forall (a b : T) (o : svd_option),
    bond_dim (reduce_x a b o).1 South = bond_dim (reduce_x a b o).2 North
    /\ bond_dim (reduce_x a b o).1 South <= svd_rank o
    /\ (forall l, l <> South -> bond_dim (reduce_x a b o).1 l = bond_dim a l)
    /\ (forall l, l <> North -> bond_dim (reduce_x a b o).2 l = bond_dim b l)
}.

(** A gate factor as the builder shapes it: dimension 1 on every virtual
    leg but the one towards the other site of the edge. *)
Definition gate_factor {T : Type} {ST : Sites T} {SS : SiteShapes T}
    (towards : leg) (op : T) : Prop :=
  forall l, l <> towards -> bond_dim op l = 1.

(** An implementation that computes shapes and keeps the expression. *)
Module Shaped.

Record tensor := MkTensor { shape : list Z; body : Free.term }.

Definition dim (t : tensor) (axis : nat) : Z := nth axis (shape t) 1.

(** A missing trailing axis counts as an axis of dimension 1. *)
Definition set_dim (axis : nat) (d : Z) (sh : list Z) : list Z :=
  <[axis := d]> (sh ++ replicate (S axis - length sh) 1).

(** The shapes the einsum and einsvd patterns of the script produce. *)
Definition einsvd_shapes (pattern : string) (sh : list Z) : list Z * list Z * list Z :=
  match sh with
  | [x; y; u; v] =>
      let s := Z.min (x * y) (u * v) in
      if bool_decide (pattern = "xyuv->xys,uvs") then ([x; y; s], [s], [u; v; s])
      else if bool_decide (pattern = "xyuv->sxy,suv") then ([s; x; y], [s], [s; u; v])
      else ([], [], [])
  | _ => ([], [], [])
  end.

Definition einsum_shape (pattern : string) (sa sb : list Z) : list Z :=
  match sa with
  | [p; q; r] =>
      if bool_decide (pattern = "xys,s->()s()()xy") then [1; r; 1; 1; p; q]
      else if bool_decide (pattern = "uvs,s->()()()suv") then [1; 1; 1; r; p; q]
      else if bool_decide (pattern = "sxy,s->()()s()xy") then [1; 1; p; 1; q; r]
      else if bool_decide (pattern = "suv,s->s()()()uv") then [p; 1; 1; 1; q; r]
      else []
  | _ => []
  end.

Global Instance shaped_backend : TensorBackend tensor := {
  expm_pauli_x c := MkTensor [2; 2] (expm_pauli_x c);
  expm_pauli_zz c := MkTensor [2; 2; 2; 2] (expm_pauli_zz c);
  reshape sh t := MkTensor sh (reshape sh (body t));
  einsvd p t :=
    let '(su, ss, sv) := einsvd_shapes p (shape t) in
    let '(u, s, v) := einsvd p (body t) in
    (MkTensor su u, MkTensor ss s, MkTensor sv v);
  einsum p a b := MkTensor (einsum_shape p (shape a) (shape b)) (einsum p (body a) (body b));
  tpow t e := MkTensor (shape t) (tpow (body t) e);
  astensor backend t := MkTensor (shape t) (astensor backend (body t))
}.

(** Modelled from the spec: the site operations of koala.peps.sites (not
    among the sources) on shapes.  [contract_z] multiplies the virtual legs
    and keeps the two physical legs; [reduce_y] and [reduce_x] truncate
    the shared bond "to the top k singular values/vectors" and are "a
    no-op" when it is already at most k wide; [peps.random] gives every
    site virtual legs of the maximal rank, 1 at the boundary ("boundary legs
    have dimension 1"); normalization rescales without reshaping. *)
Definition contract_z_shape (st sop : list Z) : list Z :=
  [nth 0 st 1 * nth 0 sop 1; nth 1 st 1 * nth 1 sop 1;
   nth 2 st 1 * nth 2 sop 1; nth 3 st 1 * nth 3 sop 1; 2; 2].

Definition random_shape (nrow ncol maxrank : Z) (c : coord) : list Z :=
  [if bool_decide (c.1 = 0) then 1 else maxrank;
   if bool_decide (c.2 = ncol - 1) then 1 else maxrank;
   if bool_decide (c.1 = nrow - 1) then 1 else maxrank;
   if bool_decide (c.2 = 0) then 1 else maxrank; 2; 1].

Global Instance shaped_sites : Sites tensor := {
  contract_z t op :=
    MkTensor (contract_z_shape (shape t) (shape op)) (contract_z (body t) (body op));
  reduce_y a b o :=
    let r := Z.min (svd_rank o) (dim a 1) in
    (MkTensor (set_dim 1 r (shape a)) (reduce_y (body a) (body b) o).1,
     MkTensor (set_dim 3 r (shape b)) (reduce_y (body a) (body b) o).2);
  reduce_x a b o :=
    let r := Z.min (svd_rank o) (dim a 2) in
    (MkTensor (set_dim 2 r (shape a)) (reduce_x (body a) (body b) o).1,
     MkTensor (set_dim 0 r (shape b)) (reduce_x (body a) (body b) o).2);
  random_site nrow ncol maxrank backend c :=
    MkTensor (random_shape nrow ncol maxrank c) (random_site nrow ncol maxrank backend c);
  rescale t := MkTensor (shape t) (rescale (body t))
}.

End Shaped.

(** The state of affairs after a bond update of the edge [(a, b)] whose
    shared bond is leg [la] of [a] and leg [lb] of [b]. *)
Definition bond_updated {T : Type} {ST : Sites T} {SS : SiteShapes T}
    (la lb : leg) (k : Z) (q : PEPS T) (a b : coord) (ta tb : T)
    (run : M (PEPS T)) : Prop :=
  ∃ q' ta' tb',
    result run = Ok q'
    ∧ grid q' !! a = Some ta' ∧ grid q' !! b = Some tb'
    ∧ bond_dim ta' la = bond_dim tb' lb
    ∧ bond_dim ta' la ≤ k
    ∧ (∀ l, l ≠ la → bond_dim ta' l = bond_dim ta l)
    ∧ (∀ l, l ≠ lb → bond_dim tb' l = bond_dim tb l)
    ∧ (∀ c, c ≠ a → c ≠ b → grid q' !! c = grid q !! c).

(** The builder and the grid constructor on shapes: a two by two lattice
    of maximal rank 3. *)
Definition shaped_operators
  : dict edge (Shaped.tensor * Shaped.tensor) * dict edge (Shaped.tensor * Shaped.tensor) :=
  match build_tfi_trottered_step_operators
          (coupling default_args) (field default_args) 2 2 (tau default_args) numpy with
  | Ok ops => ops
  | Raise _ => ([], [])
  end.

Definition shaped_state : PEPS Shaped.tensor :=
  match result (peps_random 2 2 3 numpy) with
  | Ok q => q
  | Raise _ => QState ∅ numpy
  end.

Definition factors_of (ops : dict edge (Shaped.tensor * Shaped.tensor)) (e : edge)
  : Shaped.tensor * Shaped.tensor :=
  default (Shaped.MkTensor [] (Free.TExpmPauliX 0), Shaped.MkTensor [] (Free.TExpmPauliX 0))
          (dict_get ops e).

(** ** A dense implementation over the reals *)

Module Dense.
Local Open Scope R_scope.

(** A tensor is its entries; an index outside the shape reads 0. *)
Definition tensor : Type := list nat -> R.

Definition PAULI_X (i j : nat) : R :=
  match i, j with
  | 0%nat, 1%nat | 1%nat, 0%nat => 1
  | _, _ => 0
  end.

Definition PAULI_Z (i j : nat) : R :=
  match i, j with
  | 0%nat, 0%nat => 1
  | 1%nat, 1%nat => -1
  | _, _ => 0
  end.

(** [np.einsum('ij,kl->ikjl', PAULI_Z, PAULI_Z)] *)
Definition PAULI_ZZ (i k j l : nat) : R := PAULI_Z i j * PAULI_Z k l.

(** [PAULI_ZZ.reshape(4,4) * c]: row [2i+k], column [2j+l]. *)
Definition scaled_zz (c : R) (row col : nat) : R :=
  PAULI_ZZ (row / 2) (row mod 2) (col / 2) (col mod 2) * c.

(** [sla.expm] of a diagonal matrix: the exponentials of its diagonal. *)
Definition expm_diagonal (m : nat -> nat -> R) (row col : nat) : R :=
  if (row =? col)%nat then exp (m row row) else 0.

(** [sla.expm(PAULI_ZZ.reshape(4,4) * c).reshape(2,2,2,2)] *)
Definition exp_pauli_zz (c : R) : tensor := fun idx =>
  match idx with
  | [x; y; u; v] =>
      if ((x <? 2) && (y <? 2) && (u <? 2) && (v <? 2))%nat
      then expm_diagonal (scaled_zz c) (2 * x + y) (2 * u + v)
      else 0
  | _ => 0
  end.

(** [sla.expm(PAULI_X * c)], in closed form. *)
Definition exp_pauli_x (c : R) : tensor := fun idx =>
  match idx with
  | [i; j] =>
      if ((i <? 2) && (j <? 2))%nat
      then (if (i =? j)%nat then cosh c else sinh c)
      else 0
  | _ => 0
  end.

Definition dense_reshape (sh : list Z) (t : tensor) : tensor := fun idx =>
  match idx with
  | [0%nat; 0%nat; 0%nat; 0%nat; p; q] => t [p; q]
  | _ => 0
  end.

(** The four contractions of the script, by pattern. *)
Definition dense_einsum (pattern : string) (a b : tensor) : tensor := fun idx =>
  if bool_decide (pattern = "xys,s->()s()()xy") then
    match idx with [0%nat; s; 0%nat; 0%nat; x; y] => a [x; y; s] * b [s] | _ => 0 end
  else if bool_decide (pattern = "uvs,s->()()()suv") then
    match idx with [0%nat; 0%nat; 0%nat; s; u; v] => a [u; v; s] * b [s] | _ => 0 end
  else if bool_decide (pattern = "sxy,s->()()s()xy") then
    match idx with [0%nat; 0%nat; s; 0%nat; x; y] => a [s; x; y] * b [s] | _ => 0 end
  else if bool_decide (pattern = "suv,s->s()()()uv") then
    match idx with [s; 0%nat; 0%nat; 0%nat; u; v] => a [s; u; v] * b [s] | _ => 0 end
  else 0.

(** A dense backend, given its SVD routine. *)
Definition dense_backend (svd : string -> tensor -> tensor * tensor * tensor)
  : TensorBackend tensor := {|
  expm_pauli_x := exp_pauli_x;
  expm_pauli_zz := exp_pauli_zz;
  reshape := dense_reshape;
  einsvd := svd;
  einsum := dense_einsum;
  tpow t e := fun idx => powerRZ (t idx) e;
  astensor _ t := t
|}.

Definition sum4 (f : nat -> R) : R := f 0%nat + f 1%nat + f 2%nat + f 3%nat.

(** Contracting the two factors of a horizontal pair over their gate bond
    (axis 1 of the first, axis 3 of the second). *)
Definition contract_horizontal (fa fb : tensor) : tensor := fun idx =>
  match idx with
  | [x; y; u; v] => sum4 (fun s => fa [0; s; 0; 0; x; y]%nat * fb [0; 0; 0; s; u; v]%nat)
  | _ => 0
  end.

(** The same for a vertical pair (axis 2 of the first, axis 0 of the
    second). *)
Definition contract_vertical (fa fb : tensor) : tensor := fun idx =>
  match idx with
  | [x; y; u; v] => sum4 (fun s => fa [0; 0; s; 0; x; y]%nat * fb [s; 0; 0; 0; u; v]%nat)
  | _ => 0
  end.

(** The singular value decomposition of a two-site operator that is
    diagonal with positive entries, as [exp_pauli_zz] is: the singular
    values are the diagonal entries, largest first, and the singular
    vectors are the unit vectors in that order. *)
Definition descending_order (t : tensor) (s : nat) : nat :=
  if Rle_dec (t [0; 1; 0; 1]%nat) (t [0; 0; 0; 0]%nat)
  then nth s [0; 3; 1; 2]%nat 0%nat
  else nth s [1; 2; 0; 3]%nat 0%nat.

Definition unit_vector (t : tensor) (x y s : nat) : R :=
  if ((x <? 2) && (y <? 2) && (s <? 4) && (2 * x + y =? descending_order t s))%nat
  then 1 else 0.

Definition singular_value (t : tensor) (s : nat) : R :=
  if (s <? 4)%nat
  then t [(descending_order t s / 2)%nat; (descending_order t s mod 2)%nat;
          (descending_order t s / 2)%nat; (descending_order t s mod 2)%nat]
  else 0.

Definition diagonal_svd (pattern : string) (t : tensor) : tensor * tensor * tensor :=
  if bool_decide (pattern = "xyuv->xys,uvs") then
    (fun idx => match idx with [x; y; s] => unit_vector t x y s | _ => 0 end,
     fun idx => match idx with [s] => singular_value t s | _ => 0 end,
     fun idx => match idx with [u; v; s] => unit_vector t u v s | _ => 0 end)
  else
    (fun idx => match idx with [s; x; y] => unit_vector t x y s | _ => 0 end,
     fun idx => match idx with [s] => singular_value t s | _ => 0 end,
     fun idx => match idx with [s; u; v] => unit_vector t u v s | _ => 0 end).

Definition delta (i j : nat) : R := if (i =? j)%nat then 1 else 0.

Definition sum2x2 (f : nat -> nat -> R) : R :=
  f 0%nat 0%nat + f 0%nat 1%nat + f 1%nat 0%nat + f 1%nat 1%nat.

(** What makes [(U, S, V)] a singular value decomposition of the two-site
    operator [t], rows [(x,y)] and columns [(u,v)]: it reproduces [t], the
    columns of [U] and of [V] are orthonormal, and the singular values are
    non-negative and descending. *)
Definition is_svd (t : tensor) (U : nat -> nat -> nat -> R) (S : nat -> R)
    (V : nat -> nat -> nat -> R) : Prop :=
  (forall x y u v : nat, (x < 2)%nat -> (y < 2)%nat -> (u < 2)%nat -> (v < 2)%nat ->
     sum4 (fun s => U x y s * S s * V u v s) = t [x; y; u; v])
  /\ (forall s s' : nat, (s < 4)%nat -> (s' < 4)%nat ->
        sum2x2 (fun x y => U x y s * U x y s') = delta s s')
  /\ (forall s s' : nat, (s < 4)%nat -> (s' < 4)%nat ->
        sum2x2 (fun u v => V u v s * V u v s') = delta s s')
  /\ (forall s : nat, (s < 4)%nat -> 0 <= S s)
  /\ (forall s : nat, (s < 3)%nat -> S (Datatypes.S s) <= S s).

(** The factors the script makes from the two-site operator on this
    backend. *)
Definition horizontal_factors (c : R) : tensor * tensor :=
  horizontal_pair_site_operator (TB:=dense_backend diagonal_svd) (exp_pauli_zz c).

Definition vertical_factors (c : R) : tensor * tensor :=
  vertical_pair_site_operator (TB:=dense_backend diagonal_svd) (exp_pauli_zz c).

(** The factors of the script for the parts [(U, S, V)] of an SVD,
    contracted over the gate bond. *)
Definition squared_contraction (U : nat -> nat -> nat -> R) (S : nat -> R)
    (V : nat -> nat -> nat -> R) (x y u v : nat) : R :=
  sum4 (fun s => U x y s * powerRZ (S s) 2 * (V u v s * powerRZ (S s) 2)).

(** The three parts of what an SVD routine returns for the horizontal
    pattern [xyuv->xys,uvs], resp. the vertical pattern [xyuv->sxy,suv]. *)
Definition horizontal_parts (usv : tensor * tensor * tensor)
  : (nat -> nat -> nat -> R) * (nat -> R) * (nat -> nat -> nat -> R) :=
  (fun x y s => usv.1.1 [x; y; s], fun s => usv.1.2 [s], fun u v s => usv.2 [u; v; s]).

Definition vertical_parts (usv : tensor * tensor * tensor)
  : (nat -> nat -> nat -> R) * (nat -> R) * (nat -> nat -> nat -> R) :=
  (fun x y s => usv.1.1 [s; x; y], fun s => usv.1.2 [s], fun u v s => usv.2 [s; u; v]).

Definition returns_svd (t : tensor)
    (parts : (nat -> nat -> nat -> R) * (nat -> R) * (nat -> nat -> nat -> R)) : Prop :=
  is_svd t parts.1.1 parts.1.2 parts.2.

(** The factors reconstruct the operator: all its entries. *)
Definition reconstructs (contract : tensor -> tensor -> tensor)
    (factors : tensor * tensor) (t : tensor) : Prop :=
  forall x y u v : nat, (x < 2)%nat -> (y < 2)%nat -> (u < 2)%nat -> (v < 2)%nat ->
    contract factors.1 factors.2 [x; y; u; v] = t [x; y; u; v].

End Dense.

(** ** Runs that may raise *)

(** Every call of the run satisfies [P], and the value it returns, if it
    returns one, satisfies [Q]. *)
Definition sat {A} (P : event → Prop) (Q : A → Prop) (m : M A) : Prop :=
  Forall P (trace m) ∧ ∀ a, result m = Ok a → Q a.

Definition is_ctf_call (e : event) : bool :=
  match e with EvCtf _ => true | _ => false end.

(** A call that does not reach [ctf], and a state that lives on numpy. *)
Definition quiet (e : event) : Prop := is_ctf_call e = false.

Definition on_numpy {T : Type} (q : PEPS T) : Prop := qbackend q = numpy.

(** The [ctf] timers that are running after the calls of [tr], innermost
    first, when [running] were running before; [None] when [tr] stops a
    timer that is not the innermost running one. *)
Fixpoint timers_after (running : list string) (tr : list event) : option (list string) :=
  match tr with
  | [] => Some running
  | EvCtf (CtfTimerStart name) :: tr => timers_after (name :: running) tr
  | EvCtf (CtfTimerStop name) :: tr =>
      match running with
      | top :: running =>
          if bool_decide (top = name) then timers_after running tr else None
      | [] => None
      end
  | _ :: tr => timers_after running tr
  end.

(** A stretch of a trace that stops every timer it starts, in the reverse
    order, and no other. *)
Definition timers_nested (tr : list event) : Prop :=
  ∀ running, timers_after running tr = Some running.

(** How many calls of a kind a trace holds. *)
Definition count (p : event → bool) (tr : list event) : Z :=
  Z.of_nat (length (List.filter p tr)).

Definition is_contraction (e : event) : bool :=
  match e with EvContractZ => true | _ => false end.

Definition is_reduce_y (e : event) : bool :=
  match e with EvReduceY _ => true | _ => false end.

Definition is_reduce_x (e : event) : bool :=
  match e with EvReduceX _ => true | _ => false end.

Definition is_normalization (e : event) : bool :=
  match e with EvSiteNormalize => true | _ => false end.

(** ** The pair groups of a random circuit *)

Module RqcBonds.
Import Rqc.

(** Which sites start a pair of group [k]: groups 0 and 1 hold the pairs
    that join a row to the next one, by the parity of the row; groups 2
    and 3 the pairs that join a column to the next one, by the parity of
    the column. *)
Definition in_group (nrow ncol : Z) (k : nat) (ij : Z * Z) : Prop :=
  match k with
  | 0%nat => ij.1 ≠ nrow - 1 ∧ ij.1 `mod` 2 = 0
  | 1%nat => ij.1 ≠ nrow - 1 ∧ ij.1 `mod` 2 = 1
  | 2%nat => ij.2 ≠ ncol - 1 ∧ ij.2 `mod` 2 = 0
  | 3%nat => ij.2 ≠ ncol - 1 ∧ ij.2 `mod` 2 = 1
  | _ => False
  end.

Global Instance in_group_dec (nrow ncol : Z) (k : nat) (ij : Z * Z) :
  Decision (in_group nrow ncol k ij).
Proof. destruct k as [|[|[|[|k]]]]; simpl; apply _. Defined.

(** The pair of group [k] that starts at a site. *)
Definition bond (ncol : Z) (k : nat) (ij : Z * Z) : Z * Z :=
  (as_qubit ncol ij.1 ij.2,
   if (k <? 2)%nat then as_qubit ncol (ij.1 + 1) ij.2 else as_qubit ncol ij.1 (ij.2 + 1)).

Definition expected_group (nrow ncol : Z) (k : nat) : list (Z * Z) :=
  bond ncol k <$> filter (in_group nrow ncol k) (index_pairs nrow ncol).

Definition expected_pairs (nrow ncol : Z) : list (list (Z * Z)) :=
  expected_group nrow ncol <$> [0; 1; 2; 3]%nat.

(** The two-qubit gates of a layer, and the qubits some gates act on. *)
Definition two_qubit_gates (layer : list Gate) : list Gate :=
  filter (fun g => name g = the_two_qubit_gate_name) layer.

Definition one_qubit_gates (layer : list Gate) : list Gate :=
  filter (fun g => name g ∈ one_qubit_gate_names) layer.

Definition acted_on (gs : list Gate) : list Z := gs ≫= qubits.

End RqcBonds.

(** ** The output of a circuit run *)

Module RqcRunSpec.
Import Rqc RqcRun.

(** The lines of a whole run on the process of rank 0. *)
Definition layer_lines (n : nat) : list line := LayerTime <$> seq 0 n.

Definition summary_lines : list line :=
  Field <$> ["circuit.nrow"; "circuit.ncol"; "circuit.nlayer"; "circuit.seed";
             "backend.name"; "backend.nproc"; "result.statevector_time"].

(** A state vector that records how it was made: the number of qubits
    and the layers applied, first to last. *)
Record recorded := Recorded { nqubits : Z; made_on : backend_name; applied : list (list Gate) }.

Global Instance recorded_statevector : Statevector recorded := {
  computational_zeros n backend := Recorded n backend [];
  apply_circuit s layer := Recorded (nqubits s) (made_on s) (applied s ++ [layer])
}.

(** The process of rank 0, and one of another rank. *)
Definition first_process : Process := {| rank _ := 0 |}.
Definition other_process : Process := {| rank _ := 1 |}.

End RqcRunSpec.

(** * Properties *)

(** ** Index enumeration *)

Lemma elem_of_index_pairs (n m i j : Z) :
  (i, j) ∈ index_pairs n m ↔ 0 ≤ i < n ∧ 0 ≤ j < m.
Proof.
  unfold index_pairs, range. rewrite list_elem_of_bind. split.
  - intros (i' & Hj & Hi). apply list_elem_of_fmap in Hj as (j' & Heq & Hj).
    inversion Heq; subst. apply elem_of_seqZ in Hi, Hj. lia.
  - intros [Hi Hj]. exists i. split.
    + apply list_elem_of_fmap. exists j. split; [done|]. apply elem_of_seqZ. lia.
    + apply elem_of_seqZ. lia.
Qed.

Lemma index_pairs_succ_row (n : nat) (m : Z) :
  index_pairs (Z.of_nat (S n)) m
  = index_pairs (Z.of_nat n) m ++ ((fun j => (Z.of_nat n, j)) <$> range m).
Proof.
  unfold index_pairs, range. rewrite seqZ_S, bind_app. simpl.
  by rewrite app_nil_r.
Qed.

Lemma length_index_pairs (n m : Z) :
  0 ≤ n → 0 ≤ m → Z.of_nat (length (index_pairs n m)) = n * m.
Proof.
  intros Hn Hm. rewrite <- (Z2Nat.id n) by done.
  induction (Z.to_nat n) as [|k IH].
  - reflexivity.
  - rewrite index_pairs_succ_row, length_app, length_fmap.
    unfold range. rewrite length_seqZ. lia.
Qed.

(** Row-major order: the pair [(i, j)] sits at position [i * m + j]. *)
Lemma lookup_index_pairs (n m i j : Z) :
  0 ≤ i < n → 0 ≤ j < m →
  index_pairs n m !! Z.to_nat (i * m + j) = Some (i, j).
Proof.
  intros Hi Hj. rewrite <- (Z2Nat.id n) in Hi by lia.
  rewrite <- (Z2Nat.id n) by lia.
  induction (Z.to_nat n) as [|k IH]; [lia|].
  rewrite index_pairs_succ_row.
  assert (Hlen : length (index_pairs (Z.of_nat k) m) = Z.to_nat (Z.of_nat k * m)).
  { apply Nat2Z.inj. rewrite length_index_pairs, Z2Nat.id by nia. done. }
  destruct (decide (i < Z.of_nat k)) as [Hlt|Hge].
  - rewrite lookup_app_l; [apply IH; lia|]. rewrite Hlen. nia.
  - assert (i = Z.of_nat k) as -> by lia.
    rewrite lookup_app_r by (rewrite Hlen; nia).
    rewrite Hlen. replace (Z.to_nat (Z.of_nat k * m + j) - Z.to_nat (Z.of_nat k * m))%nat
      with (Z.to_nat j) by nia.
    rewrite list_lookup_fmap. unfold range. rewrite lookup_seqZ_lt by lia.
    simpl. do 2 f_equal. lia.
Qed.

Lemma ndindex_ok (n m : Z) : 0 ≤ n → 0 ≤ m → ndindex n m = Ok (index_pairs n m).
Proof. intros. unfold ndindex. rewrite bool_decide_eq_false_2; [done|lia]. Qed.

Lemma ndindex_negative (n m : Z) : n < 0 ∨ m < 0 → ndindex n m = Raise ValueError.
Proof. intros. unfold ndindex. by rewrite bool_decide_eq_true_2. Qed.

(** ** Dictionaries *)

Lemma dict_set_fresh {K V} `{EqDecision K} (d : dict K V) (k : K) (v : V) :
  k ∉ dict_keys d → dict_set d k v = d ++ [(k, v)].
Proof.
  unfold dict_keys. induction d as [|[k' v'] d IH]; intros Hk; [done|].
  simpl in *. apply not_elem_of_cons in Hk as [Hne Hk].
  rewrite decide_False by done. by rewrite IH.
Qed.

Lemma dict_get_fmap {K V X} `{EqDecision K} (key : X → K) (val : X → V)
    (xs : list X) (x : X) :
  (∀ y, y ∈ xs → key y = key x → y = x) → x ∈ xs →
  dict_get ((fun y => (key y, val y)) <$> xs) (key x) = Some (val x).
Proof.
  induction xs as [|y xs IH]; intros Hinj Hx; [by apply elem_of_nil in Hx|].
  simpl. destruct (decide (key x = key y)) as [Heq|Hne].
  - rewrite (Hinj y); [done|left|done].
  - apply elem_of_cons in Hx as [->|Hx]; [done|].
    apply IH; [|done]. intros z Hz. apply Hinj. by right.
Qed.

(** ** The operator builder in closed form *)

Section builder_props.
Context {T : Type} {TB : TensorBackend T} {ST : Sites T}.
Variables (one_site : T) (h_two_site v_two_site : T * T).

Local Abbreviation hiter := (horizontal_iteration one_site h_two_site).

Lemma expected_row_keys (i m : Z) (e : edge) :
  e ∈ dict_keys (expected_row one_site h_two_site i m) ↔ ∃ j, 0 ≤ j < m ∧ e = ((i, j), (i, j + 1)).
Proof.
  unfold dict_keys, expected_row, range. rewrite <- list_fmap_compose.
  rewrite list_elem_of_fmap. setoid_rewrite elem_of_seqZ. simpl.
  split; intros (j & ? & ?); exists j; split; (done || lia).
Qed.

Lemma expected_hoperators_keys (nrows ncols : Z) (e : edge) :
  e ∈ dict_keys (expected_hoperators one_site h_two_site nrows ncols)
  ↔ ∃ i j, 0 ≤ i < nrows ∧ 0 ≤ j < ncols - 1 ∧ e = ((i, j), (i, j + 1)).
Proof.
  unfold dict_keys, expected_hoperators. rewrite <- list_fmap_compose.
  rewrite list_elem_of_fmap. split.
  - intros ([i j] & -> & Hin). apply elem_of_index_pairs in Hin.
    exists i, j. simpl. repeat split; (done || lia).
  - intros (i & j & Hi & Hj & ->). exists (i, j). split; [done|].
    by apply elem_of_index_pairs.
Qed.

Lemma expected_hoperators_succ_row (r : nat) (ncols : Z) :
  expected_hoperators one_site h_two_site (Z.of_nat (S r)) ncols
  = expected_hoperators one_site h_two_site (Z.of_nat r) ncols ++ expected_row one_site h_two_site (Z.of_nat r) (ncols - 1).
Proof.
  unfold expected_hoperators, expected_row.
  by rewrite index_pairs_succ_row, fmap_app, <- list_fmap_compose.
Qed.

(** The first loop over one row whose sites are all still untouched. *)
Lemma horizontal_row (n : nat) (i : Z) (hops : dict edge (T * T)) (touched : gset coord) :
  (∀ j, (i, j) ∉ touched) →
  (∀ j, ((i, j), (i, j + 1)) ∉ dict_keys hops) →
  foldl hiter (hops, touched) ((fun j => (i, j)) <$> range (Z.of_nat n))
  = (hops ++ expected_row one_site h_two_site i (Z.of_nat n),
     if decide (n = 0%nat) then touched
     else touched ∪ list_to_set ((fun j => (i, j)) <$> range (Z.of_nat n + 1))).
Proof.
  intros Hrow Hkeys. induction n as [|n IH].
  - simpl. by rewrite app_nil_r.
  - unfold range in *. rewrite seqZ_S, fmap_app, foldl_app, IH. clear IH.
    unfold expected_row, expected_hfactors, range.
    rewrite seqZ_S, fmap_app, app_assoc. simpl.
    assert (Hfresh : ((i, Z.of_nat n), (i, Z.of_nat n + 1))
                     ∉ dict_keys (hops ++ expected_row one_site h_two_site i (Z.of_nat n))).
    { unfold dict_keys. rewrite fmap_app. intros [Hin|Hin]%elem_of_app.
      - by apply (Hkeys (Z.of_nat n)).
      - apply expected_row_keys in Hin as (j & Hj & Heq). inversion Heq. lia. }
    destruct n as [|n].
    + simpl. rewrite bool_decide_eq_true_2 by apply Hrow.
      rewrite bool_decide_eq_true_2.
      2:{ intros [Hin|Hin%elem_of_singleton]%elem_of_union;
            [by apply (Hrow 1)|discriminate]. }
      rewrite dict_set_fresh by exact Hfresh.
      f_equal. simpl. set_solver.
    + rewrite decide_False by done.
      replace (Z.of_nat (S (S n)) + 1) with (Z.of_nat (S (S (S n)))) by lia.
      replace (Z.of_nat (S n) + 1) with (Z.of_nat (S (S n))) by lia.
      rewrite (bool_decide_eq_false_2 (_ ∉ _)).
      2:{ intros Hn. apply Hn. apply elem_of_union. right.
          apply elem_of_list_to_set, list_elem_of_fmap.
          exists (Z.of_nat (S n)). split; [done|]. apply elem_of_seqZ. lia. }
      rewrite bool_decide_eq_true_2.
      2:{ intros [Hin|Hin]%elem_of_union; [by eapply Hrow|].
          apply elem_of_list_to_set, list_elem_of_fmap in Hin as (j & Heq & Hj).
          apply elem_of_seqZ in Hj. inversion Heq. lia. }
      rewrite dict_set_fresh by done.
      rewrite (bool_decide_eq_false_2 (Z.of_nat (S n) = 0)) by lia.
      f_equal. rewrite (seqZ_S 0 (S (S n))), fmap_app, list_to_set_app_L. simpl.
      replace (0 + Z.of_nat (S (S n))) with (Z.of_nat (S n) + 1) by lia.
      set_solver.
Qed.

Lemma horizontal_rows (r n : nat) :
  n ≠ 0%nat →
  foldl hiter ([], ∅) (index_pairs (Z.of_nat r) (Z.of_nat n))
  = (expected_hoperators one_site h_two_site (Z.of_nat r) (Z.of_nat n + 1),
     list_to_set (index_pairs (Z.of_nat r) (Z.of_nat n + 1))).
Proof.
  intros Hn. induction r as [|r IH]; [done|].
  rewrite index_pairs_succ_row, foldl_app, IH. clear IH.
  rewrite horizontal_row.
  - rewrite decide_False by done. f_equal.
    + rewrite expected_hoperators_succ_row. do 2 f_equal. lia.
    + by rewrite index_pairs_succ_row, list_to_set_app_L.
  - intros j Hin. apply elem_of_list_to_set, elem_of_index_pairs in Hin. lia.
  - intros j Hin. apply expected_hoperators_keys in Hin as (i' & j' & ? & ? & Heq).
    inversion Heq. lia.
Qed.

Lemma horizontal_loop_closed (nrows ncols : Z) :
  0 ≤ nrows → 2 ≤ ncols →
  horizontal_loop one_site h_two_site nrows ncols
  = Ok (expected_hoperators one_site h_two_site nrows ncols, list_to_set (index_pairs nrows ncols)).
Proof.
  intros Hr Hc. unfold horizontal_loop. rewrite ndindex_ok by lia. simpl.
  rewrite <- (Z2Nat.id nrows) by done.
  replace (ncols - 1) with (Z.of_nat (Z.to_nat (ncols - 1))) by lia.
  rewrite horizontal_rows by lia.
  by replace (Z.of_nat (Z.to_nat (ncols - 1)) + 1) with ncols by lia.
Qed.

Lemma index_pairs_no_columns (n : Z) : index_pairs n 0 = [].
Proof.
  unfold index_pairs, range. induction (seqZ 0 n) as [|i l IH]; [done|].
  by rewrite bind_cons, IH.
Qed.

Lemma horizontal_loop_one_column (nrows : Z) :
  0 ≤ nrows → horizontal_loop one_site h_two_site nrows 1 = Ok ([], ∅).
Proof.
  intros Hr. unfold horizontal_loop. rewrite ndindex_ok by lia. simpl.
  by rewrite index_pairs_no_columns.
Qed.

(** For every lattice with a column, the dictionary of the first loop. *)
Lemma horizontal_loop_operators (nrows ncols : Z) :
  0 ≤ nrows → 1 ≤ ncols →
  ∃ touched, horizontal_loop one_site h_two_site nrows ncols
             = Ok (expected_hoperators one_site h_two_site nrows ncols, touched).
Proof.
  intros Hr Hc. destruct (decide (ncols = 1)) as [->|Hne].
  - exists ∅. rewrite horizontal_loop_one_column by done.
    unfold expected_hoperators. simpl. by rewrite index_pairs_no_columns.
  - eexists. apply horizontal_loop_closed; lia.
Qed.

Lemma NoDup_index_pairs (n m : Z) : NoDup (index_pairs n m).
Proof.
  unfold index_pairs, range. apply NoDup_bind.
  - intros i1 i2 c _ _ (j1 & -> & _)%list_elem_of_fmap (j2 & Heq & _)%list_elem_of_fmap.
    by inversion Heq.
  - intros i _. apply NoDup_fmap_2; [|apply NoDup_seqZ]. intros j1 j2 Heq.
    by inversion Heq.
  - apply NoDup_seqZ.
Qed.

Lemma vertical_loop_closed (nrows ncols : Z) :
  1 ≤ nrows → 0 ≤ ncols →
  vertical_loop v_two_site nrows ncols = Ok (expected_voperators v_two_site nrows ncols).
Proof.
  intros Hr Hc. unfold vertical_loop, expected_voperators.
  rewrite ndindex_ok by lia. simpl. f_equal.
  pose proof (NoDup_index_pairs (nrows - 1) ncols) as Hnd.
  generalize dependent (index_pairs (nrows - 1) ncols). intros l.
  induction l as [|[i j] l IH] using rev_ind; intros Hnd; [done|].
  apply NoDup_app in Hnd as (Hl & Hdisj & _).
  rewrite foldl_app, fmap_app, IH by done. simpl.
  apply dict_set_fresh. unfold dict_keys. rewrite <- list_fmap_compose.
  intros ([i' j'] & Heq & Hin)%list_elem_of_fmap. simpl in Heq.
  inversion Heq; subst. apply (Hdisj _ Hin). left.
Qed.
End builder_props.

(** ** Runs and their traces *)

Lemma bind_runs {A B} (m : M A) (f : A → M B) a tr1 b tr2 :
  m = Run (Ok a) tr1 → f a = Run (Ok b) tr2 → m ≫= f = Run (Ok b) (tr1 ++ tr2).
Proof. intros -> Hf. unfold mbind, M_bind. simpl. by rewrite Hf. Qed.

Lemma trace_bind_Forall {A B} (P : event → Prop) (m : M A) (f : A → M B) :
  Forall P (trace m) → (∀ a, Forall P (trace (f a))) → Forall P (trace (m ≫= f)).
Proof.
  intros Hm Hf. unfold mbind, M_bind. destruct (result m); simpl; [|done].
  apply Forall_app. auto.
Qed.

Lemma trace_foldM_Forall {A B} (P : event → Prop) (f : A → B → M A) (l : list B) :
  (∀ a b, Forall P (trace (f a b))) → ∀ a, Forall P (trace (foldM f a l)).
Proof.
  intros Hf. induction l as [|b l IH]; intros a; simpl; [constructor|].
  apply trace_bind_Forall; auto.
Qed.

Lemma with_timer_trace {A} backend name (body : M A) :
  with_timer backend name body = Run (result body) (timed backend name (trace body)).
Proof.
  unfold with_timer, timed, timer_start, timer_stop, Timer_init, Timer_enter, Timer_exit.
  destruct (is_ctf backend); reflexivity.
Qed.

Lemma with_timer_runs {A} backend name (body : M A) a tr :
  body = Run (Ok a) tr → with_timer backend name body = Run (Ok a) (timed backend name tr).
Proof. intros ->. apply with_timer_trace. Qed.

Lemma with_timer_Forall {A} (P : event → Prop) backend name (body : M A) :
  P (EvEnter name) → P (EvExit name) →
  P (EvCtf (CtfTimerStart name)) → P (EvCtf (CtfTimerStop name)) →
  Forall P (trace body) → Forall P (trace (with_timer backend name body)).
Proof.
  intros ???? Hb. rewrite with_timer_trace. simpl.
  unfold timed, timer_start, timer_stop.
  destruct (is_ctf backend); repeat (apply Forall_cons; split; [done|]);
    simpl; repeat (apply Forall_app; split); auto.
Qed.

(** ** One bond update *)

Section update_props.
Context {T : Type} {ST : Sites T}.

Lemma horizontal_update_distinct (q : PEPS T) a b op_a op_b k ta tb :
  a ≠ b → grid q !! a = Some ta → grid q !! b = Some tb →
  horizontal_update q (a, b) (op_a, op_b) k
  = Run (Ok (QState (updated_grid reduce_y (grid q) a b op_a op_b k ta tb) (qbackend q)))
        (update_trace (qbackend q) (EvReduceY (ImplicitRandomizedSVD k))).
Proof.
  intros Hne Ha Hb. unfold horizontal_update.
  erewrite bind_runs; [reflexivity| |].
  - apply with_timer_runs. unfold qstate_get, call_contract_z, grid_set, lift, emit.
    unfold mbind, M_bind, mret, M_ret. simpl. rewrite Ha. simpl.
    rewrite lookup_insert_ne, Hb by done. simpl. reflexivity.
  - simpl. apply with_timer_runs.
    unfold qstate_get, call_reduce_y, grid_set, lift, emit.
    unfold mbind, M_bind, mret, M_ret. simpl.
    rewrite lookup_insert_ne, lookup_insert_eq by done. simpl.
    rewrite lookup_insert_eq. simpl.
    destruct (reduce_y _ _ _) as [ra rb] eqn:Hr. simpl.
    unfold updated_grid. by rewrite Hr.
Qed.

Lemma vertical_update_distinct (q : PEPS T) a b op_a op_b k ta tb :
  a ≠ b → grid q !! a = Some ta → grid q !! b = Some tb →
  vertical_update q (a, b) (op_a, op_b) k
  = Run (Ok (QState (updated_grid reduce_x (grid q) a b op_a op_b k ta tb) (qbackend q)))
        (update_trace (qbackend q) (EvReduceX (ImplicitRandomizedSVD k))).
Proof.
  intros Hne Ha Hb. unfold vertical_update.
  erewrite bind_runs; [reflexivity| |].
  - apply with_timer_runs. unfold qstate_get, call_contract_z, grid_set, lift, emit.
    unfold mbind, M_bind, mret, M_ret. simpl. rewrite Ha. simpl.
    rewrite lookup_insert_ne, Hb by done. simpl. reflexivity.
  - simpl. apply with_timer_runs.
    unfold qstate_get, call_reduce_x, grid_set, lift, emit.
    unfold mbind, M_bind, mret, M_ret. simpl.
    rewrite lookup_insert_ne, lookup_insert_eq by done. simpl.
    rewrite lookup_insert_eq. simpl.
    destruct (reduce_x _ _ _) as [ra rb] eqn:Hr. simpl.
    unfold updated_grid. by rewrite Hr.
Qed.

Lemma updated_grid_dom (reduce : T → T → svd_option → T * T)
    (g : gmap coord T) (a b : coord) (op_a op_b : T) (k : Z) (ta tb : T) :
  a ∈ dom g → b ∈ dom g → dom (updated_grid reduce g a b op_a op_b k ta tb) = dom g.
Proof. intros Ha Hb. unfold updated_grid. simpl. rewrite !dom_insert_L. set_solver. Qed.

Lemma updated_grid_frame (reduce : T → T → svd_option → T * T)
    (g : gmap coord T) (a b : coord) (op_a op_b : T) (k : Z) (ta tb : T) (c : coord) :
  c ≠ a → c ≠ b → updated_grid reduce g a b op_a op_b k ta tb !! c = g !! c.
Proof. intros Ha Hb. unfold updated_grid. simpl. by rewrite !lookup_insert_ne. Qed.
End update_props.

(** ** The sweep, the loop and their traces *)

Section simulation_props.
Context {T : Type} {ST : Sites T} {FC : FlopCounter}.

Lemma sweep_runs (upd : PEPS T → edge → T * T → Z → M (PEPS T))
    (reduce : T → T → svd_option → T * T) (ev : event) (k : Z) :
  (∀ q a b op_a op_b ta tb,
      a ≠ b → grid q !! a = Some ta → grid q !! b = Some tb →
      upd q (a, b) (op_a, op_b) k
      = Run (Ok (QState (updated_grid reduce (grid q) a b op_a op_b k ta tb) (qbackend q)))
            (update_trace (qbackend q) ev)) →
  ∀ (ops : dict edge (T * T)) (q : PEPS T),
    on_sites (dom (grid q)) ops →
    ∃ g', foldM (fun q item => upd q item.1 item.2 k) q ops
          = Run (Ok (QState g' (qbackend q))) (sweep_trace (qbackend q) ev (length ops))
          ∧ dom g' = dom (grid q).
Proof.
  intros Hupd ops. induction ops as [|[[a b] [op_a op_b]] ops IH]; intros q Hops.
  - exists (grid q). by destruct q.
  - apply Forall_cons in Hops as [(Hne & Ha & Hb) Hops]. simpl in *.
    apply elem_of_dom in Ha as [ta Ha]. apply elem_of_dom in Hb as [tb Hb].
    pose proof (Hupd q a b op_a op_b ta tb Hne Ha Hb) as Hstep.
    set (q1 := QState (updated_grid reduce (grid q) a b op_a op_b k ta tb) (qbackend q)) in *.
    assert (Hdom : dom (grid q1) = dom (grid q)).
    { apply updated_grid_dom; apply elem_of_dom; eauto. }
    destruct (IH q1) as (g' & Hrun & Hdom').
    { unfold on_sites. by rewrite Hdom. }
    exists g'. split; [|congruence].
    erewrite bind_runs; [reflexivity|exact Hstep|exact Hrun].
Qed.

Lemma step_runs (q : PEPS T) (hops vops : dict edge (T * T)) (k : Z) :
  on_sites (dom (grid q)) hops → on_sites (dom (grid q)) vops →
  ∃ g', apply_trottered_step_operators q hops vops k
        = Run (Ok (QState g' (qbackend q)))
              (step_trace (qbackend q) k (length hops) (length vops))
        ∧ dom g' = dom (grid q).
Proof.
  intros Hh Hv. unfold apply_trottered_step_operators, step_trace.
  destruct (sweep_runs horizontal_update reduce_y _ k
              (fun q a b op_a op_b ta tb => horizontal_update_distinct q a b op_a op_b k ta tb)
              hops q Hh) as (g1 & Hrun1 & Hdom1).
  destruct (sweep_runs vertical_update reduce_x _ k
              (fun q a b op_a op_b ta tb => vertical_update_distinct q a b op_a op_b k ta tb)
              vops (QState g1 (qbackend q))) as (g2 & Hrun2 & Hdom2).
  { simpl. unfold on_sites. by rewrite Hdom1. }
  exists g2. split; [|simpl in *; congruence].
  erewrite bind_runs; [reflexivity|exact Hrun1|exact Hrun2].
Qed.

Lemma iteration_runs (ops : dict edge (T * T) * dict edge (T * T))
    (normfreq k : Z) (q : PEPS T) (i : Z) :
  normfreq ≠ 0 →
  on_sites (dom (grid q)) ops.1 → on_sites (dom (grid q)) ops.2 →
  ∃ g', run_peps_iteration ops normfreq k q i
        = Run (Ok (QState g' (qbackend q)))
              (iteration_trace (qbackend q) k (length ops.1) (length ops.2) normfreq i)
        ∧ dom g' = dom (grid q).
Proof.
  intros Hnf Hh Hv. destruct (step_runs q _ _ k Hh Hv) as (g1 & Hrun & Hdom).
  unfold run_peps_iteration, iteration_trace.
  destruct (bool_decide ((i + 1) `mod` normfreq = 0)) eqn:Hmod.
  - exists (rescale <$> g1). split; [|by rewrite dom_fmap_L].
    erewrite bind_runs; [reflexivity|by apply with_timer_runs|].
    unfold py_mod. rewrite bool_decide_eq_false_2 by done.
    unfold lift, mbind, M_bind. simpl. by rewrite Hmod.
  - exists g1. split; [|done].
    erewrite bind_runs; [reflexivity|by apply with_timer_runs|].
    unfold py_mod. rewrite bool_decide_eq_false_2 by done.
    unfold lift, mbind, M_bind. simpl. by rewrite Hmod.
Qed.

Lemma loop_runs (ops : dict edge (T * T) * dict edge (T * T))
    (normfreq k : Z) (l : list Z) (q : PEPS T) :
  normfreq ≠ 0 →
  on_sites (dom (grid q)) ops.1 → on_sites (dom (grid q)) ops.2 →
  ∃ g', foldM (run_peps_iteration ops normfreq k) q l
        = Run (Ok (QState g' (qbackend q)))
              (i ← l; iteration_trace (qbackend q) k (length ops.1) (length ops.2) normfreq i)
        ∧ dom g' = dom (grid q).
Proof.
  intros Hnf. revert q. induction l as [|i l IH]; intros q Hh Hv.
  - exists (grid q). by destruct q.
  - destruct (iteration_runs ops normfreq k q i Hnf Hh Hv) as (g1 & Hrun1 & Hdom1).
    destruct (IH (QState g1 (qbackend q))) as (g2 & Hrun2 & Hdom2).
    { simpl. unfold on_sites. by rewrite Hdom1. }
    { simpl. unfold on_sites. by rewrite Hdom1. }
    exists g2. split; [|simpl in *; congruence].
    rewrite bind_cons. exact (bind_runs _ _ _ _ _ _ Hrun1 Hrun2).
Qed.

Lemma dom_random_grid (nrow ncol maxrank : Z) (backend : backend_name) :
  dom (grid (QState (list_to_map ((fun c => (c, random_site nrow ncol maxrank backend c))
                                    <$> index_pairs nrow ncol)) backend))
  = list_to_set (index_pairs nrow ncol).
Proof.
  simpl. rewrite dom_list_to_map_L, <- list_fmap_compose.
  f_equal. by rewrite list_fmap_id.
Qed.
End simulation_props.

(** ** The simulation loop as a whole *)

Lemma marks_app (l1 l2 : list event) : marks (l1 ++ l2) = marks l1 ++ marks l2.
Proof. apply omap_app. Qed.

Lemma marks_update_trace (backend : backend_name) (reduce : event) :
  mark_of reduce = None → marks (update_trace backend reduce) = [].
Proof.
  intros Hr. unfold update_trace, timed, timer_start, timer_stop.
  destruct (is_ctf backend); simpl; unfold marks; simpl; by rewrite Hr.
Qed.

Section run_props.
Context {T : Type} {ST : Sites T} {FC : FlopCounter}.

Lemma marks_step_trace (backend : backend_name) (k : Z) (nh nv : nat) :
  marks (step_trace backend k nh nv) = [].
Proof.
  unfold step_trace, sweep_trace. rewrite marks_app.
  assert (Hs : ∀ ev n, mark_of ev = None →
                       marks (concat (replicate n (update_trace backend ev))) = []).
  { intros ev n Hev. induction n as [|n IH]; [done|].
    change (marks (update_trace backend ev
                   ++ concat (replicate n (update_trace backend ev))) = []).
    by rewrite marks_app, IH, marks_update_trace. }
  by rewrite !Hs.
Qed.

Lemma marks_iteration_trace (backend : backend_name) (k : Z) (nh nv : nat)
    (normfreq i : Z) :
  marks (iteration_trace backend k nh nv normfreq i)
  = StepDone :: (if bool_decide ((i + 1) `mod` normfreq = 0) then [Normalized] else []).
Proof.
  unfold iteration_trace, timed. rewrite marks_app. simpl.
  change (EvEnter ?n :: ?l) with ([EvEnter n] ++ l).
  rewrite !marks_app, marks_step_trace.
  unfold timer_start, timer_stop.
  destruct (is_ctf backend), (bool_decide ((i + 1) `mod` normfreq = 0)); reflexivity.
Qed.

Lemma marks_loop_trace (backend : backend_name) (k : Z) (nh nv : nat)
    (normfreq steps : Z) :
  marks (i ← range steps; iteration_trace backend k nh nv normfreq i)
  = expected_marks steps normfreq.
Proof.
  unfold expected_marks, range.
  replace (seqZ 1 steps) with (Z.add 1 <$> seqZ 0 steps)
    by (by rewrite fmap_add_seqZ).
  rewrite list_fmap_bind.
  induction (seqZ 0 steps) as [|i l IH]; [done|].
  rewrite !bind_cons, marks_app, IH, marks_iteration_trace. simpl.
  by replace (1 + i) with (i + 1) by lia.
Qed.

(** A run whose operators sit on the lattice it creates: the result and
    the whole trace. *)
Lemma run_peps_runs (ops : dict edge (T * T) * dict edge (T * T))
    (nrow ncol steps normfreq : Z) (backend : backend_name) (threshold : R)
    (maxrank : Z) (randomized_svd : bool) :
  normfreq ≠ 0 →
  on_sites (list_to_set (index_pairs nrow ncol)) ops.1 →
  on_sites (list_to_set (index_pairs nrow ncol)) ops.2 →
  ∃ final,
    run_peps ops nrow ncol steps normfreq backend threshold maxrank randomized_svd
    = Run (Ok final)
          (ctf_prelude backend ++ [EvRandom nrow ncol maxrank backend]
           ++ ctf_reset backend
           ++ (i ← range steps;
               iteration_trace backend maxrank (length ops.1) (length ops.2) normfreq i)
           ++ ctf_postlude backend).
Proof.
  intros Hnf Hh Hv. unfold run_peps, peps_random.
  set (q0 := QState (list_to_map _) backend).
  destruct (loop_runs ops normfreq maxrank (range steps) q0 Hnf) as (g & Hloop & _).
  { unfold q0. by rewrite dom_random_grid. }
  { unfold q0. by rewrite dom_random_grid. }
  unfold ctf_prelude, ctf_reset, ctf_postlude.
  destruct (is_ctf backend); eexists.
  - unfold emit, mbind, M_bind, mret, M_ret. simpl.
    rewrite Hloop. simpl. rewrite ?app_nil_r, <- ?app_assoc. reflexivity.
  - unfold emit, mbind, M_bind, mret, M_ret. simpl.
    rewrite Hloop. simpl. rewrite ?app_nil_r, <- ?app_assoc. reflexivity.
Qed.
End run_props.

(** ** What holds of every run, successful or not *)

Section any_run.
Context {T : Type} {ST : Sites T} {FC : FlopCounter}.

Ltac trace_forall :=
  repeat match goal with
    | |- Forall _ (trace (with_timer _ _ _)) => apply with_timer_Forall
    | |- Forall _ (trace (let '(_, _) := ?p in _)) => destruct p
    | |- Forall _ (trace (_ ≫= _)) => apply trace_bind_Forall
    | |- Forall _ (trace (lift _)) => apply Forall_nil_2
    | |- Forall _ (trace (mret _)) => apply Forall_nil_2
    | |- Forall _ (trace (Run _ _)) => simpl
    | |- Forall _ [] => apply Forall_nil_2
    | |- Forall _ (_ :: _) => apply Forall_cons_2
    | |- truncates_with _ _ => first [exact I | reflexivity]
    | |- ∀ _, _ => intros
    end.

Lemma horizontal_update_truncation (q : PEPS T) (ab : edge) (ops : T * T) (k : Z) :
  Forall (truncates_with (ImplicitRandomizedSVD k)) (trace (horizontal_update q ab ops k)).
Proof.
  destruct ab as [a b], ops as [op_a op_b]. unfold horizontal_update.
  unfold qstate_get, call_contract_z, call_reduce_y, emit. trace_forall.
Qed.

Lemma vertical_update_truncation (q : PEPS T) (ab : edge) (ops : T * T) (k : Z) :
  Forall (truncates_with (ImplicitRandomizedSVD k)) (trace (vertical_update q ab ops k)).
Proof.
  destruct ab as [a b], ops as [op_a op_b]. unfold vertical_update.
  unfold qstate_get, call_contract_z, call_reduce_x, emit. trace_forall.
Qed.

Lemma step_truncation (q : PEPS T) (hops vops : dict edge (T * T)) (k : Z) :
  Forall (truncates_with (ImplicitRandomizedSVD k))
         (trace (apply_trottered_step_operators q hops vops k)).
Proof.
  unfold apply_trottered_step_operators. apply trace_bind_Forall.
  - apply trace_foldM_Forall. intros. apply horizontal_update_truncation.
  - intros. apply trace_foldM_Forall. intros. apply vertical_update_truncation.
Qed.

Lemma run_peps_truncation (ops : dict edge (T * T) * dict edge (T * T))
    (nrow ncol steps normfreq : Z) (backend : backend_name) (threshold : R)
    (maxrank : Z) (randomized_svd : bool) :
  Forall (truncates_with (ImplicitRandomizedSVD maxrank))
         (trace (run_peps ops nrow ncol steps normfreq backend threshold maxrank
                          randomized_svd)).
Proof.
  unfold run_peps, peps_random, emit.
  assert (Hloop : ∀ l q, Forall (truncates_with (ImplicitRandomizedSVD maxrank))
                           (trace (foldM (run_peps_iteration ops normfreq maxrank) q l))).
  { intros l q. apply trace_foldM_Forall. intros q' i. unfold run_peps_iteration.
    apply trace_bind_Forall.
    - apply with_timer_Forall; try exact I. apply step_truncation.
    - intros q''. apply trace_bind_Forall; [constructor|].
      intros r. destruct (bool_decide (r = 0)); unfold site_normalize, emit; trace_forall. }
  destruct (is_ctf backend); trace_forall; try apply Hloop.
Qed.

Lemma run_peps_first_call (ops : dict edge (T * T) * dict edge (T * T))
    (nrow ncol steps normfreq : Z) (backend : backend_name) (threshold : R)
    (maxrank : Z) (randomized_svd : bool) :
  ∃ rest,
    trace (run_peps ops nrow ncol steps normfreq backend threshold maxrank randomized_svd)
    = ctf_prelude backend ++ EvRandom nrow ncol maxrank backend :: rest.
Proof.
  unfold run_peps, peps_random, ctf_prelude, emit.
  destruct (is_ctf backend); unfold mbind, M_bind, mret, M_ret; simpl;
    eexists; reflexivity.
Qed.
End any_run.

(** ** The claims about the simulation loop *)

(** C8: with [steps = 0] the loop body never runs: the state returned is
    the one [peps.random] made, and apart from that constructor (and the
    [ctf] counters on a distributed backend) nothing is called: no site
    tensor is read, contracted, truncated or normalized. *)
Theorem zero_steps_returns_initial_state {T : Type} {ST : Sites T} {FC : FlopCounter}
    (ops : dict edge (T * T) * dict edge (T * T))
    (nrow ncol normfreq : Z) (backend : backend_name) (threshold : R)
    (maxrank : Z) (randomized_svd : bool) :
  let init := peps_random nrow ncol maxrank backend in
  let run := run_peps ops nrow ncol 0 normfreq backend threshold maxrank randomized_svd in
  ∃ q0, result init = Ok q0
        ∧ result run = Ok (q0, if is_ctf backend then Some (get_estimated_flops []) else None)
        ∧ trace run = ctf_prelude backend ++ trace init ++ ctf_reset backend
                      ++ ctf_postlude backend.
Proof.
  simpl. eexists. split; [reflexivity|].
  unfold run_peps, ctf_prelude, ctf_reset, ctf_postlude.
  destruct (is_ctf backend); split; reflexivity.
Qed.

(** C7: for every number of steps (so for every [steps >= 1]) and every
    [normfreq >= 1], a run whose operators sit on the lattice returns, and
    [site_normalize] is called right after each completed step whose
    1-based index is a multiple of [normfreq] and at no other time. *)
Theorem normalization_schedule {T : Type} {ST : Sites T} {FC : FlopCounter}
    (ops : dict edge (T * T) * dict edge (T * T))
    (nrow ncol steps normfreq : Z) (backend : backend_name) (threshold : R)
    (maxrank : Z) (randomized_svd : bool) :
  1 ≤ normfreq →
  on_sites (list_to_set (index_pairs nrow ncol)) ops.1 →
  on_sites (list_to_set (index_pairs nrow ncol)) ops.2 →
  let run := run_peps ops nrow ncol steps normfreq backend threshold maxrank randomized_svd in
  (∃ final, result run = Ok final)
  ∧ marks (trace run) = expected_marks steps normfreq.
Proof.
  intros Hnf Hh Hv run.
  destruct (run_peps_runs ops nrow ncol steps normfreq backend threshold maxrank
              randomized_svd) as (final & Hrun); [lia|done|done|].
  subst run. rewrite Hrun. split; [by exists final|]. cbn [trace].
  rewrite !marks_app, marks_loop_trace.
  unfold ctf_prelude, ctf_reset, ctf_postlude.
  destruct (is_ctf backend); simpl; by rewrite app_nil_r.
Qed.

Lemma normalization_schedule_witness :
  let run := run_peps (free_operators 2 2) 2 2 5 2 numpy 0 1 false in
  (∃ final, result run = Ok final)
  ∧ marks (trace run)
    = [StepDone; StepDone; Normalized; StepDone; StepDone; Normalized; StepDone].
Proof.
  apply (normalization_schedule (free_operators 2 2) 2 2 5 2 numpy 0 1 false).
  - lia.
  - refine (bool_decide_unpack _ _). vm_compute. exact I.
  - refine (bool_decide_unpack _ _). vm_compute. exact I.
Defined.

(** C1, as the code has it: whatever [randomized_svd] (and [threshold])
    say, every truncation of a run is asked for with
    [ImplicitRandomizedSVD(maxrank)], and the run is the same for both
    values of the flag; no configuration selects an exact SVD. *)
Theorem truncation_ignores_configuration {T : Type} {ST : Sites T} {FC : FlopCounter}
    (ops : dict edge (T * T) * dict edge (T * T))
    (nrow ncol steps normfreq : Z) (backend : backend_name) (threshold : R)
    (maxrank : Z) (randomized_svd : bool) :
  Forall (truncates_with (ImplicitRandomizedSVD maxrank))
         (trace (run_peps ops nrow ncol steps normfreq backend threshold maxrank
                          randomized_svd))
  ∧ run_peps ops nrow ncol steps normfreq backend threshold maxrank randomized_svd
    = run_peps ops nrow ncol steps normfreq backend threshold maxrank (negb randomized_svd).
Proof. split; [apply run_peps_truncation|reflexivity]. Qed.

(** The command line of the defaults, on a two by two lattice for one
    step: [randomized_svd] is [False] and the four truncations are
    randomized all the same. *)
Example default_run_truncations :
  List.filter is_truncation
    (trace (run_peps (free_operators 2 2) 2 2 1 10 numpy (threshold default_args) 1
                     (randomized_svd default_args)))
  = [EvReduceY (ImplicitRandomizedSVD 1); EvReduceY (ImplicitRandomizedSVD 1);
     EvReduceX (ImplicitRandomizedSVD 1); EvReduceX (ImplicitRandomizedSVD 1)].
Proof. vm_compute. reflexivity. Qed.

(** ** The calls of the operator builder *)

Section builder_run_props.
Context {T : Type} {TB : TensorBackend T} {ST : Sites T}.

Lemma call_horizontal_iteration_closed (one_site : T) (h_two_site : T * T)
    (st : hstate) (ij : Z * Z) :
  ∃ n : nat,
    call_horizontal_iteration one_site h_two_site st ij
    = Run (Ok (horizontal_iteration one_site h_two_site st ij)) (replicate n EvContractZ)
    ∧ size (horizontal_iteration one_site h_two_site st ij).2 = (size st.2 + n)%nat.
Proof.
  destruct st as [hops touched], ij as [i j].
  unfold call_horizontal_iteration, horizontal_iteration, call_contract_z, emit.
  unfold mbind, M_bind, mret, M_ret.
  case_bool_decide as Ha; cbn [result trace app];
    (case_bool_decide as Hb; cbn [result trace app fst snd]).
  - exists 2%nat. split; [reflexivity|].
    rewrite !size_union, !size_singleton by set_solver. lia.
  - exists 1%nat. split; [reflexivity|].
    rewrite !size_union, !size_singleton by set_solver. lia.
  - exists 1%nat. split; [reflexivity|].
    rewrite !size_union, !size_singleton by set_solver. lia.
  - exists 0%nat. split; [reflexivity|]. lia.
Qed.

Lemma call_horizontal_loop_closed (one_site : T) (h_two_site : T * T)
    (l : list (Z * Z)) (st : hstate) :
  ∃ n : nat,
    foldM (call_horizontal_iteration one_site h_two_site) st l
    = Run (Ok (foldl (horizontal_iteration one_site h_two_site) st l))
          (replicate n EvContractZ)
    ∧ size (foldl (horizontal_iteration one_site h_two_site) st l).2 = (size st.2 + n)%nat.
Proof.
  revert st. induction l as [|ij l IH]; intros st; simpl.
  - exists 0%nat. split; [reflexivity|lia].
  - destruct (call_horizontal_iteration_closed one_site h_two_site st ij) as (n1 & H1 & Hs1).
    destruct (IH (horizontal_iteration one_site h_two_site st ij)) as (n2 & H2 & Hs2).
    exists (n1 + n2)%nat. split; [|lia].
    rewrite (bind_runs _ _ _ _ _ _ H1 H2). by rewrite replicate_add.
Qed.

(** The builder of [main] returns or raises what the builder does, and has
    called [sites.contract_z] once per site when there are two columns. *)
Lemma call_build_closed (J h : R) (nrows ncols : Z) (tau : R) (backend : backend_name) :
  call_build_tfi_trottered_step_operators J h nrows ncols tau backend
  = Run (build_tfi_trottered_step_operators J h nrows ncols tau backend)
        (builder_trace nrows ncols).
Proof.
  unfold call_build_tfi_trottered_step_operators, build_tfi_trottered_step_operators.
  cbv zeta.
  set (one_site := one_site_operator _). set (h_two_site := horizontal_pair_site_operator _).
  set (v_two_site := vertical_pair_site_operator _).
  destruct (decide (nrows < 0 ∨ ncols - 1 < 0)) as [Hneg|Hok].
  - unfold horizontal_loop. rewrite (ndindex_negative nrows (ncols - 1)) by done.
    unfold builder_trace. rewrite bool_decide_eq_false_2 by lia. reflexivity.
  - destruct (call_horizontal_loop_closed one_site h_two_site
                (index_pairs nrows (ncols - 1)) ([], ∅)) as (n & Hrun & Hsize).
    replace (size ([], ∅).2) with 0%nat in Hsize by (symmetry; apply size_empty).
    assert (Hn : replicate n EvContractZ = builder_trace nrows ncols).
    { unfold builder_trace. case_bool_decide as Hc.
      - pose proof (horizontal_loop_closed one_site h_two_site nrows ncols) as Hloop.
        unfold horizontal_loop in Hloop. rewrite ndindex_ok in Hloop by lia.
        simpl in Hloop. specialize (Hloop ltac:(lia) ltac:(lia)).
        injection Hloop as Hloop. rewrite Hloop in Hsize. cbn [snd] in Hsize.
        rewrite size_list_to_set in Hsize by apply NoDup_index_pairs.
        rewrite <- (length_index_pairs nrows ncols) by lia.
        rewrite Nat2Z.id. f_equal. symmetry. exact Hsize.
      - assert (index_pairs nrows (ncols - 1) = []) as Hnil.
        { destruct (decide (nrows = 0)) as [->|]; [done|].
          replace (ncols - 1) with 0 by lia. apply index_pairs_no_columns. }
        rewrite Hnil in Hsize. cbn [foldl snd] in Hsize. rewrite size_empty in Hsize.
        by replace n with 0%nat by lia. }
    unfold horizontal_loop. rewrite (ndindex_ok nrows (ncols - 1)) by lia.
    unfold lift at 1. unfold mbind at 1, M_bind at 1. simpl result. simpl trace.
    unfold mbind at 1, M_bind at 1. rewrite Hrun, Hn. simpl result. simpl trace.
    unfold lift, mbind, M_bind, res_bind, mret, M_ret. simpl.
    destruct (foldl _ _ _) as [hops touched].
    destruct (vertical_loop v_two_site nrows ncols); simpl; by rewrite ?app_nil_r.
Qed.

Lemma builder_trace_Forall (P : event → Prop) (nrows ncols : Z) :
  P EvContractZ → Forall P (builder_trace nrows ncols).
Proof.
  intros HP. unfold builder_trace. case_bool_decide; [|constructor].
  apply Forall_forall. by intros e ->%elem_of_replicate_inv.
Qed.
End builder_run_props.

(** ** Configurations the entry point does not check *)

Section entry_props.
Context {T : Type} {TB : TensorBackend T} {ST : Sites T} {FC : FlopCounter}.

Lemma build_returns (J h : R) (nrows ncols : Z) (tau : R) (backend : backend_name) :
  1 ≤ nrows → 1 ≤ ncols →
  ∃ ops, build_tfi_trottered_step_operators J h nrows ncols tau backend = Ok ops.
Proof.
  intros Hr Hc. unfold build_tfi_trottered_step_operators, horizontal_loop, vertical_loop.
  rewrite !ndindex_ok by lia. simpl.
  destruct (foldl _ _ _) as [hops touched]. simpl. eauto.
Qed.

Lemma build_raises (J h : R) (nrows ncols : Z) (tau : R) (backend : backend_name) :
  nrows ≤ 0 ∨ ncols ≤ 0 →
  build_tfi_trottered_step_operators J h nrows ncols tau backend = Raise ValueError.
Proof.
  intros Hbad. unfold build_tfi_trottered_step_operators, horizontal_loop, vertical_loop.
  destruct (decide (nrows < 0 ∨ ncols - 1 < 0)) as [Hneg|Hok].
  - rewrite (ndindex_negative nrows (ncols - 1)) by done. done.
  - rewrite (ndindex_ok nrows (ncols - 1)) by lia. simpl.
    destruct (foldl _ _ _) as [hops touched]. simpl.
    rewrite ndindex_negative by lia. done.
Qed.

Lemma main_raises (a : args) :
  nrow a ≤ 0 ∨ ncol a ≤ 0 →
  main a = Run (Raise ValueError) (timed (backend a) "build_operators" []).
Proof.
  intros Hbad. unfold main. rewrite with_timer_trace, call_build_closed.
  rewrite build_raises by done. unfold builder_trace.
  rewrite bool_decide_eq_false_2 by lia. reflexivity.
Qed.

Lemma main_reaches_run_peps (a : args) :
  1 ≤ nrow a → 1 ≤ ncol a →
  ∃ ops,
    build_tfi_trottered_step_operators (coupling a) (field a) (nrow a) (ncol a)
      (tau a) (backend a) = Ok ops
    ∧ result (main a)
      = result (run_peps ops (nrow a) (ncol a) (steps a) (normfreq a) (backend a)
                  (threshold a) (maxrank a) (randomized_svd a))
    ∧ trace (main a)
      = timed (backend a) "build_operators" (builder_trace (nrow a) (ncol a))
        ++ trace (run_peps ops (nrow a) (ncol a) (steps a) (normfreq a) (backend a)
                    (threshold a) (maxrank a) (randomized_svd a)).
Proof.
  intros Hr Hc.
  destruct (build_returns (coupling a) (field a) (nrow a) (ncol a) (tau a) (backend a))
    as [ops Hops]; [done|done|].
  exists ops. split; [done|]. unfold main.
  rewrite with_timer_trace, call_build_closed, Hops.
  unfold mbind, M_bind. simpl. destruct (result (run_peps _ _ _ _ _ _ _ _ _)); done.
Qed.
End entry_props.

(** C5, as the code has it: the entry point checks nothing itself.  A
    lattice with [nrow <= 0] or [ncol <= 0] stops it with the [ValueError]
    that [np.ndindex] raises inside the operator builder, before any call
    into koala.  For a lattice with [nrow, ncol >= 1] the run is not
    stopped: inside the [build_operators] block the builder makes its calls
    of [sites.contract_z], one per site when there are two columns, and
    then [run_peps] starts by handing [maxrank], whatever it is, to
    [peps.random].  What the builder computes with the tensor backend
    before its loops is not a call into koala and no entry of a trace. *)
Theorem entry_point_checks_nothing {T : Type} {TB : TensorBackend T} {ST : Sites T}
    {FC : FlopCounter} (a : args) :
  (nrow a ≤ 0 ∨ ncol a ≤ 0 →
   result (main a) = Raise ValueError
   ∧ Forall (fun e => is_koala_call e = false) (trace (main a)))
  ∧ (1 ≤ nrow a → 1 ≤ ncol a →
     ∃ rest, trace (main a)
             = timed (backend a) "build_operators" (builder_trace (nrow a) (ncol a))
               ++ ctf_prelude (backend a)
               ++ EvRandom (nrow a) (ncol a) (maxrank a) (backend a) :: rest).
Proof.
  split.
  - intros Hbad. rewrite main_raises by done. split; [done|].
    simpl. unfold timed, timer_start, timer_stop.
    destruct (is_ctf (backend a)); repeat constructor.
  - intros Hr Hc. destruct (main_reaches_run_peps a Hr Hc) as (ops & _ & _ & ->).
    destruct (run_peps_first_call ops (nrow a) (ncol a) (steps a) (normfreq a)
                (backend a) (threshold a) (maxrank a) (randomized_svd a)) as [rest ->].
    by exists rest.
Qed.

Lemma rank_zero_is_not_rejected :
  invalid_configuration (nrow rank_zero_args) (ncol rank_zero_args) (maxrank rank_zero_args)
  ∧ EvRandom 2 2 0 numpy ∈ trace (main (T:=Free.term) rank_zero_args)
  ∧ ¬ fails_fast (main (T:=Free.term) rank_zero_args).
Proof.
  assert (Hcall : EvRandom 2 2 0 numpy ∈ trace (main (T:=Free.term) rank_zero_args)).
  { vm_compute. do 6 right. left. }
  split; [|split].
  - right. right. reflexivity.
  - exact Hcall.
  - intros [_ Hall]. rewrite Forall_forall in Hall.
    specialize (Hall _ Hcall). discriminate Hall.
Qed.

Lemma entry_point_checks_nothing_witness :
  (result (main (T:=Free.term) (Args 0 3 1 (2 / 10) 1 (1 / 100) 10 numpy (1 / 100000) 1 false))
   = Raise ValueError
   ∧ Forall (fun e => is_koala_call e = false)
       (trace (main (T:=Free.term)
                 (Args 0 3 1 (2 / 10) 1 (1 / 100) 10 numpy (1 / 100000) 1 false))))
  ∧ ∃ rest, trace (main (T:=Free.term) rank_zero_args)
            = [EvEnter "build_operators"; EvContractZ; EvContractZ; EvContractZ;
               EvContractZ; EvExit "build_operators"; EvRandom 2 2 0 numpy] ++ rest.
Proof.
  split.
  - apply (entry_point_checks_nothing
             (Args 0 3 1 (2 / 10) 1 (1 / 100) 10 numpy (1 / 100000) 1 false)).
    left. simpl. lia.
  - apply (entry_point_checks_nothing rank_zero_args); simpl; lia.
Defined.

(** ** The claims about the operator builder and the edge order *)

Lemma fmap_bind_singleton {A B} (f : A → B) (l : list A) :
  (x ← l; [f x]) = f <$> l.
Proof. induction l as [|x l IH]; [done|]. by rewrite bind_cons, IH. Qed.

Lemma fmap_list_bind {A B C} (f : B → C) (g : A → list B) (l : list A) :
  f <$> (l ≫= g) = l ≫= (fun x => f <$> g x).
Proof.
  induction l as [|x l IH]; [done|]. by rewrite !bind_cons, fmap_app, IH.
Qed.

Lemma spec_horizontal_edges_index_pairs (R C : Z) :
  spec_horizontal_edges R C
  = (fun ij : Z * Z => (ij, (ij.1, ij.2 + 1))) <$> index_pairs R (C - 1).
Proof.
  unfold spec_horizontal_edges, index_pairs, range. rewrite fmap_list_bind.
  apply list_bind_ext; [|done]. intros i.
  by rewrite <- list_fmap_compose, fmap_bind_singleton.
Qed.

Lemma spec_vertical_edges_index_pairs (R C : Z) :
  spec_vertical_edges R C
  = (fun ij : Z * Z => (ij, (ij.1 + 1, ij.2))) <$> index_pairs (R - 1) C.
Proof.
  unfold spec_vertical_edges, index_pairs, range. rewrite fmap_list_bind.
  apply list_bind_ext; [|done]. intros i.
  by rewrite <- list_fmap_compose, fmap_bind_singleton.
Qed.

Lemma M_bind_ext {A B} (m : M A) (f g : A → M B) :
  (∀ a, f a = g a) → m ≫= f = m ≫= g.
Proof. intros Hfg. unfold mbind, M_bind. destruct (result m); by rewrite ?Hfg. Qed.

Lemma foldM_fmap {A B C} (f : A → B → M A) (g : C → B) (a : A) (l : list C) :
  foldM f a (g <$> l) = foldM (fun a x => f a (g x)) a l.
Proof.
  revert a. induction l as [|x l IH]; intros a; [done|]. simpl.
  apply M_bind_ext. intros a'. apply IH.
Qed.

Section build_props.
Context {T : Type} {TB : TensorBackend T} {ST : Sites T}.

Lemma build_closed (J h : R) (nrows ncols : Z) (tau : R) (backend : backend_name) :
  1 ≤ nrows → 1 ≤ ncols →
  build_tfi_trottered_step_operators J h nrows ncols tau backend
  = Ok (to_backend backend
          (expected_hoperators (one_site_operator (expm_pauli_x (h * tau)%R))
             (horizontal_pair_site_operator (expm_pauli_zz (J * tau)%R)) nrows ncols),
        to_backend backend
          (expected_voperators (vertical_pair_site_operator (expm_pauli_zz (J * tau)%R))
             nrows ncols)).
Proof.
  intros Hr Hc. unfold build_tfi_trottered_step_operators.
  destruct (horizontal_loop_operators
              (one_site_operator (expm_pauli_x (h * tau)%R))
              (horizontal_pair_site_operator (expm_pauli_zz (J * tau)%R))
              nrows ncols) as [touched ->]; [lia|lia|].
  rewrite vertical_loop_closed by lia. reflexivity.
Qed.

Lemma to_backend_keys (backend : backend_name) (d : dict edge (T * T)) :
  dict_keys (to_backend backend d) = dict_keys d.
Proof.
  unfold dict_keys, to_backend. rewrite <- list_fmap_compose.
  apply list_fmap_ext. by intros _ [e [a b]] _.
Qed.
End build_props.

(** C6: on an [nrows] by [ncols] lattice (both at least 1) the enumerator
    yields the horizontal edges [((i,j),(i,j+1))] and then the vertical
    edges [((i,j),(i+1,j))] of the specification, row-major (the edge that
    starts at [(i,j)] is at position [i*(ncols-1)+j], resp. [i*ncols+j]);
    the dictionaries of the builder have these keys in this order, and one
    Trotter step is the bond update of every horizontal edge in this order
    with its horizontal factors, followed by the bond update of every
    vertical edge in this order with its vertical factors. *)
Theorem edge_order {T : Type} {TB : TensorBackend T} {ST : Sites T}
    (J h : R) (nrows ncols : Z) (tau : R) (backend : backend_name) :
  1 ≤ nrows → 1 ≤ ncols →
  horizontal_links nrows ncols = Ok (spec_horizontal_edges nrows ncols)
  ∧ vertical_links nrows ncols = Ok (spec_vertical_edges nrows ncols)
  ∧ (∀ i j, 0 ≤ i < nrows → 0 ≤ j < ncols - 1 →
       spec_horizontal_edges nrows ncols !! Z.to_nat (i * (ncols - 1) + j)
       = Some ((i, j), (i, j + 1)))
  ∧ (∀ i j, 0 ≤ i < nrows - 1 → 0 ≤ j < ncols →
       spec_vertical_edges nrows ncols !! Z.to_nat (i * ncols + j)
       = Some ((i, j), (i + 1, j)))
  ∧ Z.of_nat (length (spec_horizontal_edges nrows ncols)) = nrows * (ncols - 1)
  ∧ Z.of_nat (length (spec_vertical_edges nrows ncols)) = (nrows - 1) * ncols
  ∧ ∃ hoperators voperators (hfactors vfactors : edge → T * T),
      build_tfi_trottered_step_operators J h nrows ncols tau backend
      = Ok (hoperators, voperators)
      ∧ hoperators = (fun e => (e, hfactors e)) <$> spec_horizontal_edges nrows ncols
      ∧ voperators = (fun e => (e, vfactors e)) <$> spec_vertical_edges nrows ncols
      ∧ ∀ (qstate : PEPS T) (maxrank : Z),
          apply_trottered_step_operators qstate hoperators voperators maxrank
          = (qstate ← foldM (fun q e => horizontal_update q e (hfactors e) maxrank)
                            qstate (spec_horizontal_edges nrows ncols);
             foldM (fun q e => vertical_update q e (vfactors e) maxrank)
                   qstate (spec_vertical_edges nrows ncols)).
Proof.
  intros Hr Hc.
  rewrite spec_horizontal_edges_index_pairs, spec_vertical_edges_index_pairs.
  split; [|split; [|split; [|split; [|split; [|split]]]]].
  - unfold horizontal_links. rewrite ndindex_ok by lia. simpl. f_equal.
    apply list_fmap_ext. by intros _ [i j] _.
  - unfold vertical_links. rewrite ndindex_ok by lia. simpl. f_equal.
    apply list_fmap_ext. by intros _ [i j] _.
  - intros i j Hi Hj. by rewrite list_lookup_fmap, lookup_index_pairs.
  - intros i j Hi Hj. by rewrite list_lookup_fmap, lookup_index_pairs by lia.
  - rewrite length_fmap. apply length_index_pairs; lia.
  - rewrite length_fmap. apply length_index_pairs; lia.
  - set (one_site := one_site_operator (expm_pauli_x (h * tau)%R)).
    set (h2 := horizontal_pair_site_operator (expm_pauli_zz (J * tau)%R)).
    set (v2 := vertical_pair_site_operator (expm_pauli_zz (J * tau)%R)).
    exists (to_backend backend (expected_hoperators one_site h2 nrows ncols)),
           (to_backend backend (expected_voperators v2 nrows ncols)),
           (fun e => (astensor backend (expected_hfactors one_site h2 e.1.2).1,
                      astensor backend (expected_hfactors one_site h2 e.1.2).2)),
           (fun _ => (astensor backend v2.1, astensor backend v2.2)).
    assert (Hh : to_backend backend (expected_hoperators one_site h2 nrows ncols)
                 = (fun e : edge =>
                      (e, (astensor backend (expected_hfactors one_site h2 e.1.2).1,
                           astensor backend (expected_hfactors one_site h2 e.1.2).2)))
                     <$> ((fun ij : Z * Z => (ij, (ij.1, ij.2 + 1)))
                            <$> index_pairs nrows (ncols - 1))).
    { unfold to_backend, expected_hoperators. rewrite <- !list_fmap_compose.
      apply list_fmap_ext. intros _ [i j] _. simpl.
      by destruct (expected_hfactors one_site h2 j). }
    assert (Hv : to_backend backend (expected_voperators v2 nrows ncols)
                 = (fun e : edge => (e, (astensor backend v2.1, astensor backend v2.2)))
                     <$> ((fun ij : Z * Z => (ij, (ij.1 + 1, ij.2)))
                            <$> index_pairs (nrows - 1) ncols)).
    { unfold to_backend, expected_voperators. rewrite <- !list_fmap_compose.
      apply list_fmap_ext. by intros _ [i j] _. }
    split; [by apply build_closed|]. split; [exact Hh|]. split; [exact Hv|].
    intros qstate maxrank. unfold apply_trottered_step_operators.
    rewrite Hh, Hv, foldM_fmap. apply M_bind_ext. intros q. by rewrite foldM_fmap.
Qed.

Lemma edge_order_witness :
  horizontal_links 2 3
  = Ok [((0, 0), (0, 1)); ((0, 1), (0, 2)); ((1, 0), (1, 1)); ((1, 1), (1, 2))]
  ∧ vertical_links 2 3 = Ok [((0, 0), (1, 0)); ((0, 1), (1, 1)); ((0, 2), (1, 2))].
Proof.
  destruct (edge_order (T:=Free.term) 1 1 2 3 1 numpy) as (Hh & Hv & _); [lia|lia|].
  split; [exact Hh|exact Hv].
Defined.

(** C9: on a lattice with [nrows >= 1] and [ncols >= 2], the horizontal map
    the builder returns holds, for the leftmost edge of every row, the
    single-site operator contracted into both factors and, for every other
    horizontal edge, into the second factor only; every vertical pair is
    the vertical factorization as it is (each factor moved to the target
    backend, as all returned factors are). *)
Theorem field_term_placement {T : Type} {TB : TensorBackend T} {ST : Sites T}
    (J h : R) (nrows ncols : Z) (tau : R) (backend : backend_name) :
  1 ≤ nrows → 2 ≤ ncols →
  let one_site := one_site_operator (expm_pauli_x (h * tau)%R) in
  let h_two_site := horizontal_pair_site_operator (expm_pauli_zz (J * tau)%R) in
  let v_two_site := vertical_pair_site_operator (expm_pauli_zz (J * tau)%R) in
  ∃ hoperators voperators,
    build_tfi_trottered_step_operators J h nrows ncols tau backend
    = Ok (hoperators, voperators)
    ∧ dict_keys hoperators = spec_horizontal_edges nrows ncols
    ∧ dict_keys voperators = spec_vertical_edges nrows ncols
    ∧ (∀ i, 0 ≤ i < nrows →
         dict_get hoperators ((i, 0), (i, 1))
         = Some (astensor backend (contract_z one_site h_two_site.1),
                 astensor backend (contract_z one_site h_two_site.2)))
    ∧ (∀ i j, 0 ≤ i < nrows → 1 ≤ j < ncols - 1 →
         dict_get hoperators ((i, j), (i, j + 1))
         = Some (astensor backend h_two_site.1,
                 astensor backend (contract_z one_site h_two_site.2)))
    ∧ (∀ e f, (e, f) ∈ voperators →
         f = (astensor backend v_two_site.1, astensor backend v_two_site.2)).
Proof.
  intros Hr Hc one_site h2 v2.
  exists (to_backend backend (expected_hoperators one_site h2 nrows ncols)),
         (to_backend backend (expected_voperators v2 nrows ncols)).
  assert (Hget : ∀ i j, 0 ≤ i < nrows → 0 ≤ j < ncols - 1 →
            dict_get (to_backend backend (expected_hoperators one_site h2 nrows ncols))
                     ((i, j), (i, j + 1))
            = Some (astensor backend (expected_hfactors one_site h2 j).1,
                    astensor backend (expected_hfactors one_site h2 j).2)).
  { intros i j Hi Hj. unfold to_backend, expected_hoperators.
    rewrite <- list_fmap_compose.
    transitivity
      (dict_get ((fun ij : Z * Z =>
                    ((ij, (ij.1, ij.2 + 1)),
                     (astensor backend (expected_hfactors one_site h2 ij.2).1,
                      astensor backend (expected_hfactors one_site h2 ij.2).2)))
                   <$> index_pairs nrows (ncols - 1)) ((i, j), (i, j + 1))).
    { reflexivity. }
    apply (dict_get_fmap (fun ij : Z * Z => (ij, (ij.1, ij.2 + 1)))
             (fun ij : Z * Z =>
                (astensor backend (expected_hfactors one_site h2 ij.2).1,
                 astensor backend (expected_hfactors one_site h2 ij.2).2))
             _ (i, j)).
    - intros [i' j'] _ Heq. by inversion Heq.
    - by apply elem_of_index_pairs. }
  split; [apply build_closed; lia|].
  split; [by rewrite to_backend_keys, spec_horizontal_edges_index_pairs;
          unfold dict_keys, expected_hoperators; rewrite <- list_fmap_compose|].
  split; [by rewrite to_backend_keys, spec_vertical_edges_index_pairs;
          unfold dict_keys, expected_voperators; rewrite <- list_fmap_compose|].
  split; [|split].
  - intros i Hi. exact (Hget i 0 Hi ltac:(lia)).
  - intros i j Hi Hj. rewrite (Hget i j) by lia. unfold expected_hfactors.
    by rewrite bool_decide_eq_false_2 by lia.
  - intros e f Hin. unfold to_backend, expected_voperators in Hin.
    rewrite <- list_fmap_compose in Hin.
    apply list_elem_of_fmap in Hin as ([i j] & Heq & _). simpl in Heq. congruence.
Qed.

Lemma field_term_placement_witness :
  ∃ hoperators voperators,
    build_tfi_trottered_step_operators (T:=Free.term) 1 (2 / 10) 2 3 (1 / 100) numpy
    = Ok (hoperators, voperators)
    ∧ (Free.has_field_term <$> (hoperators.*2).*1) = [true; false; true; false]
    ∧ (Free.has_field_term <$> (hoperators.*2).*2) = [true; true; true; true].
Proof.
  destruct (field_term_placement (T:=Free.term) 1 (2 / 10) 2 3 (1 / 100) numpy)
    as (hops & vops & Hbuild & _); [lia|lia|].
  exists hops, vops. split; [exact Hbuild|].
  vm_compute in Hbuild. injection Hbuild as <- <-. split; reflexivity.
Defined.

Lemma sum_list_fmap_zero {A} (w : A → nat) (l : list A) :
  (∀ x, x ∈ l → w x = 0%nat) → sum_list (w <$> l) = 0%nat.
Proof.
  induction l as [|x l IH]; intros Hw; [done|]. csimpl.
  rewrite (Hw x) by left. rewrite IH; [done|]. intros y Hy. apply Hw. by right.
Qed.

Lemma sum_list_fmap_single {A} (w : A → nat) (l : list A) (x0 : A) :
  NoDup l → x0 ∈ l → (∀ x, x ∈ l → x ≠ x0 → w x = 0%nat) →
  sum_list (w <$> l) = w x0.
Proof.
  induction l as [|x l IH]; intros Hnd Hin Hw; [by apply elem_of_nil in Hin|].
  apply NoDup_cons in Hnd as [Hx Hnd]. csimpl.
  apply elem_of_cons in Hin as [->|Hin].
  - rewrite sum_list_fmap_zero; [lia|]. intros y Hy. apply Hw; [by right|].
    intros ->. done.
  - rewrite (Hw x); [|left|by intros ->]. rewrite IH; [done|done|done|].
    intros y Hy. apply Hw. by right.
Qed.

(** The number of field terms per site in the dictionary of the first loop. *)
Lemma field_count_expected (ch cj : R) (nrows ncols : Z) (c : coord) :
  2 ≤ ncols →
  field_count
    (expected_hoperators (one_site_operator (expm_pauli_x ch))
       (horizontal_pair_site_operator (expm_pauli_zz cj)) nrows ncols) c
  = if bool_decide (c ∈ index_pairs nrows ncols) then 1%nat else 0%nat.
Proof.
  intros Hc. destruct c as [ci cj'].
  unfold field_count, expected_hoperators. rewrite <- list_fmap_compose.
  set (w := (_ ∘ _)).
  assert (Hw : ∀ i j, w (i, j)
                      = ((if bool_decide ((i, j) = (ci, cj')) && bool_decide (j = 0%Z)
                          then 1 else 0)
                         + (if bool_decide ((i, (j + 1)%Z) = (ci, cj')) then 1 else 0))%nat).
  { intros i j. unfold w, expected_hfactors. simpl.
    destruct (bool_decide (j = 0)); simpl; by rewrite !andb_true_r || rewrite !andb_false_r. }
  case_bool_decide as Hin.
  - apply elem_of_index_pairs in Hin as [Hi Hj].
    destruct (decide (cj' = 0)) as [->|Hne].
    + rewrite (sum_list_fmap_single w _ (ci, 0)).
      * rewrite Hw. rewrite !bool_decide_eq_true_2 by done.
        by rewrite bool_decide_eq_false_2 by (intros Heq; inversion Heq).
      * apply NoDup_index_pairs.
      * apply elem_of_index_pairs. lia.
      * intros [i j] Hij%elem_of_index_pairs Hne. rewrite Hw.
        rewrite (bool_decide_eq_false_2 ((i, j) = (ci, 0))) by done.
        by rewrite (bool_decide_eq_false_2 ((i, j + 1) = _))
          by (intros Heq; inversion Heq; lia).
    + rewrite (sum_list_fmap_single w _ (ci, cj' - 1)).
      * rewrite Hw.
        rewrite (bool_decide_eq_false_2 (_ = (ci, cj'))) by (intros Heq; inversion Heq; lia).
        rewrite (bool_decide_eq_true_2 ((ci, cj' - 1 + 1) = (ci, cj'))); [done|].
        f_equal. lia.
      * apply NoDup_index_pairs.
      * apply elem_of_index_pairs. lia.
      * intros [i j] Hij%elem_of_index_pairs Hne'. rewrite Hw.
        destruct (bool_decide (j = 0)) eqn:Hj0.
        -- apply bool_decide_eq_true_1 in Hj0 as ->.
           rewrite (bool_decide_eq_false_2 ((i, 0) = _)) by (intros Heq; inversion Heq; lia).
           rewrite (bool_decide_eq_false_2 ((i, 0 + 1) = _)); [done|].
           intros Heq. inversion Heq; subst. apply Hne'. f_equal.
        -- rewrite andb_false_r.
           rewrite (bool_decide_eq_false_2 ((i, j + 1) = _)); [done|].
           intros Heq. inversion Heq; subst. apply Hne'. f_equal. lia.
  - apply sum_list_fmap_zero. intros [i j] Hij%elem_of_index_pairs. rewrite Hw.
    rewrite (bool_decide_eq_false_2 ((i, j) = _)).
    2:{ intros Heq. inversion Heq; subst. apply Hin, elem_of_index_pairs. lia. }
    rewrite (bool_decide_eq_false_2 ((i, j + 1) = _)); [done|].
    intros Heq. inversion Heq; subst. apply Hin, elem_of_index_pairs. lia.
Qed.

(** C3: for [ncols >= 2] the first loop of the builder leaves exactly the
    sites of the lattice in [touched_sites], and the single-site operator
    is contracted into exactly one stored factor per site of the lattice
    (and into none for any other coordinate); for [ncols = 1] the loop
    stores nothing and visits nothing, and no factor the builder returns
    carries the single-site operator. *)
Theorem field_term_coverage (J h : R) (nrows ncols : Z) (tau : R) (backend : backend_name) :
  0 ≤ nrows →
  let one_site := one_site_operator (T:=Free.term) (expm_pauli_x (h * tau)%R) in
  let h_two_site := horizontal_pair_site_operator (expm_pauli_zz (J * tau)%R) in
  (2 ≤ ncols →
   ∃ hoperators touched_sites,
     horizontal_loop one_site h_two_site nrows ncols = Ok (hoperators, touched_sites)
     ∧ (∀ c, c ∈ touched_sites ↔ c ∈ index_pairs nrows ncols)
     ∧ (∀ c, c ∈ index_pairs nrows ncols → field_count hoperators c = 1%nat)
     ∧ (∀ c, c ∉ index_pairs nrows ncols → field_count hoperators c = 0%nat))
  ∧ (ncols = 1 →
     horizontal_loop one_site h_two_site nrows ncols = Ok ([], ∅)
     ∧ (1 ≤ nrows →
        ∃ voperators,
          build_tfi_trottered_step_operators J h nrows ncols tau backend
          = Ok ([], voperators)
          ∧ ∀ c, field_count voperators c = 0%nat)).
Proof.
  intros Hr one_site h2. split.
  - intros Hc. eexists _, _. split; [by apply horizontal_loop_closed|].
    split; [|split].
    + intros c. apply elem_of_list_to_set.
    + intros c Hin. unfold one_site, h2. rewrite field_count_expected by done.
      by rewrite bool_decide_eq_true_2.
    + intros c Hin. unfold one_site, h2. rewrite field_count_expected by done.
      by rewrite bool_decide_eq_false_2.
  - intros ->. split; [by apply horizontal_loop_one_column|].
    intros Hr1. eexists. rewrite build_closed by lia. split.
    + unfold expected_hoperators. simpl. by rewrite index_pairs_no_columns.
    + intros c. unfold field_count, to_backend, expected_voperators.
      rewrite <- !list_fmap_compose. apply sum_list_fmap_zero.
      intros [i j] _. simpl. by rewrite !andb_false_r.
Qed.

Lemma field_term_coverage_witness :
  (∃ hoperators touched_sites,
     horizontal_loop (one_site_operator (T:=Free.term) (expm_pauli_x (2 / 10 * (1 / 100))%R))
       (horizontal_pair_site_operator (expm_pauli_zz (1 * (1 / 100))%R)) 2 3
     = Ok (hoperators, touched_sites)
     ∧ (∀ c, c ∈ touched_sites ↔ c ∈ index_pairs 2 3)
     ∧ (∀ c, c ∈ index_pairs 2 3 → field_count hoperators c = 1%nat)
     ∧ (∀ c, c ∉ index_pairs 2 3 → field_count hoperators c = 0%nat))
  ∧ horizontal_loop (one_site_operator (T:=Free.term) (expm_pauli_x (2 / 10 * (1 / 100))%R))
      (horizontal_pair_site_operator (expm_pauli_zz (1 * (1 / 100))%R)) 4 1
    = Ok ([], ∅).
Proof.
  split.
  - apply (field_term_coverage 1 (2 / 10) 2 3 (1 / 100) numpy); lia.
  - apply (field_term_coverage 1 (2 / 10) 4 1 (1 / 100) numpy); [lia|reflexivity].
Defined.

(** ** The random circuit generator *)

Module RqcProps.
Import Rqc RqcSpec.

Lemma foldR_app {A B} (f : A → B → res A) (a : A) (l1 l2 : list B) :
  foldR f a (l1 ++ l2) = foldR f a l1 ≫= fun a' => foldR f a' l2.
Proof.
  revert a. induction l1 as [|b l1 IH]; intros a; [done|]. simpl.
  destruct (f a b) as [a'|e]; simpl; [apply IH|done].
Qed.

Lemma add_two_qubit_gates_app (group : list (Z * Z)) (layer : list Gate) :
  add_two_qubit_gates group layer = layer ++ iswap_gates group.
Proof.
  unfold add_two_qubit_gates, iswap_gates. revert layer.
  induction group as [|[i j] group IH]; intros layer; simpl.
  - by rewrite app_nil_r.
  - by rewrite IH, <- app_assoc.
Qed.

Section generator_props.
Context {G : Type} {RS : RandomState G}.

Lemma choice_elem (rand_state : G) (a : list string) :
  a ≠ [] → ∃ name rand_state', choice rand_state a = Ok (name, rand_state') ∧ name ∈ a.
Proof.
  intros Ha. destruct a as [|x a]; [done|]. unfold choice.
  destruct (randint rand_state (length (x :: a))) as [k rs'].
  eexists _, _. split; [reflexivity|].
  apply list_elem_of_In, nth_In. apply Nat.mod_upper_bound. simpl. lia.
Qed.

Lemma candidates_nonempty (prev : option string) :
  filter (fun n => Some n ≠ prev) one_qubit_gate_names ≠ [].
Proof.
  unfold one_qubit_gate_names.
  destruct (decide (Some "sqrtX" ≠ prev)) as [Hx|Hx].
  - by rewrite filter_cons_True.
  - rewrite filter_cons_False by done. apply dec_stable in Hx. subst prev.
    by rewrite filter_cons_True.
Qed.

Lemma one_qubit_iteration_ok (rand_state : G) (previous_gate : list (option string))
    (layer : list Gate) (i : nat) (prev : option string) :
  previous_gate !! i = Some prev →
  ∃ name rand_state',
    one_qubit_iteration (rand_state, previous_gate, layer) (Z.of_nat i)
    = Ok (rand_state', <[i := Some name]> previous_gate,
          layer ++ [MkGate name [] [Z.of_nat i]])
    ∧ name ∈ one_qubit_gate_names ∧ Some name ≠ prev.
Proof.
  intros Hprev. unfold one_qubit_iteration, index. rewrite Nat2Z.id, Hprev. simpl.
  destruct (choice_elem rand_state _ (candidates_nonempty prev))
    as (name & rs' & -> & Hin).
  apply list_elem_of_filter in Hin as [Hne Hin]. simpl. eauto.
Qed.

(** The loop of [add_one_qubit_gates] over the first [m] qubits. *)
Lemma add_one_qubit_gates_prefix (m : nat) (rand_state : G)
    (previous_gate : list (option string)) (layer : list Gate) :
  (m ≤ length previous_gate)%nat →
  ∃ rand_state' next singles,
    add_one_qubit_gates (range (Z.of_nat m)) (rand_state, previous_gate, layer)
    = Ok (rand_state', next, layer ++ singles)
    ∧ length singles = m
    ∧ length next = length previous_gate
    ∧ (∀ q, (m ≤ q)%nat → next !! q = previous_gate !! q)
    ∧ ∀ (q : nat) (g : Gate), singles !! q = Some g →
        qubits g = [Z.of_nat q] ∧ parameters g = []
        ∧ name g ∈ one_qubit_gate_names
        ∧ previous_gate !! q ≠ Some (Some (name g))
        ∧ next !! q = Some (Some (name g)).
Proof.
  unfold add_one_qubit_gates, range. induction m as [|m IH]; intros Hm.
  - exists rand_state, previous_gate, []. rewrite app_nil_r.
    repeat split; done.
  - destruct IH as (rs1 & next1 & singles1 & Hrun & Hlen & Hlen' & Hrest & Hgates); [lia|].
    rewrite seqZ_S, foldR_app, Hrun. cbn [mbind res_bind foldR].
    rewrite Z.add_0_l.
    destruct (lookup_lt_is_Some_2 next1 m) as [prev Hprev]; [lia|].
    destruct (one_qubit_iteration_ok rs1 next1 (layer ++ singles1) m prev Hprev)
      as (name & rs2 & Hstep & Hname & Hne).
    rewrite Hstep. cbn [mbind res_bind].
    exists rs2, (<[m := Some name]> next1), (singles1 ++ [MkGate name [] [Z.of_nat m]]).
    rewrite app_assoc. split; [done|].
    split; [rewrite length_app; simpl; lia|].
    split; [by rewrite length_insert|].
    split.
    + intros q Hq. rewrite list_lookup_insert_ne by lia. apply Hrest. lia.
    + intros q g Hq. destruct (decide (q < m)%nat) as [Hlt|Hge].
      * rewrite lookup_app_l in Hq by lia.
        destruct (Hgates q g Hq) as (? & ? & ? & ? & ?).
        repeat split; try done. by rewrite list_lookup_insert_ne by lia.
      * rewrite lookup_app_r in Hq by lia. rewrite Hlen in Hq.
        destruct (q - m)%nat as [|d] eqn:Hd; [|by rewrite lookup_cons_ne_0, lookup_nil in Hq].
        assert (q = m) as -> by lia. simpl in Hq. inversion Hq; subst g. simpl.
        repeat split; try done.
        -- rewrite <- (Hrest m) by lia. rewrite Hprev. congruence.
        -- apply list_lookup_insert_eq. lia.
Qed.

Lemma add_one_qubit_gates_ok (rand_state : G) (previous_gate : list (option string)) :
  ∃ rand_state' next singles,
    add_one_qubit_gates (range (Z.of_nat (length previous_gate)))
                        (rand_state, previous_gate, [])
    = Ok (rand_state', next, singles)
    ∧ singles_ok previous_gate singles next.
Proof.
  destruct (add_one_qubit_gates_prefix (length previous_gate) rand_state previous_gate [])
    as (rs' & next & singles & Hrun & Hlen & Hlen' & _ & Hgates); [done|].
  exists rs', next, singles. split; [done|]. unfold singles_ok. auto.
Qed.
Lemma pattern_lookup (k : Z) :
  0 ≤ k < 8 → ∃ p, pattern !! Z.to_nat k = Some p ∧ 0 ≤ p < 4.
Proof.
  intros Hk. assert (Hcases : k = 0 ∨ k = 1 ∨ k = 2 ∨ k = 3 ∨ k = 4 ∨ k = 5 ∨ k = 6 ∨ k = 7)
    by lia.
  destruct Hcases as [->|[->|[->|[->|[->|[->|[->| ->]]]]]]];
    eexists; (split; [reflexivity|lia]).
Qed.

Lemma pairs_iteration_length (nrow ncol : Z) (pairs : list (list (Z * Z))) (ij : Z * Z) :
  length (pairs_iteration nrow ncol pairs ij) = length pairs.
Proof.
  destruct ij as [i j]. unfold pairs_iteration.
  repeat case_bool_decide; by rewrite ?length_alter.
Qed.

Lemma make_pairs_ok (nrow ncol : Z) :
  0 ≤ nrow → 0 ≤ ncol →
  ∃ pairs, make_pairs nrow ncol = Ok pairs ∧ length pairs = 4%nat.
Proof.
  intros Hr Hc. unfold make_pairs. rewrite ndindex_ok by done. simpl.
  eexists. split; [reflexivity|].
  generalize (index_pairs nrow ncol). intros l.
  assert (Hgen : ∀ pairs, length (foldl (pairs_iteration nrow ncol) pairs l) = length pairs).
  { induction l as [|ij l IH]; intros pairs; [done|]. simpl.
    by rewrite IH, pairs_iteration_length. }
  by rewrite Hgen.
Qed.

(** The loop over the first [m] layers. *)
Lemma layers_prefix (m n : nat) (pairs : list (list (Z * Z))) (rand_state : G) :
  length pairs = 4%nat →
  ∃ rand_state' previous_gate gates,
    foldR (layer_iteration (range (Z.of_nat n)) pairs)
          (rand_state, replicate n None, []) (range (Z.of_nat m))
    = Ok (rand_state', previous_gate, gates)
    ∧ length gates = m
    ∧ length previous_gate = n
    ∧ (∀ i layer, gates !! i = Some layer → layer_ok n pairs i layer)
    ∧ names_alternate n gates
    ∧ ∀ layer (q : nat) (g : Gate),
        last gates = Some layer → (q < n)%nat → layer !! q = Some g →
        previous_gate !! q = Some (Some (name g)).
Proof.
  intros Hpairs. unfold range. induction m as [|m IH].
  - exists rand_state, (replicate n None), [].
    split; [done|]. split; [done|]. split; [by rewrite length_replicate|].
    split; [by intros i layer Hi|]. split; [by intros i q l1 l2 g1 g2 Hi|done].
  - destruct IH as (rs1 & pg1 & gates1 & Hrun & Hlen & Hpg & Hlayers & Halt & Hlast).
    rewrite seqZ_S, foldR_app, Hrun. cbn [mbind res_bind foldR].
    rewrite Z.add_0_l. unfold layer_iteration.
    destruct (add_one_qubit_gates_ok rs1 pg1)
      as (rs2 & next & singles & Hsingles & Hs1 & Hs2 & Hs3).
    rewrite Hpg in Hsingles. unfold range in Hsingles.
    rewrite Hsingles. cbn [mbind res_bind].
    destruct (pattern_lookup (Z.of_nat m `mod` 8)) as (p & Hp & Hprange);
      [apply Z.mod_pos_bound; lia|].
    assert (Hip : index pattern (Z.of_nat m `mod` 8) = Ok p)
      by (unfold index; by rewrite Hp).
    rewrite Hip. cbn [mbind res_bind].
    destruct (lookup_lt_is_Some_2 pairs (Z.to_nat p)) as [group Hgroup]; [lia|].
    assert (Hig : index pairs p = Ok group) by (unfold index; by rewrite Hgroup).
    rewrite Hig. cbn [mbind res_bind].
    rewrite add_two_qubit_gates_app.
    exists rs2, next, (gates1 ++ [singles ++ iswap_gates group]).
    split; [done|]. split; [rewrite length_app; simpl; lia|].
    split; [congruence|].
    assert (Hfront : ∀ (q : nat) (g : Gate),
              (q < n)%nat → (singles ++ iswap_gates group) !! q = Some g →
              singles !! q = Some g).
    { intros q g Hq Hg. by rewrite lookup_app_l in Hg by lia. }
    split; [|split].
    + intros i layer Hi. destruct (decide (i < m)%nat) as [Hlt|Hge].
      * rewrite lookup_app_l in Hi by lia. by apply Hlayers.
      * rewrite lookup_app_r in Hi by lia. rewrite Hlen in Hi.
        destruct (i - m)%nat as [|d] eqn:Hd; [|by rewrite lookup_cons_ne_0, lookup_nil in Hi].
        assert (i = m) as -> by lia. simpl in Hi. inversion Hi; subst layer.
        exists singles, p, group. repeat split; try done; try lia.
        all: by destruct (Hs3 q g) as (? & ? & ? & ? & ?).
    + intros i q l1 l2 g1 g2 Hi HSi Hq Hg1 Hg2.
      destruct (decide (S i < m)%nat) as [Hlt|Hge].
      * rewrite lookup_app_l in Hi by lia. rewrite lookup_app_l in HSi by lia.
        exact (Halt i q l1 l2 g1 g2 Hi HSi Hq Hg1 Hg2).
      * assert (S i = m) as Hm.
        { apply lookup_lt_Some in HSi. rewrite length_app in HSi. simpl in HSi. lia. }
        rewrite lookup_app_l in Hi by lia.
        rewrite lookup_app_r in HSi by lia. rewrite Hlen, <- Hm, Nat.sub_diag in HSi.
        simpl in HSi. inversion HSi; subst l2.
        assert (Hl1 : last gates1 = Some l1).
        { rewrite last_lookup, Hlen, <- Hm. done. }
        pose proof (Hlast l1 q g1 Hl1 Hq Hg1) as Hprev.
        apply Hfront in Hg2; [|done].
        destruct (Hs3 q g2 Hg2) as (_ & _ & _ & Hne & _).
        intros Heq. apply Hne. by rewrite Hprev, Heq.
    + intros layer q g Hl Hq Hg. rewrite last_snoc in Hl. inversion Hl; subst layer.
      apply Hfront in Hg; [|done]. by destruct (Hs3 q g Hg) as (_ & _ & _ & _ & ?).
Qed.

(** C10, as the code has it: for [nrow, ncol >= 1], [nlayer >= 0] and a
    seed that [np.random.RandomState] accepts, [0 <= seed < 2^32], the
    generator returns a circuit of exactly [nlayer] layers; layer [i] is one
    single-qubit gate per qubit in increasing qubit order, each named
    sqrtX, sqrtY or sqrtW, followed by an ISWAP gate for every pair of the
    group [pairs[[0,1,2,3,2,3,0,1][i % 8]]]; and no qubit gets the same
    single-qubit gate name in two consecutive layers. *)
Theorem generate_layers (nrow ncol nlayer seed : Z) :
  1 ≤ nrow → 1 ≤ ncol → 0 ≤ nlayer → 0 ≤ seed < 2 ^ 32 →
  ∃ circuit pairs,
    generate (G:=G) nrow ncol nlayer seed = Ok circuit
    ∧ make_pairs nrow ncol = Ok pairs
    ∧ length (gates circuit) = Z.to_nat nlayer
    ∧ (∀ i layer, gates circuit !! i = Some layer →
         layer_ok (Z.to_nat (nrow * ncol)) pairs i layer)
    ∧ names_alternate (Z.to_nat (nrow * ncol)) (gates circuit).
Proof.
  intros Hr Hc Hl Hseed. unfold generate, new_random_state.
  rewrite bool_decide_eq_true_2 by done. cbn [mbind res_bind].
  destruct (make_pairs_ok nrow ncol) as (pairs & Hpairs & Hlen); [lia|lia|].
  rewrite Hpairs. cbn [mbind res_bind].
  assert (Hn : length (range (nrow * ncol)) = Z.to_nat (nrow * ncol))
    by (unfold range; apply length_seqZ).
  rewrite Hn.
  destruct (layers_prefix (Z.to_nat nlayer) (Z.to_nat (nrow * ncol)) pairs (seeded seed) Hlen)
    as (rs & pg & gates & Hrun & Hgl & _ & Hlayers & Halt & _).
  rewrite !Z2Nat.id in Hrun by nia. rewrite Hrun. cbn [mbind res_bind].
  eexists _, pairs. split; [reflexivity|]. split; [done|]. simpl. auto.
Qed.
End generator_props.

Lemma generate_layers_witness :
  ∃ circuit pairs,
    generate (G:=nat) 2 2 3 0 = Ok circuit
    ∧ make_pairs 2 2 = Ok pairs
    ∧ length (gates circuit) = 3%nat
    ∧ (∀ i layer, gates circuit !! i = Some layer → layer_ok 4 pairs i layer)
    ∧ names_alternate 4 (gates circuit).
Proof. apply (generate_layers (G:=nat) 2 2 3 0); lia. Defined.

(** A seed below [0] or from [2^32] on is refused: on a two by two lattice
    with three layers the generator raises the [ValueError] of
    [np.random.RandomState] and returns no circuit. *)
Lemma seed_out_of_range_is_refused :
  generate (G:=nat) 2 2 3 (-1) = Raise ValueError
  ∧ generate (G:=nat) 2 2 3 (2 ^ 32) = Raise ValueError
  ∧ ¬ ∃ circuit, generate (G:=nat) 2 2 3 (-1) = Ok circuit.
Proof.
  assert (H : generate (G:=nat) 2 2 3 (-1) = Raise ValueError) by reflexivity.
  split; [exact H|]. split; [reflexivity|].
  intros [circuit Hc]. rewrite H in Hc. discriminate Hc.
Qed.
End RqcProps.

(** ** The bond a bond update truncates *)

Lemma nth_set_dim_eq (axis : nat) (d : Z) (sh : list Z) :
  nth axis (Shaped.set_dim axis d sh) 1 = d.
Proof.
  unfold Shaped.set_dim. apply nth_lookup_Some, list_lookup_insert_eq.
  rewrite length_app, length_replicate. lia.
Qed.

Lemma nth_set_dim_ne (axis axis' : nat) (d : Z) (sh : list Z) :
  axis' ≠ axis → nth axis' (Shaped.set_dim axis d sh) 1 = nth axis' sh 1.
Proof.
  intros Hne. unfold Shaped.set_dim. rewrite !nth_lookup.
  rewrite list_lookup_insert_ne by done.
  destruct (decide (axis' < length sh)%nat) as [Hlt|Hge].
  - by rewrite lookup_app_l.
  - rewrite lookup_app_r, (lookup_ge_None_2 sh) by lia. simpl.
    destruct (replicate _ _ !! _) as [x|] eqn:Hx; [|done].
    apply lookup_replicate in Hx as [-> _]. done.
Qed.

Global Program Instance shaped_shapes : SiteShapes Shaped.tensor := {
  bond_dim t l := Shaped.dim t (leg_axis l)
}.
Next Obligation. intros t op l. by destruct l. Qed.
Next Obligation.
  intros a b o. unfold Shaped.dim. simpl. rewrite !nth_set_dim_eq.
  split; [done|]. split; [lia|].
  split; intros l Hl; apply nth_set_dim_ne; by destruct l.
Qed.
Next Obligation.
  intros a b o. unfold Shaped.dim. simpl. rewrite !nth_set_dim_eq.
  split; [done|]. split; [lia|].
  split; intros l Hl; apply nth_set_dim_ne; by destruct l.
Qed.

Section shape_props.
Context {T : Type} {ST : Sites T} {SS : SiteShapes T}.

Lemma updated_grid_bond (reduce : T → T → svd_option → T * T) (la lb : leg)
    (g : gmap coord T) (a b : coord) (op_a op_b : T) (k : Z) (ta tb : T) :
  (∀ x y o,
      bond_dim (reduce x y o).1 la = bond_dim (reduce x y o).2 lb
      ∧ bond_dim (reduce x y o).1 la ≤ svd_rank o
      ∧ (∀ l, l ≠ la → bond_dim (reduce x y o).1 l = bond_dim x l)
      ∧ (∀ l, l ≠ lb → bond_dim (reduce x y o).2 l = bond_dim y l)) →
  a ≠ b → gate_factor la op_a → gate_factor lb op_b →
  ∃ ta' tb',
    updated_grid reduce g a b op_a op_b k ta tb !! a = Some ta'
    ∧ updated_grid reduce g a b op_a op_b k ta tb !! b = Some tb'
    ∧ bond_dim ta' la = bond_dim tb' lb
    ∧ bond_dim ta' la ≤ k
    ∧ (∀ l, l ≠ la → bond_dim ta' l = bond_dim ta l)
    ∧ (∀ l, l ≠ lb → bond_dim tb' l = bond_dim tb l).
Proof.
  intros Hred Hne Ha Hb. unfold updated_grid. cbn zeta.
  destruct (Hred (contract_z ta op_a) (contract_z tb op_b) (ImplicitRandomizedSVD k))
    as (Hshared & Hbound & Hfa & Hfb).
  eexists _, _. split; [by rewrite lookup_insert_ne, lookup_insert_eq|].
  split; [by rewrite lookup_insert_eq|].
  split; [done|]. split; [done|]. split.
  - intros l Hl. rewrite Hfa, bond_dim_contract_z, Ha by done. lia.
  - intros l Hl. rewrite Hfb, bond_dim_contract_z, Hb by done. lia.
Qed.
End shape_props.

(** C4: one bond update of an edge [(a, b)] with gate factors as the
    builder shapes them and maximal rank [k]: the bond the two sites share
    ends with one dimension, at most [k], on both sides; every other leg of
    [a] and of [b] keeps its dimension; and every other site tensor of the
    grid is the tensor it was.  For a horizontal edge the shared bond is
    the east leg of [a] and the west leg of [b], for a vertical edge the
    south leg of [a] and the north leg of [b]. *)
Theorem bond_update_frame {T : Type} {ST : Sites T} {SS : SiteShapes T}
    (q : PEPS T) (a b : coord) (op_a op_b : T) (k : Z) (ta tb : T) :
  a ≠ b → grid q !! a = Some ta → grid q !! b = Some tb →
  (gate_factor East op_a → gate_factor West op_b →
   bond_updated East West k q a b ta tb (horizontal_update q (a, b) (op_a, op_b) k))
  ∧ (gate_factor South op_a → gate_factor North op_b →
     bond_updated South North k q a b ta tb (vertical_update q (a, b) (op_a, op_b) k)).
Proof.
  intros Hne Ha Hb. split; intros Hopa Hopb; unfold bond_updated.
  - rewrite (horizontal_update_distinct q a b op_a op_b k ta tb Hne Ha Hb).
    destruct (updated_grid_bond reduce_y East West (grid q) a b op_a op_b k ta tb
                bond_dim_reduce_y Hne Hopa Hopb)
      as (ta' & tb' & Hga & Hgb & H1 & H2 & H3 & H4).
    eexists _, ta', tb'. split; [reflexivity|]. simpl.
    repeat (split; [done|]). intros c Hca Hcb. by apply updated_grid_frame.
  - rewrite (vertical_update_distinct q a b op_a op_b k ta tb Hne Ha Hb).
    destruct (updated_grid_bond reduce_x South North (grid q) a b op_a op_b k ta tb
                bond_dim_reduce_x Hne Hopa Hopb)
      as (ta' & tb' & Hga & Hgb & H1 & H2 & H3 & H4).
    eexists _, ta', tb'. split; [reflexivity|]. simpl.
    repeat (split; [done|]). intros c Hca Hcb. by apply updated_grid_frame.
Qed.

Lemma bond_update_frame_witness :
  bond_updated East West 3 shaped_state (0, 0) (0, 1)
    (random_site 2 2 3 numpy (0, 0)) (random_site 2 2 3 numpy (0, 1))
    (horizontal_update shaped_state ((0, 0), (0, 1))
       (factors_of shaped_operators.1 ((0, 0), (0, 1))) 3)
  ∧ bond_updated South North 3 shaped_state (0, 0) (1, 0)
      (random_site 2 2 3 numpy (0, 0)) (random_site 2 2 3 numpy (1, 0))
      (vertical_update shaped_state ((0, 0), (1, 0))
         (factors_of shaped_operators.2 ((0, 0), (1, 0))) 3).
Proof.
  split.
  - refine (proj1 (bond_update_frame shaped_state (0, 0) (0, 1)
                     (factors_of shaped_operators.1 ((0, 0), (0, 1))).1
                     (factors_of shaped_operators.1 ((0, 0), (0, 1))).2 3
                     (random_site 2 2 3 numpy (0, 0)) (random_site 2 2 3 numpy (0, 1))
                     _ _ _) _ _).
    + discriminate.
    + reflexivity.
    + reflexivity.
    + intros l Hl. destruct l; try reflexivity. by destruct Hl.
    + intros l Hl. destruct l; try reflexivity. by destruct Hl.
  - refine (proj2 (bond_update_frame shaped_state (0, 0) (1, 0)
                     (factors_of shaped_operators.2 ((0, 0), (1, 0))).1
                     (factors_of shaped_operators.2 ((0, 0), (1, 0))).2 3
                     (random_site 2 2 3 numpy (0, 0)) (random_site 2 2 3 numpy (1, 0))
                     _ _ _) _ _).
    + discriminate.
    + reflexivity.
    + reflexivity.
    + intros l Hl. destruct l; try reflexivity. by destruct Hl.
    + intros l Hl. destruct l; try reflexivity. by destruct Hl.
Defined.

(** The update of the first horizontal edge of that lattice: the shared
    bond, 3 wide before the gate and 12 wide after it, is cut back to 3. *)
Example bond_update_shapes :
  (fun q => (Shaped.shape <$> grid q !! (0, 0), Shaped.shape <$> grid q !! (0, 1)))
    <$> match result (horizontal_update shaped_state ((0, 0), (0, 1))
                        (factors_of shaped_operators.1 ((0, 0), (0, 1))) 3) with
        | Ok q => Some q
        | Raise _ => None
        end
  = Some (Some [1; 3; 3; 1; 2; 2], Some [1; 1; 3; 3; 2; 2]).
Proof. vm_compute. reflexivity. Qed.

(** ** The factorization of the two-site operator *)

Module DenseProps.
Import Dense.
Local Open Scope R_scope.

Lemma exp_pauli_zz_diagonal (c : R) (x y : nat) :
  (x < 2)%nat → (y < 2)%nat →
  exp_pauli_zz c [x; y; x; y] = exp (if (x =? y)%nat then c else - c).
Proof.
  intros Hx Hy. destruct x as [|[|x]]; [| |lia]; (destruct y as [|[|y]]; [| |lia]);
    unfold exp_pauli_zz, expm_diagonal, scaled_zz, PAULI_ZZ, PAULI_Z; simpl;
    f_equal; ring.
Qed.

Lemma exp_pauli_zz_off_diagonal (c : R) (x y u v : nat) :
  (x < 2)%nat → (y < 2)%nat → (u < 2)%nat → (v < 2)%nat → (x, y) ≠ (u, v) →
  exp_pauli_zz c [x; y; u; v] = 0.
Proof.
  intros Hx Hy Hu Hv Hne.
  destruct x as [|[|x]]; [| |lia]; (destruct y as [|[|y]]; [| |lia]);
    (destruct u as [|[|u]]; [| |lia]); (destruct v as [|[|v]]; [| |lia]);
    try done; reflexivity.
Qed.

Ltac two_cases n := destruct n as [|[|n]]; [| |exfalso; lia].
Ltac four_cases n := destruct n as [|[|[|[|n]]]]; [| | | |exfalso; lia].

Lemma diagonal_svd_is_svd (c : R) :
  is_svd (exp_pauli_zz c) (unit_vector (exp_pauli_zz c))
         (singular_value (exp_pauli_zz c)) (unit_vector (exp_pauli_zz c)).
Proof.
  pose proof (exp_pauli_zz_diagonal c 0 0) as H00.
  pose proof (exp_pauli_zz_diagonal c 0 1) as H01.
  pose proof (exp_pauli_zz_diagonal c 1 0) as H10.
  pose proof (exp_pauli_zz_diagonal c 1 1) as H11.
  simpl in H00, H01, H10, H11.
  specialize (H00 ltac:(lia) ltac:(lia)). specialize (H01 ltac:(lia) ltac:(lia)).
  specialize (H10 ltac:(lia) ltac:(lia)). specialize (H11 ltac:(lia) ltac:(lia)).
  unfold is_svd, unit_vector, singular_value, descending_order.
  destruct (Rle_dec (exp_pauli_zz c [0; 1; 0; 1]%nat) (exp_pauli_zz c [0; 0; 0; 0]%nat))
    as [Hle|Hgt].
  - split; [|split; [|split; [|split]]].
    + intros x y u v Hx Hy Hu Hv. two_cases x; two_cases y; two_cases u; two_cases v;
        unfold sum4; simpl; rewrite ?H00, ?H01, ?H10, ?H11;
        unfold expm_diagonal; simpl; ring.
    + intros s s' Hs Hs'. four_cases s; four_cases s'; unfold sum2x2, delta; simpl; ring.
    + intros s s' Hs Hs'. four_cases s; four_cases s'; unfold sum2x2, delta; simpl; ring.
    + intros s Hs. four_cases s; simpl; rewrite ?H00, ?H01, ?H10, ?H11;
        left; apply exp_pos.
    + intros s Hs. simpl in Hle. rewrite H00, H01 in Hle.
      destruct s as [|[|[|s]]]; [| | |lia]; simpl; rewrite ?H00, ?H01, ?H10, ?H11; lra.
  - split; [|split; [|split; [|split]]].
    + intros x y u v Hx Hy Hu Hv. two_cases x; two_cases y; two_cases u; two_cases v;
        unfold sum4; simpl; rewrite ?H00, ?H01, ?H10, ?H11;
        unfold expm_diagonal; simpl; ring.
    + intros s s' Hs Hs'. four_cases s; four_cases s'; unfold sum2x2, delta; simpl; ring.
    + intros s s' Hs Hs'. four_cases s; four_cases s'; unfold sum2x2, delta; simpl; ring.
    + intros s Hs. four_cases s; simpl; rewrite ?H00, ?H01, ?H10, ?H11;
        left; apply exp_pos.
    + intros s Hs. simpl in Hgt. rewrite H00, H01 in Hgt.
      destruct s as [|[|[|s]]]; [| | |lia]; simpl; rewrite ?H00, ?H01, ?H10, ?H11; lra.
Qed.
Lemma horizontal_factors_entries (c : R) :
  horizontal_factors c
  = (fun idx => match idx with
                | [0%nat; s; 0%nat; 0%nat; x; y] =>
                    unit_vector (exp_pauli_zz c) x y s
                    * powerRZ (singular_value (exp_pauli_zz c) s) 2
                | _ => 0
                end,
     fun idx => match idx with
                | [0%nat; 0%nat; 0%nat; s; u; v] =>
                    unit_vector (exp_pauli_zz c) u v s
                    * powerRZ (singular_value (exp_pauli_zz c) s) 2
                | _ => 0
                end).
Proof. reflexivity. Qed.

Lemma vertical_factors_entries (c : R) :
  vertical_factors c
  = (fun idx => match idx with
                | [0%nat; 0%nat; s; 0%nat; x; y] =>
                    unit_vector (exp_pauli_zz c) x y s
                    * powerRZ (singular_value (exp_pauli_zz c) s) 2
                | _ => 0
                end,
     fun idx => match idx with
                | [s; 0%nat; 0%nat; 0%nat; u; v] =>
                    unit_vector (exp_pauli_zz c) u v s
                    * powerRZ (singular_value (exp_pauli_zz c) s) 2
                | _ => 0
                end).
Proof. reflexivity. Qed.
Ltac contraction_entries c :=
  pose proof (exp_pauli_zz_diagonal c 0 0 ltac:(lia) ltac:(lia)) as H00;
  pose proof (exp_pauli_zz_diagonal c 0 1 ltac:(lia) ltac:(lia)) as H01;
  pose proof (exp_pauli_zz_diagonal c 1 0 ltac:(lia) ltac:(lia)) as H10;
  pose proof (exp_pauli_zz_diagonal c 1 1 ltac:(lia) ltac:(lia)) as H11;
  simpl in H00, H01, H10, H11;
  cbn [fst snd];
  unfold contract_horizontal, contract_vertical, sum4, unit_vector, singular_value,
    descending_order;
  destruct (Rle_dec (exp_pauli_zz c [0; 1; 0; 1]%nat) (exp_pauli_zz c [0; 0; 0; 0]%nat));
  simpl; rewrite ?H00, ?H01, ?H10, ?H11; unfold expm_diagonal; simpl; ring.

(** Contracted over the gate bond, the two factors give the fourth power
    of every entry of the two-site operator. *)
Lemma horizontal_contraction_entries (c : R) (x y u v : nat) :
  (x < 2)%nat → (y < 2)%nat → (u < 2)%nat → (v < 2)%nat →
  contract_horizontal (horizontal_factors c).1 (horizontal_factors c).2 [x; y; u; v]
  = exp_pauli_zz c [x; y; u; v] ^ 4.
Proof.
  intros Hx Hy Hu Hv. rewrite horizontal_factors_entries.
  two_cases x; two_cases y; two_cases u; two_cases v; contraction_entries c.
Qed.

Lemma vertical_contraction_entries (c : R) (x y u v : nat) :
  (x < 2)%nat → (y < 2)%nat → (u < 2)%nat → (v < 2)%nat →
  contract_vertical (vertical_factors c).1 (vertical_factors c).2 [x; y; u; v]
  = exp_pauli_zz c [x; y; u; v] ^ 4.
Proof.
  intros Hx Hy Hu Hv. rewrite vertical_factors_entries.
  two_cases x; two_cases y; two_cases u; two_cases v; contraction_entries c.
Qed.

Lemma exp_pow4 (c : R) : exp c ^ 4 = exp (4 * c).
Proof.
  replace (4 * c) with (c + (c + (c + c))) by ring.
  rewrite !exp_plus. simpl. ring.
Qed.

(** C2, as the code has it: the factors carry the square of the singular
    values, not their square root, so contracting them over the gate bond
    gives [exp(4*tau*J)] where the two-site operator has [exp(tau*J)]; the
    operator is reconstructed only when [tau*J = 0]. *)
Theorem pair_site_factors_reconstruct_fourth_power (J tau : R) :
  let twosite := expm_pauli_zz (TensorBackend:=dense_backend diagonal_svd) (J * tau) in
  let h := horizontal_pair_site_operator (TB:=dense_backend diagonal_svd) twosite in
  let v := vertical_pair_site_operator (TB:=dense_backend diagonal_svd) twosite in
  twosite [0; 0; 0; 0]%nat = exp (J * tau)
  ∧ contract_horizontal h.1 h.2 [0; 0; 0; 0]%nat = exp (4 * (J * tau))
  ∧ contract_vertical v.1 v.2 [0; 0; 0; 0]%nat = exp (4 * (J * tau))
  ∧ (contract_horizontal h.1 h.2 [0; 0; 0; 0]%nat = twosite [0; 0; 0; 0]%nat
     ↔ J * tau = 0)
  ∧ (contract_vertical v.1 v.2 [0; 0; 0; 0]%nat = twosite [0; 0; 0; 0]%nat
     ↔ J * tau = 0).
Proof.
  intros twosite h v.
  assert (Ht : twosite [0; 0; 0; 0]%nat = exp (J * tau))
    by (apply (exp_pauli_zz_diagonal (J * tau) 0 0); lia).
  assert (Hh : contract_horizontal h.1 h.2 [0; 0; 0; 0]%nat = exp (4 * (J * tau))).
  { rewrite <- exp_pow4, <- Ht.
    apply (horizontal_contraction_entries (J * tau) 0 0 0 0); lia. }
  assert (Hv : contract_vertical v.1 v.2 [0; 0; 0; 0]%nat = exp (4 * (J * tau))).
  { rewrite <- exp_pow4, <- Ht.
    apply (vertical_contraction_entries (J * tau) 0 0 0 0); lia. }
  split; [done|]. split; [done|]. split; [done|].
  rewrite Hh, Hv, Ht. split; (split; [intros Heq%exp_inv; lra|intros ->; f_equal; ring]).
Qed.

(** At [J = 1] and [tau = 1]: the factors made from a true singular value
    decomposition contract to [exp 4], not to the entry [exp 1] of the
    operator they were made from. *)
Lemma pair_site_factors_at_one :
  is_svd (exp_pauli_zz (1 * 1)) (unit_vector (exp_pauli_zz (1 * 1)))
         (singular_value (exp_pauli_zz (1 * 1))) (unit_vector (exp_pauli_zz (1 * 1)))
  ∧ contract_horizontal (horizontal_factors (1 * 1)).1 (horizontal_factors (1 * 1)).2
      [0; 0; 0; 0]%nat
    ≠ exp_pauli_zz (1 * 1) [0; 0; 0; 0]%nat
  ∧ contract_vertical (vertical_factors (1 * 1)).1 (vertical_factors (1 * 1)).2
      [0; 0; 0; 0]%nat
    ≠ exp_pauli_zz (1 * 1) [0; 0; 0; 0]%nat.
Proof.
  split; [apply diagonal_svd_is_svd|].
  destruct (pair_site_factors_reconstruct_fourth_power 1 1) as (_ & _ & _ & Hh & Hv).
  split; [intros Heq; apply Hh in Heq; lra|intros Heq; apply Hv in Heq; lra].
Defined.

(** *** Whatever singular value decomposition the backend returns *)

Section any_svd.
Variables (c : R) (U : nat -> nat -> nat -> R) (S : nat -> R) (V : nat -> nat -> nat -> R).
Hypothesis Hsvd : is_svd (exp_pauli_zz c) U S V.

Hypothesis Hrec : forall x y u v : nat,
  (x < 2)%nat -> (y < 2)%nat -> (u < 2)%nat -> (v < 2)%nat ->
  squared_contraction U S V x y u v = exp_pauli_zz c [x; y; u; v].

Lemma svd_times_V (x y s : nat) :
  (x < 2)%nat → (y < 2)%nat → (s < 4)%nat →
  exp_pauli_zz c [x; y; x; y] * V x y s = U x y s * S s.
Proof.
  intros Hx Hy Hs. destruct Hsvd as (HA & _ & HC & _).
  transitivity (sum2x2 (fun u v => exp_pauli_zz c [x; y; u; v] * V u v s)).
  { unfold sum2x2. two_cases x; two_cases y;
      unfold exp_pauli_zz, expm_diagonal; simpl; ring. }
  unfold sum2x2. rewrite <- !HA by lia.
  transitivity (sum4 (fun s' => U x y s' * S s' * sum2x2 (fun u v => V u v s' * V u v s))).
  { unfold sum4, sum2x2. ring. }
  unfold sum4. rewrite !HC by lia. four_cases s; unfold delta; simpl; ring.
Qed.

Lemma svd_times_U (u v s : nat) :
  (u < 2)%nat → (v < 2)%nat → (s < 4)%nat →
  exp_pauli_zz c [u; v; u; v] * U u v s = S s * V u v s.
Proof.
  intros Hu Hv Hs. destruct Hsvd as (HA & HB & _).
  transitivity (sum2x2 (fun x y => exp_pauli_zz c [x; y; u; v] * U x y s)).
  { unfold sum2x2. two_cases u; two_cases v;
      unfold exp_pauli_zz, expm_diagonal; simpl; ring. }
  unfold sum2x2. rewrite <- !HA by lia.
  transitivity (sum4 (fun s' => S s' * V u v s' * sum2x2 (fun x y => U x y s' * U x y s))).
  { unfold sum4, sum2x2. ring. }
  unfold sum4. rewrite !HB by lia. four_cases s; unfold delta; simpl; ring.
Qed.

Lemma contraction_times_V (x y s : nat) :
  (x < 2)%nat → (y < 2)%nat → (s < 4)%nat →
  exp_pauli_zz c [x; y; x; y] * V x y s = U x y s * S s ^ 4.
Proof.
  intros Hx Hy Hs. destruct Hsvd as (_ & _ & HC & _).
  transitivity (sum2x2 (fun u v => exp_pauli_zz c [x; y; u; v] * V u v s)).
  { unfold sum2x2. two_cases x; two_cases y;
      unfold exp_pauli_zz, expm_diagonal; simpl; ring. }
  unfold sum2x2. rewrite <- !Hrec by lia. unfold squared_contraction.
  transitivity (sum4 (fun s' => U x y s' * S s' ^ 4
                                * sum2x2 (fun u v => V u v s' * V u v s))).
  { unfold sum4, sum2x2. simpl. ring. }
  unfold sum4. rewrite !HC by lia. four_cases s; unfold delta; simpl; ring.
Qed.

Lemma singular_values_idempotent (s : nat) : (s < 4)%nat → S s * S s = S s.
Proof.
  intros Hs. destruct Hsvd as (_ & HB & _ & Hpos & _).
  assert (Hcol : ∀ x y, (x < 2)%nat → (y < 2)%nat → U x y s * (S s ^ 4 - S s) = 0).
  { intros x y Hx Hy.
    pose proof (svd_times_V x y s Hx Hy Hs). pose proof (contraction_times_V x y s Hx Hy Hs).
    lra. }
  assert (H4 : S s ^ 4 - S s = 0).
  { transitivity ((S s ^ 4 - S s) * sum2x2 (fun x y => U x y s * U x y s)).
    { rewrite HB by done. unfold delta. rewrite Nat.eqb_refl. ring. }
    unfold sum2x2.
    pose proof (Hcol 0%nat 0%nat ltac:(lia) ltac:(lia)) as H00.
    pose proof (Hcol 0%nat 1%nat ltac:(lia) ltac:(lia)) as H01.
    pose proof (Hcol 1%nat 0%nat ltac:(lia) ltac:(lia)) as H10.
    pose proof (Hcol 1%nat 1%nat ltac:(lia) ltac:(lia)) as H11.
    replace ((S s ^ 4 - S s)
             * (U 0%nat 0%nat s * U 0%nat 0%nat s + U 0%nat 1%nat s * U 0%nat 1%nat s
                + U 1%nat 0%nat s * U 1%nat 0%nat s + U 1%nat 1%nat s * U 1%nat 1%nat s))
      with (U 0%nat 0%nat s * (U 0%nat 0%nat s * (S s ^ 4 - S s))
            + U 0%nat 1%nat s * (U 0%nat 1%nat s * (S s ^ 4 - S s))
            + U 1%nat 0%nat s * (U 1%nat 0%nat s * (S s ^ 4 - S s))
            + U 1%nat 1%nat s * (U 1%nat 1%nat s * (S s ^ 4 - S s))) by ring.
    rewrite H00, H01, H10, H11. ring. }
  specialize (Hpos s Hs).
  assert (Hfac : S s * ((S s - 1) * (S s * S s + S s + 1)) = 0) by (simpl in H4; lra).
  apply Rmult_integral in Hfac as [Hz|Hfac]; [rewrite Hz; ring|].
  apply Rmult_integral in Hfac as [Hone|Hpos']; [|nra].
  replace (S s) with 1 by lra. ring.
Qed.

(** No singular value decomposition makes the factors of the script
    reconstruct the operator, unless the operator is the identity. *)
Lemma reconstruction_forces_identity : c = 0.
Proof.
  destruct (Req_dec c 0) as [Hc|Hc]; [done|]. exfalso.
  pose proof (exp_pauli_zz_diagonal c 0 0 ltac:(lia) ltac:(lia)) as Hd. simpl in Hd.
  assert (Hd2 : exp c * exp c ≠ 1).
  { rewrite <- exp_plus, <- exp_0. intros Heq%exp_inv. lra. }
  pose proof (exp_pos c) as Hpos.
  assert (Hrow : ∀ s, (s < 4)%nat → V 0%nat 0%nat s = 0).
  { intros s Hs.
    pose proof (svd_times_V 0 0 s ltac:(lia) ltac:(lia) Hs) as H1.
    pose proof (svd_times_U 0 0 s ltac:(lia) ltac:(lia) Hs) as H2.
    pose proof (singular_values_idempotent s Hs) as H3.
    simpl in H1, H2. rewrite Hd in H1, H2.
    assert (H4 : (exp c * exp c - S s) * V 0%nat 0%nat s = 0).
    { replace ((exp c * exp c - S s) * V 0%nat 0%nat s)
        with (exp c * (exp c * V 0%nat 0%nat s) - S s * V 0%nat 0%nat s) by ring.
      rewrite H1. replace (exp c * (U 0%nat 0%nat s * S s))
        with (exp c * U 0%nat 0%nat s * S s) by ring.
      rewrite H2. replace (S s * V 0%nat 0%nat s * S s)
        with (S s * S s * V 0%nat 0%nat s) by ring.
      rewrite H3. ring. }
    apply Rmult_integral in H4 as [H4|H4]; [|done]. exfalso.
    assert (Hs2 : S s = exp c * exp c) by lra. rewrite Hs2 in H3.
    assert (exp c * exp c * (exp c * exp c - 1) = 0) as Hz by lra.
    apply Rmult_integral in Hz as [Hz|Hz]; [nra|lra]. }
  destruct Hsvd as (HA & _).
  specialize (HA 0%nat 0%nat 0%nat 0%nat ltac:(lia) ltac:(lia) ltac:(lia) ltac:(lia)).
  unfold sum4 in HA. rewrite !Hrow in HA by lia. simpl in HA. rewrite Hd in HA. lra.
Qed.
End any_svd.

(** C2, against the code: on a dense backend, whatever singular value
    decomposition its [einsvd] returns for the two-site operator
    [exp(tau*J*ZZ)], the two factors of the script, contracted over their
    gate bond, do not reconstruct that operator as soon as [tau*J] is not
    zero; this holds for the horizontal and for the vertical variant. *)
Theorem pair_site_factors_never_reconstruct
    (svd : string -> tensor -> tensor * tensor * tensor) (J tau : R) :
  let twosite := expm_pauli_zz (TensorBackend:=dense_backend svd) (J * tau) in
  J * tau ≠ 0 →
  (returns_svd twosite (horizontal_parts (svd "xyuv->xys,uvs" twosite)) →
   ¬ reconstructs contract_horizontal
       (horizontal_pair_site_operator (TB:=dense_backend svd) twosite) twosite)
  ∧ (returns_svd twosite (vertical_parts (svd "xyuv->sxy,suv" twosite)) →
     ¬ reconstructs contract_vertical
         (vertical_pair_site_operator (TB:=dense_backend svd) twosite) twosite).
Proof.
  intros twosite Hne. split; intros Hsvd Hrec; apply Hne.
  - destruct (svd "xyuv->xys,uvs" twosite) as [[U S] V] eqn:Hsvd_eq.
    apply (reconstruction_forces_identity (J * tau) _ _ _ Hsvd).
    intros x y u v Hx Hy Hu Hv.
    etransitivity; [|exact (Hrec x y u v Hx Hy Hu Hv)].
    unfold horizontal_pair_site_operator. cbn [einsvd dense_backend].
    rewrite Hsvd_eq. reflexivity.
  - destruct (svd "xyuv->sxy,suv" twosite) as [[U S] V] eqn:Hsvd_eq.
    apply (reconstruction_forces_identity (J * tau) _ _ _ Hsvd).
    intros x y u v Hx Hy Hu Hv.
    etransitivity; [|exact (Hrec x y u v Hx Hy Hu Hv)].
    unfold vertical_pair_site_operator. cbn [einsvd dense_backend].
    rewrite Hsvd_eq. reflexivity.
Qed.

Lemma pair_site_factors_never_reconstruct_witness :
  ¬ reconstructs contract_horizontal (horizontal_factors (1 * 1)) (exp_pauli_zz (1 * 1))
  ∧ ¬ reconstructs contract_vertical (vertical_factors (1 * 1)) (exp_pauli_zz (1 * 1)).
Proof.
  destruct (pair_site_factors_never_reconstruct diagonal_svd 1 1) as [Hh Hv]; [lra|].
  split; [apply Hh|apply Hv]; apply diagonal_svd_is_svd.
Defined.
End DenseProps.

(** * Further properties of the two scripts *)

(** ** The timer *)

(** X1: a [with Timer(backend, name)] block ends as its body ends: it
    returns what the body returns and raises what the body raises.  Its
    calls are, in this order and no others: entering the block; on [ctf]
    and [ctfview] the start of the timer [name]; the calls of the body, all
    of them and in their order; on [ctf] and [ctfview] the stop of the
    timer, also when the body raises; leaving the block.  On numpy the
    block adds no call to [ctf]. *)
Theorem timer_brackets_body {A} (backend : backend_name) (name : string) (body : M A) :
  result (with_timer backend name body) = result body
  ∧ trace (with_timer backend name body)
    = EvEnter name
      :: (if is_ctf backend then [EvCtf (CtfTimerStart name)] else [])
      ++ trace body
      ++ (if is_ctf backend then [EvCtf (CtfTimerStop name)] else [])
      ++ [EvExit name].
Proof. rewrite with_timer_trace. split; reflexivity. Qed.

Lemma timers_after_app (s : list string) (l1 l2 : list event) :
  timers_after s (l1 ++ l2) = timers_after s l1 ≫= fun s' => timers_after s' l2.
Proof.
  revert s. induction l1 as [|e l1 IH]; intros s; [done|].
  destruct e as [| | | | | | |[]]; simpl; try apply IH.
  destruct s as [|top s]; [done|]. destruct (bool_decide (top = name)); [apply IH|done].
Qed.

Lemma timers_nested_nil : timers_nested [].
Proof. by intros s. Qed.

Lemma timers_nested_app (l1 l2 : list event) :
  timers_nested l1 → timers_nested l2 → timers_nested (l1 ++ l2).
Proof. intros H1 H2 s. by rewrite timers_after_app, H1; simpl. Qed.

Lemma timers_nested_timed (backend : backend_name) (name : string) (tr : list event) :
  timers_nested tr → timers_nested (timed backend name tr).
Proof.
  intros Htr s. unfold timed, timer_start, timer_stop. destruct (is_ctf backend); simpl.
  - rewrite timers_after_app, Htr. simpl. by rewrite bool_decide_eq_true_2.
  - rewrite timers_after_app, Htr. done.
Qed.

Lemma timers_nested_bind {A B} (m : M A) (f : A → M B) :
  timers_nested (trace m) → (∀ a, timers_nested (trace (f a))) →
  timers_nested (trace (m ≫= f)).
Proof.
  intros Hm Hf. unfold mbind, M_bind. destruct (result m); simpl; [|done].
  by apply timers_nested_app.
Qed.

Lemma timers_nested_foldM {A B} (f : A → B → M A) (l : list B) :
  (∀ a b, timers_nested (trace (f a b))) → ∀ a, timers_nested (trace (foldM f a l)).
Proof.
  intros Hf. induction l as [|b l IH]; intros a; [apply timers_nested_nil|].
  simpl. by apply timers_nested_bind.
Qed.

Lemma timers_nested_with_timer {A} backend name (body : M A) :
  timers_nested (trace body) → timers_nested (trace (with_timer backend name body)).
Proof. intros. rewrite with_timer_trace. by apply timers_nested_timed. Qed.

Lemma timers_nested_builder (nrows ncols : Z) : timers_nested (builder_trace nrows ncols).
Proof.
  unfold builder_trace. case_bool_decide; [|apply timers_nested_nil].
  induction (Z.to_nat _) as [|n IH]; intros s; [done|]. simpl. apply IH.
Qed.

Section nesting.
Context {T : Type} {TB : TensorBackend T} {ST : Sites T} {FC : FlopCounter}.

Ltac nested :=
  repeat match goal with
    | |- timers_nested (trace (with_timer _ _ _)) => apply timers_nested_with_timer
    | |- timers_nested (trace (let '(_, _) := ?p in _)) => destruct p
    | |- timers_nested (trace (_ ≫= _)) => apply timers_nested_bind
    | |- timers_nested (trace (foldM _ _ _)) => apply timers_nested_foldM
    | |- timers_nested (trace (if ?b then _ else _)) => destruct b
    | |- timers_nested (trace (lift _)) => apply timers_nested_nil
    | |- timers_nested (trace (mret _)) => apply timers_nested_nil
    | |- timers_nested (trace (emit _)) => by intros ?
    | |- ∀ _, _ => intros
    end.

Lemma horizontal_update_nested (q : PEPS T) (ab : edge) (ops : T * T) (k : Z) :
  timers_nested (trace (horizontal_update q ab ops k)).
Proof.
  destruct ab as [a b], ops as [op_a op_b]. unfold horizontal_update.
  unfold qstate_get, call_contract_z, call_reduce_y. nested.
Qed.

Lemma vertical_update_nested (q : PEPS T) (ab : edge) (ops : T * T) (k : Z) :
  timers_nested (trace (vertical_update q ab ops k)).
Proof.
  destruct ab as [a b], ops as [op_a op_b]. unfold vertical_update.
  unfold qstate_get, call_contract_z, call_reduce_x. nested.
Qed.

Lemma run_peps_nested (ops : dict edge (T * T) * dict edge (T * T))
    (nrow ncol steps normfreq : Z) (backend : backend_name) (threshold : R)
    (maxrank : Z) (randomized_svd : bool) :
  timers_nested (trace (run_peps ops nrow ncol steps normfreq backend threshold maxrank
                                 randomized_svd)).
Proof.
  unfold run_peps, peps_random, run_peps_iteration, apply_trottered_step_operators,
    site_normalize.
  nested;
    lazymatch goal with
    | |- timers_nested (trace (horizontal_update _ _ _ _)) => apply horizontal_update_nested
    | |- timers_nested (trace (vertical_update _ _ _ _)) => apply vertical_update_nested
    end.
Qed.
End nesting.

(** X2: in every run of [main], for every command line and every
    implementation of the tensor library, whether the run returns or
    raises, the [ctf] timers are well nested: a timer is stopped only
    while it is the innermost running one, and none is left running at the
    end. *)
Theorem timers_stay_nested {T : Type} {TB : TensorBackend T} {ST : Sites T}
    {FC : FlopCounter} (a : args) :
  timers_after [] (trace (main a)) = Some [].
Proof.
  assert (H : timers_nested (trace (main a))); [|apply H].
  unfold main. apply timers_nested_bind.
  - apply timers_nested_with_timer. rewrite call_build_closed.
    apply timers_nested_builder.
  - intros ops. apply run_peps_nested.
Qed.

(** ** A run on numpy *)

Lemma sat_bind {A B} (P : event → Prop) (Q : A → Prop) (Q' : B → Prop)
    (m : M A) (f : A → M B) :
  sat P Q m → (∀ a, Q a → sat P Q' (f a)) → sat P Q' (m ≫= f).
Proof.
  intros [Ht Hr] Hf. unfold mbind, M_bind. destruct (result m) as [a|e] eqn:E.
  - destruct (Hf a (Hr a eq_refl)) as [Ht' Hr']. split; simpl; [|done].
    by apply Forall_app.
  - split; simpl; [done|]. by intros ? [=].
Qed.

Lemma sat_ret {A} (P : event → Prop) (Q : A → Prop) (a : A) : Q a → sat P Q (mret a).
Proof. intros Ha. split; simpl; [constructor|]. by intros ? [= <-]. Qed.

Lemma sat_lift {A} (P : event → Prop) (r : res A) : sat P (fun _ => True) (lift r).
Proof. split; simpl; [constructor|done]. Qed.

Lemma sat_emit (P : event → Prop) (e : event) : P e → sat P (fun _ => True) (emit e).
Proof. intros He. split; simpl; [by repeat constructor|done]. Qed.

Lemma sat_foldM {A B} (P : event → Prop) (Q : A → Prop) (f : A → B → M A) (l : list B) :
  (∀ a b, Q a → sat P Q (f a b)) → ∀ a, Q a → sat P Q (foldM f a l).
Proof.
  intros Hf. induction l as [|b l IH]; intros a Ha; simpl.
  - by apply sat_ret.
  - eapply sat_bind; [by apply Hf|]. intros a' Ha'. by apply IH.
Qed.

Lemma sat_with_timer {A} (P : event → Prop) (Q : A → Prop) backend name (body : M A) :
  P (EvEnter name) → P (EvExit name) →
  (is_ctf backend = true → P (EvCtf (CtfTimerStart name)) ∧ P (EvCtf (CtfTimerStop name))) →
  sat P Q body → sat P Q (with_timer backend name body).
Proof.
  intros He Hx Hctf [Ht Hr]. rewrite with_timer_trace. split; [|done]. cbn [trace].
  unfold timed, timer_start, timer_stop. destruct (is_ctf backend).
  - destruct Hctf as [Hs Hp]; [done|]. constructor; [done|]. constructor; [done|].
    apply Forall_app; split; [done|]. by repeat constructor.
  - constructor; [done|]. simpl. apply Forall_app; split; [done|]. by repeat constructor.
Qed.

Section numpy_runs.
Context {T : Type} {TB : TensorBackend T} {ST : Sites T} {FC : FlopCounter}.

Ltac sat_steps :=
  repeat match goal with
    | |- sat _ _ (with_timer _ _ _) => apply sat_with_timer; [done|done|by intros [=]|]
    | |- sat _ _ (let '(_, _) := ?p in _) => destruct p
    | |- sat _ _ (qstate_get _ _ ≫= _) => eapply sat_bind; [apply sat_lift|]
    | |- sat _ _ (call_contract_z _ _ ≫= _) =>
        eapply sat_bind; [eapply sat_bind; [by apply sat_emit|intros; by apply (sat_ret _ (fun _ => True))]|]
    | |- sat _ _ (call_reduce_y _ _ _ ≫= _) =>
        eapply sat_bind; [eapply sat_bind; [by apply sat_emit|intros; by apply (sat_ret _ (fun _ => True))]|]
    | |- sat _ _ (call_reduce_x _ _ _ ≫= _) =>
        eapply sat_bind; [eapply sat_bind; [by apply sat_emit|intros; by apply (sat_ret _ (fun _ => True))]|]
    | |- sat _ _ (mret _) => by apply sat_ret
    | |- ∀ _, _ => intros
    end.

Lemma horizontal_update_quiet (q : PEPS T) (ab : edge) (ops : T * T) (k : Z) :
  on_numpy q → sat quiet on_numpy (horizontal_update q ab ops k).
Proof.
  intros Hq. destruct ab as [a b], ops as [op_a op_b]. unfold horizontal_update.
  apply (sat_bind _ on_numpy).
  - rewrite Hq. sat_steps.
  - intros q' Hq'. rewrite Hq'. sat_steps.
Qed.

Lemma vertical_update_quiet (q : PEPS T) (ab : edge) (ops : T * T) (k : Z) :
  on_numpy q → sat quiet on_numpy (vertical_update q ab ops k).
Proof.
  intros Hq. destruct ab as [a b], ops as [op_a op_b]. unfold vertical_update.
  apply (sat_bind _ on_numpy).
  - rewrite Hq. sat_steps.
  - intros q' Hq'. rewrite Hq'. sat_steps.
Qed.

Lemma run_peps_quiet (ops : dict edge (T * T) * dict edge (T * T))
    (nrow ncol steps normfreq : Z) (threshold : R) (maxrank : Z) (randomized_svd : bool) :
  sat quiet (fun r : PEPS T * option Z => on_numpy r.1 ∧ r.2 = None)
      (run_peps ops nrow ncol steps normfreq numpy threshold maxrank randomized_svd).
Proof.
  unfold run_peps. cbv zeta. change (is_ctf numpy) with false. cbv iota.
  eapply sat_bind; [by apply (sat_ret _ (fun _ => True))|]. intros _ _.
  apply (sat_bind _ on_numpy).
  { unfold peps_random. eapply sat_bind; [by apply sat_emit|]. intros. by apply sat_ret. }
  intros q0 Hq0.
  eapply sat_bind; [by apply (sat_ret _ (fun _ => True))|]. intros _ _.
  apply (sat_bind _ on_numpy).
  - apply sat_foldM; [|done]. intros q i Hq. unfold run_peps_iteration.
    apply (sat_bind _ on_numpy).
    + rewrite Hq. apply sat_with_timer; [done|done|by intros [=]|].
      unfold apply_trottered_step_operators. apply (sat_bind _ on_numpy).
      * apply sat_foldM; [|done]. intros. by apply horizontal_update_quiet.
      * intros q' Hq'. apply sat_foldM; [|done]. intros. by apply vertical_update_quiet.
    + intros q' Hq'. eapply sat_bind; [apply sat_lift|]. intros r _.
      destruct (bool_decide (r = 0)); [|by apply sat_ret].
      unfold site_normalize. eapply sat_bind; [by apply sat_emit|]. intros. by apply sat_ret.
  - intros q Hq. apply (sat_bind _ (fun flops => flops = None)); [by apply sat_ret|].
    intros flops ->. by apply sat_ret.
Qed.
End numpy_runs.

(** X3: on the numpy backend no run of [main] calls [ctf], whether it
    returns or raises; when it returns, the state lives on numpy and no
    flop count is reported ([flops] is [None]). *)
Theorem numpy_run_never_calls_ctf {T : Type} {TB : TensorBackend T} {ST : Sites T}
    {FC : FlopCounter} (a : args) :
  backend a = numpy →
  Forall (fun e => is_ctf_call e = false) (trace (main a))
  ∧ ∀ q flops, result (main a) = Ok (q, flops) → qbackend q = numpy ∧ flops = None.
Proof.
  intros Hb.
  assert (H : sat (fun e => is_ctf_call e = false)
                  (fun r : PEPS T * option Z => qbackend r.1 = numpy ∧ r.2 = None) (main a)).
  { unfold main. rewrite Hb. apply (sat_bind _ (fun _ => True)).
    - apply sat_with_timer; [done|done|by intros [=]|]. rewrite call_build_closed.
      split; [by apply builder_trace_Forall|done].
    - intros ops _. apply run_peps_quiet. }
  destruct H as [Ht Hr]. split; [done|]. intros q flops Hres. by apply (Hr (q, flops)).
Qed.

Lemma numpy_run_never_calls_ctf_witness :
  Forall (fun e => is_ctf_call e = false) (trace (main (T:=Free.term) default_args))
  ∧ ∀ q flops, result (main (T:=Free.term) default_args) = Ok (q, flops)
               → qbackend q = numpy ∧ flops = None.
Proof. apply (numpy_run_never_calls_ctf (T:=Free.term) default_args). reflexivity. Defined.

(** ** Runs that end early, and runs that do nothing *)

Lemma bind_continues {A B} (m : M A) (f : A → M B) a tr :
  m = Run (Ok a) tr → m ≫= f = Run (result (f a)) (tr ++ trace (f a)).
Proof. by intros ->. Qed.

Section edge_runs.
Context {T : Type} {ST : Sites T} {FC : FlopCounter}.

Lemma iteration_divides_by_zero (ops : dict edge (T * T) * dict edge (T * T))
    (k : Z) (q : PEPS T) (i : Z) :
  on_sites (dom (grid q)) ops.1 → on_sites (dom (grid q)) ops.2 →
  run_peps_iteration ops 0 k q i
  = Run (Raise ZeroDivisionError)
        (timed (qbackend q) "apply_trottered_step_operators"
           (step_trace (qbackend q) k (length ops.1) (length ops.2))).
Proof.
  intros Hh Hv. destruct (step_runs q _ _ k Hh Hv) as (g1 & Hrun & Hdom).
  unfold run_peps_iteration.
  rewrite (bind_continues _ _ _ _ (with_timer_runs _ _ _ _ _ Hrun)).
  simpl. by rewrite app_nil_r.
Qed.

Lemma range_nonpositive (n : Z) : n ≤ 0 → range n = [].
Proof. intros. unfold range, seqZ. by replace (Z.to_nat n) with 0%nat by lia. Qed.

Lemma range_cons (n : Z) : 1 ≤ n → range n = 0 :: seqZ 1 (n - 1).
Proof.
  intros. unfold range. replace n with (Z.succ (n - 1)) at 1 by lia.
  rewrite seqZ_cons by lia. do 2 f_equal; lia.
Qed.
End edge_runs.

Lemma run_peps_divides_by_zero {T : Type} {ST : Sites T} {FC : FlopCounter}
    (ops : dict edge (T * T) * dict edge (T * T))
    (nrow ncol steps : Z) (backend : backend_name) (threshold : R)
    (maxrank : Z) (randomized_svd : bool) :
  1 ≤ steps →
  on_sites (list_to_set (index_pairs nrow ncol)) ops.1 →
  on_sites (list_to_set (index_pairs nrow ncol)) ops.2 →
  run_peps ops nrow ncol steps 0 backend threshold maxrank randomized_svd
  = Run (Raise ZeroDivisionError)
        (ctf_prelude backend ++ [EvRandom nrow ncol maxrank backend] ++ ctf_reset backend
         ++ timed backend "apply_trottered_step_operators"
              (step_trace backend maxrank (length ops.1) (length ops.2))).
Proof.
  intros Hsteps Hh Hv. unfold run_peps, peps_random.
  set (q0 := QState (list_to_map _) backend).
  assert (Hloop : foldM (run_peps_iteration ops 0 maxrank) q0 (range steps)
                  = Run (Raise ZeroDivisionError)
                        (timed backend "apply_trottered_step_operators"
                           (step_trace backend maxrank (length ops.1) (length ops.2)))).
  { rewrite range_cons by done. cbn [foldM].
    by rewrite (iteration_divides_by_zero ops maxrank q0 0)
      by (unfold q0; by rewrite dom_random_grid). }
  unfold ctf_prelude, ctf_reset.
  destruct (is_ctf backend); unfold emit, mbind, M_bind, mret, M_ret; simpl;
    rewrite Hloop; reflexivity.
Qed.

(** X4: with [normfreq = 0] and at least one step, a run whose operators
    sit on the lattice raises [ZeroDivisionError] at the end of the first
    step: the grid was created and the whole first Trotter step applied,
    nothing was normalized, and on a [ctf] backend the epoch that was begun
    is never ended and the flop count never read. *)
Theorem zero_normfreq_raises {T : Type} {ST : Sites T} {FC : FlopCounter}
    (ops : dict edge (T * T) * dict edge (T * T))
    (nrow ncol steps : Z) (backend : backend_name) (threshold : R)
    (maxrank : Z) (randomized_svd : bool) :
  1 ≤ steps →
  on_sites (list_to_set (index_pairs nrow ncol)) ops.1 →
  on_sites (list_to_set (index_pairs nrow ncol)) ops.2 →
  run_peps ops nrow ncol steps 0 backend threshold maxrank randomized_svd
  = Run (Raise ZeroDivisionError)
        (ctf_prelude backend ++ [EvRandom nrow ncol maxrank backend] ++ ctf_reset backend
         ++ timed backend "apply_trottered_step_operators"
              (step_trace backend maxrank (length ops.1) (length ops.2))).
Proof. apply run_peps_divides_by_zero. Qed.

Lemma zero_normfreq_raises_witness :
  run_peps (free_operators 2 2) 2 2 3 0 ctf 0 1 false
  = Run (Raise ZeroDivisionError)
        (ctf_prelude ctf ++ [EvRandom 2 2 1 ctf] ++ ctf_reset ctf
         ++ timed ctf "apply_trottered_step_operators"
              (step_trace ctf 1 (length (free_operators 2 2).1)
                 (length (free_operators 2 2).2))).
Proof.
  apply (zero_normfreq_raises (free_operators 2 2) 2 2 3 ctf 0 1 false).
  - lia.
  - refine (bool_decide_unpack _ _). vm_compute. exact I.
  - refine (bool_decide_unpack _ _). vm_compute. exact I.
Defined.

Lemma expected_marks_opp (steps normfreq : Z) :
  expected_marks steps (- normfreq) = expected_marks steps normfreq.
Proof.
  unfold expected_marks. apply list_bind_ext; [|done]. intros i. f_equal.
  rewrite (bool_decide_ext (i `mod` (- normfreq) = 0) (i `mod` normfreq = 0)); [done|]. destruct (decide (normfreq = 0)) as [->|Hnz]; [done|].
  rewrite !Z.mod_divide by lia. apply Z.divide_opp_l.
Qed.

(** X5: a negative [normfreq] is accepted and counts as its absolute
    value: a run whose operators sit on the lattice returns, and
    [site_normalize] is called right after each completed step whose
    1-based index is a multiple of [-normfreq] and at no other time. *)
Theorem negative_normfreq_schedule {T : Type} {ST : Sites T} {FC : FlopCounter}
    (ops : dict edge (T * T) * dict edge (T * T))
    (nrow ncol steps normfreq : Z) (backend : backend_name) (threshold : R)
    (maxrank : Z) (randomized_svd : bool) :
  normfreq ≤ -1 →
  on_sites (list_to_set (index_pairs nrow ncol)) ops.1 →
  on_sites (list_to_set (index_pairs nrow ncol)) ops.2 →
  let run := run_peps ops nrow ncol steps normfreq backend threshold maxrank randomized_svd in
  (∃ final, result run = Ok final)
  ∧ marks (trace run) = expected_marks steps (- normfreq).
Proof.
  intros Hnf Hh Hv run.
  destruct (run_peps_runs ops nrow ncol steps normfreq backend threshold maxrank
              randomized_svd) as (final & Hrun); [lia|done|done|].
  subst run. rewrite Hrun. split; [by exists final|]. cbn [trace].
  rewrite !marks_app, marks_loop_trace, expected_marks_opp.
  unfold ctf_prelude, ctf_reset, ctf_postlude.
  destruct (is_ctf backend); simpl; by rewrite app_nil_r.
Qed.

Lemma negative_normfreq_schedule_witness :
  let run := run_peps (free_operators 2 2) 2 2 5 (-2) numpy 0 1 false in
  (∃ final, result run = Ok final)
  ∧ marks (trace run)
    = [StepDone; StepDone; Normalized; StepDone; StepDone; Normalized; StepDone].
Proof.
  apply (negative_normfreq_schedule (free_operators 2 2) 2 2 5 (-2) numpy 0 1 false).
  - lia.
  - refine (bool_decide_unpack _ _). vm_compute. exact I.
  - refine (bool_decide_unpack _ _). vm_compute. exact I.
Defined.

(** X6: with [steps <= 0] (a negative number of steps is accepted) the
    loop body never runs, whatever [normfreq] is, zero included: the run
    returns the state [peps.random] made and, apart from that constructor
    and the [ctf] counters, calls nothing. *)
Theorem nonpositive_steps_update_nothing {T : Type} {ST : Sites T} {FC : FlopCounter}
    (ops : dict edge (T * T) * dict edge (T * T))
    (nrow ncol steps normfreq : Z) (backend : backend_name) (threshold : R)
    (maxrank : Z) (randomized_svd : bool) :
  steps ≤ 0 →
  let init := peps_random nrow ncol maxrank backend in
  let run := run_peps ops nrow ncol steps normfreq backend threshold maxrank randomized_svd in
  ∃ q0, result init = Ok q0
        ∧ result run = Ok (q0, if is_ctf backend then Some (get_estimated_flops []) else None)
        ∧ trace run = ctf_prelude backend ++ trace init ++ ctf_reset backend
                      ++ ctf_postlude backend.
Proof.
  intros Hsteps. simpl. eexists. split; [reflexivity|].
  unfold run_peps, ctf_prelude, ctf_reset, ctf_postlude.
  rewrite range_nonpositive by done.
  destruct (is_ctf backend); split; reflexivity.
Qed.

Lemma nonpositive_steps_update_nothing_witness :
  let init := peps_random (T:=Free.term) 2 2 1 ctf in
  let run := run_peps (free_operators 2 2) 2 2 (-3) 0 ctf 0 1 false in
  ∃ q0, result init = Ok q0
        ∧ result run = Ok (q0, Some 0)
        ∧ trace run = ctf_prelude ctf ++ trace init ++ ctf_reset ctf ++ ctf_postlude ctf.
Proof.
  exact (nonpositive_steps_update_nothing (free_operators 2 2) 2 2 (-3) 0 ctf 0 1 false
           ltac:(lia)).
Defined.

(** ** The entry point as a whole *)

Section main_props.
Context {T : Type} {TB : TensorBackend T} {ST : Sites T} {FC : FlopCounter}.

(** The maps the builder returns are keyed by pairs of distinct sites of
    the lattice, one entry per bond. *)
Lemma built_on_sites (J h : R) (nrows ncols : Z) (tau : R) (backend : backend_name) :
  1 ≤ nrows → 1 ≤ ncols →
  ∃ ops, build_tfi_trottered_step_operators J h nrows ncols tau backend = Ok ops
         ∧ on_sites (list_to_set (index_pairs nrows ncols)) ops.1
         ∧ on_sites (list_to_set (index_pairs nrows ncols)) ops.2
         ∧ Z.of_nat (length ops.1) = nrows * (ncols - 1)
         ∧ Z.of_nat (length ops.2) = (nrows - 1) * ncols.
Proof.
  intros Hr Hc. eexists. split; [by apply build_closed|]. cbn [fst snd].
  unfold on_sites, to_backend, expected_hoperators, expected_voperators.
  rewrite !length_fmap, !length_index_pairs by lia.
  split; [|split; [|done]].
  - rewrite !Forall_fmap. apply Forall_forall. intros [i j] Hij%elem_of_index_pairs.
    simpl. rewrite !elem_of_list_to_set, !elem_of_index_pairs.
    split; [intros [=]; lia|lia].
  - rewrite !Forall_fmap. apply Forall_forall. intros [i j] Hij%elem_of_index_pairs.
    simpl. rewrite !elem_of_list_to_set, !elem_of_index_pairs.
    split; [intros [=]; lia|lia].
Qed.

Lemma run_peps_returns (ops : dict edge (T * T) * dict edge (T * T))
    (nrow ncol steps normfreq : Z) (backend : backend_name) (threshold : R)
    (maxrank : Z) (randomized_svd : bool) :
  normfreq ≠ 0 ∨ steps ≤ 0 →
  on_sites (list_to_set (index_pairs nrow ncol)) ops.1 →
  on_sites (list_to_set (index_pairs nrow ncol)) ops.2 →
  ∃ g flops,
    result (run_peps ops nrow ncol steps normfreq backend threshold maxrank randomized_svd)
    = Ok (QState g backend, flops)
    ∧ dom g = list_to_set (index_pairs nrow ncol)
    ∧ (flops = None ↔ is_ctf backend = false).
Proof.
  intros Hcase Hh Hv. unfold run_peps, peps_random.
  set (q0 := QState (list_to_map _) backend).
  assert (Hloop : ∃ g tr, foldM (run_peps_iteration ops normfreq maxrank) q0 (range steps)
                          = Run (Ok (QState g backend)) tr
                          ∧ dom g = list_to_set (index_pairs nrow ncol)).
  { destruct (decide (normfreq = 0)) as [Hz|Hnz].
    - destruct Hcase as [?|Hsteps]; [done|]. rewrite range_nonpositive by done.
      exists (grid q0), []. split; [done|]. apply dom_random_grid.
    - destruct (loop_runs ops normfreq maxrank (range steps) q0 Hnz) as (g & Hloop & Hdom).
      { unfold q0. by rewrite dom_random_grid. }
      { unfold q0. by rewrite dom_random_grid. }
      exists g. eexists. split; [exact Hloop|]. rewrite Hdom. apply dom_random_grid. }
  destruct Hloop as (g & tr & Hloop & Hdom). exists g.
  destruct (is_ctf backend); eexists; unfold emit, mbind, M_bind, mret, M_ret; simpl;
    rewrite Hloop; simpl; (split; [reflexivity|]); (split; [done|]); by split.
Qed.
End main_props.

(** X7: how [main] ends.  It raises [ValueError] when [nrow <= 0] or
    [ncol <= 0]; on a lattice with [nrow, ncol >= 1] it raises
    [ZeroDivisionError] when [normfreq = 0] and [steps >= 1]; in every
    other case it returns: no lookup of a site fails, the state holds
    exactly the sites of the lattice on the backend asked for, and a flop
    count is reported exactly on [ctf] and [ctfview]. *)
Theorem main_outcome {T : Type} {TB : TensorBackend T} {ST : Sites T} {FC : FlopCounter}
    (a : args) :
  (nrow a ≤ 0 ∨ ncol a ≤ 0 → result (main a) = Raise ValueError)
  ∧ (1 ≤ nrow a → 1 ≤ ncol a → normfreq a = 0 → 1 ≤ steps a →
     result (main a) = Raise ZeroDivisionError)
  ∧ (1 ≤ nrow a → 1 ≤ ncol a → normfreq a ≠ 0 ∨ steps a ≤ 0 →
     ∃ g flops,
       result (main a) = Ok (QState g (backend a), flops)
       ∧ dom g = list_to_set (index_pairs (nrow a) (ncol a))
       ∧ (flops = None ↔ is_ctf (backend a) = false)).
Proof.
  split; [|split].
  - intros Hbad. by rewrite main_raises.
  - intros Hr Hc Hnf Hsteps.
    destruct (main_reaches_run_peps a Hr Hc) as (ops & Hops & -> & _).
    destruct (built_on_sites (coupling a) (field a) (nrow a) (ncol a) (tau a) (backend a))
      as (ops' & Hops' & Hh & Hv & _); [done|done|].
    assert (ops' = ops) as -> by congruence.
    by rewrite Hnf, run_peps_divides_by_zero.
  - intros Hr Hc Hcase.
    destruct (main_reaches_run_peps a Hr Hc) as (ops & Hops & -> & _).
    destruct (built_on_sites (coupling a) (field a) (nrow a) (ncol a) (tau a) (backend a))
      as (ops' & Hops' & Hh & Hv & _); [done|done|].
    assert (ops' = ops) as -> by congruence.
    by apply run_peps_returns.
Qed.

Lemma main_outcome_witness :
  result (main (T:=Free.term) (Args 0 3 1 (2 / 10) 1 (1 / 100) 10 numpy (1 / 100000) 1 false))
  = Raise ValueError
  ∧ result (main (T:=Free.term)
              (Args 2 2 1 (2 / 10) 4 (1 / 100) 0 numpy (1 / 100000) 1 false))
    = Raise ZeroDivisionError
  ∧ ∃ g flops,
      result (main (T:=Free.term)
                (Args 2 2 1 (2 / 10) 4 (1 / 100) 2 numpy (1 / 100000) 1 false))
      = Ok (QState g numpy, flops)
      ∧ dom g = list_to_set (index_pairs 2 2)
      ∧ (flops = None ↔ is_ctf numpy = false).
Proof.
  split; [|split].
  - apply (main_outcome (Args 0 3 1 (2 / 10) 1 (1 / 100) 10 numpy (1 / 100000) 1 false)).
    left. simpl. lia.
  - apply (main_outcome (Args 2 2 1 (2 / 10) 4 (1 / 100) 0 numpy (1 / 100000) 1 false));
      simpl; lia.
  - apply (main_outcome (Args 2 2 1 (2 / 10) 4 (1 / 100) 2 numpy (1 / 100000) 1 false));
      simpl; lia.
Defined.

(** ** How many site operations a run performs *)

Lemma count_app (p : event → bool) (l1 l2 : list event) :
  count p (l1 ++ l2) = count p l1 + count p l2.
Proof. unfold count. rewrite List.filter_app, length_app. lia. Qed.

Lemma count_cons (p : event → bool) (e : event) (l : list event) :
  count p (e :: l) = Z.b2z (p e) + count p l.
Proof. unfold count. simpl. destruct (p e); simpl; lia. Qed.

Lemma count_nil (p : event → bool) : count p [] = 0.
Proof. done. Qed.

(** The number of multiples of [k] among [1, ..., n]. *)
Lemma count_multiples (k : Z) (n : nat) :
  1 ≤ k →
  sum_list_with (fun i => if bool_decide ((i + 1) `mod` k = 0) then 1%nat else 0%nat)
                (seqZ 0 (Z.of_nat n))
  = Z.to_nat (Z.of_nat n / k).
Proof.
  intros Hk. induction n as [|n IH].
  - by rewrite Z.div_0_l by lia.
  - rewrite seqZ_S, sum_list_with_app, IH. simpl. rewrite Z.add_0_l, Nat2Z.inj_succ.
    pose proof (Z.div_mod (Z.of_nat n) k ltac:(lia)) as Hn.
    pose proof (Z.mod_pos_bound (Z.of_nat n) k ltac:(lia)) as Hb.
    pose proof (Z.div_pos (Z.of_nat n) k ltac:(lia) ltac:(lia)) as Hq.
    unfold Z.succ. case_bool_decide as Hmod.
    + assert ((Z.of_nat n + 1) / k = Z.of_nat n / k + 1) as ->;
        [|clear -Hq; generalize dependent (Z.of_nat n / k); intros; lia].
      apply Z.mod_divide in Hmod as [c Hc]; [|lia].
      set (q := Z.of_nat n / k) in *. set (r := Z.of_nat n `mod` k) in *.
      assert (1 ≤ c - q) by nia. assert (c - q ≤ 1) by nia.
      symmetry. apply (Z.div_unique _ _ _ 0); nia.
    + assert ((Z.of_nat n + 1) / k = Z.of_nat n / k) as ->; [|lia].
      symmetry. apply (Z.div_unique _ _ _ (Z.of_nat n `mod` k + 1)); [|lia].
      left. split; [lia|].
      destruct (decide (Z.of_nat n `mod` k + 1 = k)) as [Heq|]; [|lia].
      exfalso. apply Hmod. apply Z.mod_divide; [lia|].
      exists (Z.of_nat n / k + 1). lia.
Qed.

Section counting.
Variable p : event → bool.
Hypothesis p_enter : ∀ name, p (EvEnter name) = false.
Hypothesis p_exit : ∀ name, p (EvExit name) = false.
Hypothesis p_ctf : ∀ call, p (EvCtf call) = false.
Hypothesis p_random : ∀ nrow ncol maxrank backend, p (EvRandom nrow ncol maxrank backend) = false.

Lemma count_timed (backend : backend_name) (name : string) (tr : list event) :
  count p (timed backend name tr) = count p tr.
Proof.
  unfold timed, timer_start, timer_stop.
  destruct (is_ctf backend); simpl;
    rewrite ?count_cons, ?count_app, ?count_cons, ?count_nil, ?p_enter, ?p_exit, ?p_ctf;
    simpl; lia.
Qed.

Lemma count_update_trace (backend : backend_name) (reduce : event) :
  count p (update_trace backend reduce) = 2 * Z.b2z (p EvContractZ) + Z.b2z (p reduce).
Proof.
  unfold update_trace. rewrite count_app, !count_timed, !count_cons, count_nil. lia.
Qed.

Lemma count_sweep_trace (backend : backend_name) (reduce : event) (n : nat) :
  count p (sweep_trace backend reduce n)
  = Z.of_nat n * (2 * Z.b2z (p EvContractZ) + Z.b2z (p reduce)).
Proof.
  unfold sweep_trace. induction n as [|n IH]; [done|].
  cbn [replicate concat]. rewrite count_app, IH, count_update_trace. lia.
Qed.

Lemma count_iterations (backend : backend_name) (k : Z) (nh nv : nat)
    (normfreq : Z) (l : list Z) :
  count p (i ← l; iteration_trace backend k nh nv normfreq i)
  = Z.of_nat (length l)
    * (Z.of_nat nh * (2 * Z.b2z (p EvContractZ) + Z.b2z (p (EvReduceY (ImplicitRandomizedSVD k))))
       + Z.of_nat nv * (2 * Z.b2z (p EvContractZ) + Z.b2z (p (EvReduceX (ImplicitRandomizedSVD k)))))
    + Z.of_nat (sum_list_with
                  (fun i => if bool_decide ((i + 1) `mod` normfreq = 0) then 1%nat else 0%nat) l)
      * Z.b2z (p EvSiteNormalize).
Proof.
  induction l as [|i l IH]; [done|].
  rewrite bind_cons, count_app, IH. unfold iteration_trace, step_trace.
  rewrite count_app, count_timed, count_app, !count_sweep_trace.
  cbn [length sum_list_with]. case_bool_decide; rewrite ?count_cons, ?count_nil; lia.
Qed.

Lemma count_builder_trace (nrows ncols : Z) :
  1 ≤ nrows → 1 ≤ ncols →
  count p (builder_trace nrows ncols)
  = (if bool_decide (2 ≤ ncols) then nrows * ncols else 0) * Z.b2z (p EvContractZ).
Proof.
  intros Hr Hc. unfold builder_trace.
  destruct (decide (2 ≤ ncols)) as [H2|H2].
  - rewrite !bool_decide_eq_true_2 by done.
    replace (nrows * ncols) with (Z.of_nat (Z.to_nat (nrows * ncols))) at 2 by nia.
    induction (Z.to_nat (nrows * ncols)) as [|n IH]; [done|].
    cbn [replicate]. rewrite count_cons, IH. lia.
  - rewrite !bool_decide_eq_false_2 by tauto. done.
Qed.

Lemma count_run_trace (backend : backend_name) (nrow ncol k : Z) (nh nv : nat)
    (normfreq steps : Z) :
  1 ≤ nrow → 1 ≤ ncol → 1 ≤ normfreq → 0 ≤ steps →
  count p (timed backend "build_operators" (builder_trace nrow ncol)
           ++ ctf_prelude backend ++ [EvRandom nrow ncol k backend] ++ ctf_reset backend
           ++ (i ← range steps; iteration_trace backend k nh nv normfreq i)
           ++ ctf_postlude backend)
  = (if bool_decide (2 ≤ ncol) then nrow * ncol else 0) * Z.b2z (p EvContractZ)
    + steps
      * (Z.of_nat nh * (2 * Z.b2z (p EvContractZ) + Z.b2z (p (EvReduceY (ImplicitRandomizedSVD k))))
         + Z.of_nat nv * (2 * Z.b2z (p EvContractZ) + Z.b2z (p (EvReduceX (ImplicitRandomizedSVD k)))))
    + steps / normfreq * Z.b2z (p EvSiteNormalize).
Proof.
  intros Hr Hc Hnf Hsteps.
  rewrite !count_app, count_timed, count_builder_trace, count_iterations by done.
  replace steps with (Z.of_nat (Z.to_nat steps)) by lia.
  unfold range. rewrite length_seqZ, count_multiples, Nat2Z.id by done.
  rewrite !Z2Nat.id by first [lia | apply Z.div_pos; lia].
  unfold ctf_prelude, ctf_reset, ctf_postlude.
  destruct (is_ctf backend); rewrite ?count_cons, ?count_nil, ?p_ctf, ?p_random; simpl; lia.
Qed.
End counting.

(** X8: what a run of [main] costs on an [nrow] by [ncol] lattice, for
    [steps >= 0] and [normfreq >= 1].  Building the operators takes one
    [contract_z] per site when the lattice has two columns or more, and
    none on a single column; every step takes two [contract_z] per bond,
    one [reduce_y] per horizontal bond and one [reduce_x] per vertical
    bond; and there are [steps / normfreq] (rounded down) normalizations. *)
Theorem operation_counts {T : Type} {TB : TensorBackend T} {ST : Sites T}
    {FC : FlopCounter} (a : args) :
  1 ≤ nrow a → 1 ≤ ncol a → 0 ≤ steps a → 1 ≤ normfreq a →
  let tr := trace (main a) in
  let built := if bool_decide (2 ≤ ncol a) then nrow a * ncol a else 0 in
  let horizontal := nrow a * (ncol a - 1) in
  let vertical := (nrow a - 1) * ncol a in
  count is_contraction tr = built + 2 * steps a * (horizontal + vertical)
  ∧ count is_reduce_y tr = steps a * horizontal
  ∧ count is_reduce_x tr = steps a * vertical
  ∧ count is_normalization tr = steps a / normfreq a.
Proof.
  intros Hr Hc Hsteps Hnf.
  destruct (main_reaches_run_peps a Hr Hc) as (ops & Hops & _ & Htr).
  destruct (built_on_sites (coupling a) (field a) (nrow a) (ncol a) (tau a) (backend a))
    as (ops' & Hops' & Hh & Hv & Hlh & Hlv); [done|done|].
  assert (ops' = ops) as -> by congruence.
  destruct (run_peps_runs ops (nrow a) (ncol a) (steps a) (normfreq a) (backend a)
              (threshold a) (maxrank a) (randomized_svd a)) as (final & Hrun);
    [lia|done|done|].
  rewrite Hrun in Htr. cbn [trace] in Htr. cbv zeta. rewrite Htr.
  rewrite (count_run_trace is_contraction), (count_run_trace is_reduce_y),
    (count_run_trace is_reduce_x), (count_run_trace is_normalization) by done.
  simpl. case_bool_decide; nia.
Qed.

Lemma operation_counts_witness :
  let tr := trace (main (T:=Free.term)
                     (Args 2 3 1 (2 / 10) 5 (1 / 100) 2 numpy (1 / 100000) 1 false)) in
  count is_contraction tr = 76
  ∧ count is_reduce_y tr = 20
  ∧ count is_reduce_x tr = 15
  ∧ count is_normalization tr = 2.
Proof.
  apply (operation_counts (T:=Free.term)
           (Args 2 3 1 (2 / 10) 5 (1 / 100) 2 numpy (1 / 100000) 1 false)); simpl; lia.
Defined.

(** ** The edge enumerator and the builder on degenerate lattices *)

(** X9: the sizes the edge enumerators accept.  [horizontal_links] raises
    [ValueError] exactly when [nrows < 0] or [ncols < 1], [vertical_links]
    exactly when [nrows < 1] or [ncols < 0] (so a lattice without rows is
    fine for the first and an error for the second); the first yields
    nothing exactly on the accepted lattices with no row or one column,
    the second on those with one row or no column. *)
Theorem links_reject_negative_sizes (nrows ncols : Z) :
  (horizontal_links nrows ncols = Raise ValueError ↔ nrows < 0 ∨ ncols < 1)
  ∧ (vertical_links nrows ncols = Raise ValueError ↔ nrows < 1 ∨ ncols < 0)
  ∧ (horizontal_links nrows ncols = Ok [] ↔ 0 ≤ nrows ∧ 1 ≤ ncols ∧ (nrows = 0 ∨ ncols = 1))
  ∧ (vertical_links nrows ncols = Ok [] ↔ 1 ≤ nrows ∧ 0 ≤ ncols ∧ (nrows = 1 ∨ ncols = 0)).
Proof.
  assert (Hempty : ∀ n m, 0 ≤ n → 0 ≤ m → index_pairs n m = [] ↔ n = 0 ∨ m = 0).
  { intros n m Hn Hm. rewrite <- length_zero_iff_nil.
    pose proof (length_index_pairs n m Hn Hm). split; [nia|]. intros [-> | ->]; lia. }
  unfold horizontal_links, vertical_links, ndindex.
  split; [|split; [|split]].
  - case_bool_decide; simpl; (split; [try done; lia|try done; lia]).
  - case_bool_decide; simpl; (split; [try done; lia|try done; lia]).
  - case_bool_decide; simpl; [split; [done|lia]|]. split.
    + intros [= Hnil%fmap_nil_inv]. apply Hempty in Hnil; lia.
    + intros (? & ? & ?). by rewrite (proj2 (Hempty nrows (ncols - 1) ltac:(lia) ltac:(lia))) by lia.
  - case_bool_decide; simpl; [split; [done|lia]|]. split.
    + intros [= Hnil%fmap_nil_inv]. apply Hempty in Hnil; lia.
    + intros (? & ? & ?). by rewrite (proj2 (Hempty (nrows - 1) ncols ltac:(lia) ltac:(lia))) by lia.
Qed.

Lemma NoDup_links (n m : Z) (f g : Z * Z → edge) :
  Inj (=) (=) f → Inj (=) (=) g → (∀ x y, f x ≠ g y) →
  ∀ l1 l2 : list (Z * Z), NoDup l1 → NoDup l2 → NoDup ((f <$> l1) ++ (g <$> l2)).
Proof.
  intros Hf Hg Hfg l1 l2 H1 H2. apply NoDup_app. split; [by apply NoDup_fmap_2|].
  split; [|by apply NoDup_fmap_2].
  intros e (x & -> & _)%list_elem_of_fmap (y & Heq & _)%list_elem_of_fmap. by eapply Hfg.
Qed.

(** X10: what the edge enumerators yield when they do not raise: no edge
    twice, horizontally or vertically; the horizontal links are exactly
    the pairs of a site of the lattice and its right neighbour in the
    lattice, the vertical links exactly the pairs of a site and its lower
    neighbour. *)
Theorem links_join_neighbours (nrows ncols : Z) (hl vl : list edge) :
  horizontal_links nrows ncols = Ok hl → vertical_links nrows ncols = Ok vl →
  NoDup (hl ++ vl)
  ∧ (∀ a b, (a, b) ∈ hl ↔
       a ∈ index_pairs nrows ncols ∧ b ∈ index_pairs nrows ncols ∧ b = (a.1, a.2 + 1))
  ∧ (∀ a b, (a, b) ∈ vl ↔
       a ∈ index_pairs nrows ncols ∧ b ∈ index_pairs nrows ncols ∧ b = (a.1 + 1, a.2)).
Proof.
  unfold horizontal_links, vertical_links, ndindex.
  repeat case_bool_decide; simpl; try done. intros [= <-] [= <-].
  split; [|split].
  - apply (NoDup_links nrows ncols); try apply NoDup_index_pairs.
    + intros [i j] [i' j'] [=]. by subst.
    + intros [i j] [i' j'] [=]. by subst.
    + intros [i j] [i' j'] [=]. lia.
  - intros [i j] [i' j']. rewrite list_elem_of_fmap, !elem_of_index_pairs. simpl. split.
    + intros ([x y] & [=] & Hxy%elem_of_index_pairs). subst. split; [lia|]. split; [lia|done].
    + intros (Ha & Hb & [=]). subst. exists (i, j). split; [done|].
      apply elem_of_index_pairs. lia.
  - intros [i j] [i' j']. rewrite list_elem_of_fmap, !elem_of_index_pairs. simpl. split.
    + intros ([x y] & [=] & Hxy%elem_of_index_pairs). subst. split; [lia|]. split; [lia|done].
    + intros (Ha & Hb & [=]). subst. exists (i, j). split; [done|].
      apply elem_of_index_pairs. lia.
Qed.

Lemma links_join_neighbours_witness :
  NoDup ([((0, 0), (0, 1)); ((0, 1), (0, 2)); ((1, 0), (1, 1)); ((1, 1), (1, 2))]
         ++ [((0, 0), (1, 0)); ((0, 1), (1, 1)); ((0, 2), (1, 2))] : list edge)
  ∧ (∀ a b, (a, b) ∈ ([((0, 0), (0, 1)); ((0, 1), (0, 2)); ((1, 0), (1, 1)); ((1, 1), (1, 2))]
                       : list edge) ↔
       a ∈ index_pairs 2 3 ∧ b ∈ index_pairs 2 3 ∧ b = (a.1, a.2 + 1))
  ∧ (∀ a b, (a, b) ∈ ([((0, 0), (1, 0)); ((0, 1), (1, 1)); ((0, 2), (1, 2))] : list edge) ↔
       a ∈ index_pairs 2 3 ∧ b ∈ index_pairs 2 3 ∧ b = (a.1 + 1, a.2)).
Proof. apply (links_join_neighbours 2 3); reflexivity. Defined.

(** X11: the operator builder raises [ValueError] exactly when
    [nrows <= 0] or [ncols <= 0] (a lattice without rows passes the first
    loop and is refused by the second), and returns exactly when
    [nrows, ncols >= 1]; it raises nothing else. *)
Theorem builder_rejects_empty_lattices {T : Type} {TB : TensorBackend T} {ST : Sites T}
    (J h : R) (nrows ncols : Z) (tau : R) (backend : backend_name) :
  (build_tfi_trottered_step_operators J h nrows ncols tau backend = Raise ValueError
   ↔ nrows ≤ 0 ∨ ncols ≤ 0)
  ∧ ((∃ ops, build_tfi_trottered_step_operators J h nrows ncols tau backend = Ok ops)
     ↔ 1 ≤ nrows ∧ 1 ≤ ncols).
Proof.
  destruct (decide (nrows ≤ 0 ∨ ncols ≤ 0)) as [Hbad|Hok].
  - rewrite (build_raises J h nrows ncols tau backend Hbad).
    split; (split; [|lia || done]); [done|]. by intros [ops [=]].
  - destruct (build_returns J h nrows ncols tau backend) as [ops ->]; [lia|lia|].
    split; (split; [|lia || eauto]); [done|lia].
Qed.

(** X12: one Trotter step with operators that sit on the sites of the
    state never fails: it returns a state on the same backend with the
    same set of sites, after the bond updates of all horizontal and then
    all vertical operators and nothing else. *)
Theorem trotter_step_keeps_lattice {T : Type} {ST : Sites T} {FC : FlopCounter}
    (q : PEPS T) (hops vops : dict edge (T * T)) (k : Z) :
  on_sites (dom (grid q)) hops → on_sites (dom (grid q)) vops →
  ∃ g', apply_trottered_step_operators q hops vops k
        = Run (Ok (QState g' (qbackend q)))
              (step_trace (qbackend q) k (length hops) (length vops))
        ∧ dom g' = dom (grid q).
Proof. apply step_runs. Qed.

Lemma trotter_step_keeps_lattice_witness :
  ∃ g', apply_trottered_step_operators shaped_state shaped_operators.1 shaped_operators.2 3
        = Run (Ok (QState g' numpy))
              (step_trace numpy 3 (length shaped_operators.1) (length shaped_operators.2))
        ∧ dom g' = dom (grid shaped_state).
Proof.
  apply (trotter_step_keeps_lattice shaped_state shaped_operators.1 shaped_operators.2 3).
  - refine (bool_decide_unpack _ _). vm_compute. exact I.
  - refine (bool_decide_unpack _ _). vm_compute. exact I.
Defined.

(** ** The coupling of the factorized gate *)

Module DenseScaling.
Import Dense DenseProps.
Local Open Scope R_scope.

Lemma exp_pauli_zz_pow4 (c : R) (x y u v : nat) :
  (x < 2)%nat → (y < 2)%nat → (u < 2)%nat → (v < 2)%nat →
  exp_pauli_zz c [x; y; u; v] ^ 4 = exp_pauli_zz (4 * c) [x; y; u; v].
Proof.
  intros Hx Hy Hu Hv. destruct (decide ((x, y) = (u, v))) as [[= <- <-]|Hne].
  - rewrite !exp_pauli_zz_diagonal, exp_pow4 by done.
    f_equal. destruct (x =? y)%nat; ring.
  - rewrite !exp_pauli_zz_off_diagonal by done. ring.
Qed.

(** X13: with the singular values in descending order and the unit
    vectors as singular vectors, the two factors of either orientation,
    contracted over the gate bond, give in every entry the two-site
    operator of four times the coupling, [exp(4*c*ZZ)] for [exp(c*ZZ)]. *)
Theorem pair_site_factors_quadruple_coupling (c : R) :
  reconstructs contract_horizontal (horizontal_factors c) (exp_pauli_zz (4 * c))
  ∧ reconstructs contract_vertical (vertical_factors c) (exp_pauli_zz (4 * c)).
Proof.
  split; intros x y u v Hx Hy Hu Hv.
  - by rewrite horizontal_contraction_entries, exp_pauli_zz_pow4.
  - by rewrite vertical_contraction_entries, exp_pauli_zz_pow4.
Qed.
End DenseScaling.

(** ** The pair groups and the layers of a random circuit *)

Module RqcBondsProps.
Import Rqc RqcSpec RqcProps RqcBonds.

(** Qubit numbers are the positions of the sites in row-major order. *)
Lemma as_qubit_inj (ncol i j i' j' : Z) :
  0 ≤ j < ncol → 0 ≤ j' < ncol →
  as_qubit ncol i j = as_qubit ncol i' j' → i = i' ∧ j = j'.
Proof.
  unfold as_qubit. intros Hj Hj' Heq.
  destruct (Z.lt_trichotomy i i') as [Hlt|[->|Hgt]]; [|lia|].
  - assert (ncol ≤ (i' - i) * ncol) by nia. lia.
  - assert (ncol ≤ (i - i') * ncol) by nia. lia.
Qed.

(** X14: [as_qubit] numbers the sites of the lattice in row-major order:
    over [np.ndindex(nrow, ncol)] it yields [0, 1, ..., nrow*ncol - 1],
    the list [qubits], so every qubit is the number of exactly one site. *)
Theorem as_qubit_enumerates_qubits (nrow ncol : Z) :
  0 ≤ nrow → 0 ≤ ncol →
  (fun ij : Z * Z => as_qubit ncol ij.1 ij.2) <$> index_pairs nrow ncol
  = range (nrow * ncol).
Proof.
  intros Hr Hc. rewrite <- (Z2Nat.id nrow) by done.
  induction (Z.to_nat nrow) as [|n IH]; [done|].
  rewrite index_pairs_succ_row, fmap_app, IH, <- list_fmap_compose.
  unfold range, as_qubit.
  replace (Z.of_nat (S n) * ncol) with (Z.of_nat n * ncol + ncol) by lia.
  rewrite seqZ_app by nia. f_equal. rewrite Z.add_0_l.
  transitivity (Z.add (Z.of_nat n * ncol) <$> seqZ 0 ncol); [by apply list_fmap_ext|].
  rewrite fmap_add_seqZ. f_equal. lia.
Qed.

Lemma as_qubit_enumerates_qubits_witness :
  (fun ij : Z * Z => as_qubit 3 ij.1 ij.2) <$> index_pairs 2 3 = [0; 1; 2; 3; 4; 5].
Proof. apply (as_qubit_enumerates_qubits 2 3); lia. Defined.

Lemma parity (i : Z) : i `mod` 2 = 0 ∨ i `mod` 2 = 1.
Proof. pose proof (Z.mod_pos_bound i 2). lia. Qed.

Lemma pairs_iteration_closed (nrow ncol : Z) (g0 g1 g2 g3 : list (Z * Z)) (ij : Z * Z) :
  pairs_iteration nrow ncol [g0; g1; g2; g3] ij
  = [g0 ++ (bond ncol 0 <$> filter (in_group nrow ncol 0) [ij]);
     g1 ++ (bond ncol 1 <$> filter (in_group nrow ncol 1) [ij]);
     g2 ++ (bond ncol 2 <$> filter (in_group nrow ncol 2) [ij]);
     g3 ++ (bond ncol 3 <$> filter (in_group nrow ncol 3) [ij])].
Proof.
  destruct ij as [i j]. unfold pairs_iteration.
  assert (Hin : ∀ k (P : Prop) (HP : Decision P), (in_group nrow ncol k (i, j) ↔ P) →
            bond ncol k <$> filter (in_group nrow ncol k) [(i, j)]
            = if bool_decide P then [bond ncol k (i, j)] else []).
  { intros k P ? HP. rewrite filter_cons, filter_nil.
    case_decide; case_bool_decide; naive_solver. }
  rewrite (Hin 0%nat (i ≠ nrow - 1 ∧ i `mod` 2 = 0) _),
    (Hin 1%nat (i ≠ nrow - 1 ∧ i `mod` 2 = 1) _),
    (Hin 2%nat (j ≠ ncol - 1 ∧ j `mod` 2 = 0) _),
    (Hin 3%nat (j ≠ ncol - 1 ∧ j `mod` 2 = 1) _) by done.
  unfold bond. cbn [fst snd Nat.ltb Nat.leb].
  destruct (parity i) as [Hi|Hi], (parity j) as [Hj|Hj]; rewrite Hi, Hj;
    repeat case_bool_decide; simpl; rewrite ?app_nil_r; try reflexivity;
    exfalso; naive_solver lia.
Qed.

Lemma pairs_loop_closed (nrow ncol : Z) (l : list (Z * Z)) (g0 g1 g2 g3 : list (Z * Z)) :
  foldl (pairs_iteration nrow ncol) [g0; g1; g2; g3] l
  = [g0 ++ (bond ncol 0 <$> filter (in_group nrow ncol 0) l);
     g1 ++ (bond ncol 1 <$> filter (in_group nrow ncol 1) l);
     g2 ++ (bond ncol 2 <$> filter (in_group nrow ncol 2) l);
     g3 ++ (bond ncol 3 <$> filter (in_group nrow ncol 3) l)].
Proof.
  revert g0 g1 g2 g3. induction l as [|ij l IH]; intros g0 g1 g2 g3.
  - by rewrite !filter_nil, !app_nil_r.
  - cbn [foldl]. rewrite pairs_iteration_closed, IH, <- !app_assoc, <- !fmap_app.
    by rewrite <- !filter_app.
Qed.

Lemma make_pairs_closed (nrow ncol : Z) :
  0 ≤ nrow → 0 ≤ ncol → make_pairs nrow ncol = Ok (expected_pairs nrow ncol).
Proof.
  intros Hr Hc. unfold make_pairs. rewrite ndindex_ok by done. simpl.
  by rewrite pairs_loop_closed.
Qed.

Lemma make_pairs_inv (nrow ncol : Z) (pairs : list (list (Z * Z))) :
  make_pairs nrow ncol = Ok pairs → 0 ≤ nrow ∧ 0 ≤ ncol ∧ pairs = expected_pairs nrow ncol.
Proof.
  intros Hpairs. destruct (decide (nrow < 0 ∨ ncol < 0)) as [Hneg|Hok].
  - unfold make_pairs in Hpairs. by rewrite ndindex_negative in Hpairs.
  - rewrite make_pairs_closed in Hpairs by lia. split; [lia|]. split; [lia|]. congruence.
Qed.

Lemma expected_pairs_lookup (nrow ncol : Z) (k : nat) (group : list (Z * Z)) :
  expected_pairs nrow ncol !! k = Some group →
  (k < 4)%nat ∧ group = expected_group nrow ncol k.
Proof.
  unfold expected_pairs. destruct k as [|[|[|[|k]]]]; simpl; [| | | |done];
    intros [= <-]; (split; [lia|done]).
Qed.

Lemma elem_of_expected_group (nrow ncol : Z) (k : nat) (ab : Z * Z) :
  ab ∈ expected_group nrow ncol k
  ↔ ∃ i j, 0 ≤ i < nrow ∧ 0 ≤ j < ncol ∧ in_group nrow ncol k (i, j)
           ∧ ab = bond ncol k (i, j).
Proof.
  unfold expected_group. rewrite list_elem_of_fmap. split.
  - intros ([i j] & -> & [Hin Hij%elem_of_index_pairs]%list_elem_of_filter).
    exists i, j. destruct Hij. done.
  - intros (i & j & Hi & Hj & Hin & ->). exists (i, j). split; [done|].
    apply list_elem_of_filter. split; [done|]. by apply elem_of_index_pairs.
Qed.

(** A site that starts a pair of a group, and the site the pair ends at,
    are sites of the lattice. *)
Lemma in_group_neighbour (nrow ncol : Z) (k : nat) (i j : Z) :
  0 ≤ i < nrow → 0 ≤ j < ncol → in_group nrow ncol k (i, j) →
  ((k < 2)%nat ∧ i + 1 < nrow ∧ Z.of_nat k = i `mod` 2)
  ∨ ((2 ≤ k < 4)%nat ∧ j + 1 < ncol ∧ Z.of_nat k = j `mod` 2 + 2).
Proof.
  intros Hi Hj. destruct k as [|[|[|[|k]]]]; simpl; [| | | |done]; intros [Hne Hpar]; lia.
Qed.

(** X15: the four pair groups.  Every pair joins a site of the lattice to
    its lower or to its right neighbour, given by their qubit numbers; the
    pair of a site and its lower neighbour is in group [i % 2] ([i] the row
    of the site) and in no other group, the pair of a site and its right
    neighbour in group [j % 2 + 2] ([j] its column) and in no other. *)
Theorem every_bond_in_one_group (nrow ncol : Z) (pairs : list (list (Z * Z))) :
  make_pairs nrow ncol = Ok pairs →
  length pairs = 4%nat
  ∧ (∀ k group a b, pairs !! k = Some group → (a, b) ∈ group →
       ∃ i j, 0 ≤ i < nrow ∧ 0 ≤ j < ncol ∧ a = as_qubit ncol i j
              ∧ ((i + 1 < nrow ∧ b = as_qubit ncol (i + 1) j)
                 ∨ (j + 1 < ncol ∧ b = as_qubit ncol i (j + 1))))
  ∧ (∀ i j k group, 0 ≤ i < nrow - 1 → 0 ≤ j < ncol → pairs !! k = Some group →
       (as_qubit ncol i j, as_qubit ncol (i + 1) j) ∈ group ↔ Z.of_nat k = i `mod` 2)
  ∧ (∀ i j k group, 0 ≤ i < nrow → 0 ≤ j < ncol - 1 → pairs !! k = Some group →
       (as_qubit ncol i j, as_qubit ncol i (j + 1)) ∈ group ↔ Z.of_nat k = j `mod` 2 + 2).
Proof.
  intros (Hr & Hc & ->)%make_pairs_inv. split; [done|]. split; [|split].
  - intros k group a b [Hk ->]%expected_pairs_lookup
      (i & j & Hi & Hj & Hin & [= -> ->])%elem_of_expected_group.
    exists i, j. split; [done|]. split; [done|]. split; [done|]. simpl.
    destruct (in_group_neighbour nrow ncol k i j Hi Hj Hin) as [(Hk2 & ? & _)|(Hk2 & ? & _)].
    + left. apply Nat.ltb_lt in Hk2 as ->. done.
    + right. assert ((k <? 2)%nat = false) as -> by (apply Nat.ltb_ge; lia). done.
  - intros i j k group Hi Hj [Hk ->]%expected_pairs_lookup.
    rewrite elem_of_expected_group. split.
    + intros (i' & j' & Hi' & Hj' & Hin & [= Ha Hb]).
      apply as_qubit_inj in Ha as [<- <-]; [|lia|lia].
      destruct (in_group_neighbour nrow ncol k i j Hi' Hj' Hin)
        as [(Hk2 & ? & ?)|(Hk2 & ? & _)]; [done|].
      assert ((k <? 2)%nat = false) as Hk' by (apply Nat.ltb_ge; lia).
      rewrite Hk' in Hb. apply as_qubit_inj in Hb; lia.
    + intros Hpar. exists i, j. split; [lia|]. split; [done|].
      pose proof (parity i). unfold bond.
      destruct k as [|[|k]]; simpl; (split; [lia || done|done]) || lia.
  - intros i j k group Hi Hj [Hk ->]%expected_pairs_lookup.
    rewrite elem_of_expected_group. split.
    + intros (i' & j' & Hi' & Hj' & Hin & [= Ha Hb]).
      apply as_qubit_inj in Ha as [<- <-]; [|lia|lia].
      destruct (in_group_neighbour nrow ncol k i j Hi' Hj' Hin)
        as [(Hk2 & ? & ?)|(Hk2 & ? & ?)]; [|done].
      apply Nat.ltb_lt in Hk2. rewrite Hk2 in Hb. apply as_qubit_inj in Hb; lia.
    + intros Hpar. exists i, j. split; [done|]. split; [lia|].
      pose proof (parity j). unfold bond.
      destruct k as [|[|[|[|k]]]]; simpl; (split; [lia || done|done]) || lia.
Qed.

Lemma every_bond_in_one_group_witness :
  length ([[(0, 2); (1, 3)]; []; [(0, 1); (2, 3)]; []] : list (list (Z * Z))) = 4%nat
  ∧ (∀ k group a b, [[(0, 2); (1, 3)]; []; [(0, 1); (2, 3)]; []] !! k = Some group →
       (a, b) ∈ group →
       ∃ i j, 0 ≤ i < 2 ∧ 0 ≤ j < 2 ∧ a = as_qubit 2 i j
              ∧ ((i + 1 < 2 ∧ b = as_qubit 2 (i + 1) j)
                 ∨ (j + 1 < 2 ∧ b = as_qubit 2 i (j + 1))))
  ∧ (∀ i j k group, 0 ≤ i < 2 - 1 → 0 ≤ j < 2 →
       [[(0, 2); (1, 3)]; []; [(0, 1); (2, 3)]; []] !! k = Some group →
       (as_qubit 2 i j, as_qubit 2 (i + 1) j) ∈ group ↔ Z.of_nat k = i `mod` 2)
  ∧ (∀ i j k group, 0 ≤ i < 2 → 0 ≤ j < 2 - 1 →
       [[(0, 2); (1, 3)]; []; [(0, 1); (2, 3)]; []] !! k = Some group →
       (as_qubit 2 i j, as_qubit 2 i (j + 1)) ∈ group ↔ Z.of_nat k = j `mod` 2 + 2).
Proof. apply (every_bond_in_one_group 2 2). reflexivity. Defined.

(** No qubit is in two pairs of a group. *)
Lemma expected_group_matching (nrow ncol : Z) (k : nat) :
  NoDup (expected_group nrow ncol k ≫= fun ab => [ab.1; ab.2]).
Proof.
  unfold expected_group. rewrite list_fmap_bind. apply NoDup_bind.
  - intros [i1 j1] [i2 j2] q [Hin1 [Hi1 Hj1]%elem_of_index_pairs]%list_elem_of_filter
      [Hin2 [Hi2 Hj2]%elem_of_index_pairs]%list_elem_of_filter.
    unfold compose, bond. cbn [fst snd]. rewrite !elem_of_cons, !elem_of_nil.
    destruct (in_group_neighbour nrow ncol k i1 j1 Hi1 Hj1 Hin1) as [(Hk & ? & ?)|(Hk & ? & ?)];
      destruct (in_group_neighbour nrow ncol k i2 j2 Hi2 Hj2 Hin2) as [(Hk' & ? & ?)|(Hk' & ? & ?)];
      try lia.
    + apply Nat.ltb_lt in Hk as ->.
      intros [->|[->|[]]] [Heq|[Heq|[]]]; apply as_qubit_inj in Heq; try lia;
        f_equal; Z.div_mod_to_equations; lia.
    + assert ((k <? 2)%nat = false) as -> by (apply Nat.ltb_ge; lia).
      intros [->|[->|[]]] [Heq|[Heq|[]]]; apply as_qubit_inj in Heq; try lia;
        f_equal; Z.div_mod_to_equations; lia.
  - intros [i j] [Hin [Hi Hj]%elem_of_index_pairs]%list_elem_of_filter.
    unfold compose, bond. cbn [fst snd].
    destruct (in_group_neighbour nrow ncol k i j Hi Hj Hin) as [(Hk & ? & ?)|(Hk & ? & ?)].
    + apply Nat.ltb_lt in Hk as ->. apply NoDup_cons. split; [|apply NoDup_singleton].
      intros Heq%list_elem_of_singleton%as_qubit_inj; lia.
    + assert ((k <? 2)%nat = false) as -> by (apply Nat.ltb_ge; lia).
      apply NoDup_cons. split; [|apply NoDup_singleton].
      intros Heq%list_elem_of_singleton%as_qubit_inj; lia.
  - apply NoDup_filter, NoDup_index_pairs.
Qed.

(** The qubits of the pairs of a group are qubits of the lattice. *)
Lemma expected_group_in_range (nrow ncol : Z) (k : nat) :
  Forall (fun q => 0 ≤ q < nrow * ncol) (expected_group nrow ncol k ≫= fun ab => [ab.1; ab.2]).
Proof.
  apply Forall_bind, Forall_forall.
  intros [a b] (i & j & Hi & Hj & Hin & [= -> ->])%elem_of_expected_group.
  unfold compose, as_qubit. cbn [fst snd].
  destruct (in_group_neighbour nrow ncol k i j Hi Hj Hin) as [(Hk & ? & ?)|(Hk & ? & ?)].
  - apply Nat.ltb_lt in Hk as ->. repeat constructor; nia.
  - assert ((k <? 2)%nat = false) as -> by (apply Nat.ltb_ge; lia).
    repeat constructor; nia.
Qed.

(** X16: every pair group is a matching of qubits of the lattice: no
    qubit is in two pairs of a group (nor twice in one pair), and every
    qubit named is in [0, nrow*ncol). *)
Theorem pair_groups_are_matchings (nrow ncol : Z) (pairs : list (list (Z * Z))) :
  make_pairs nrow ncol = Ok pairs →
  Forall (fun group => NoDup (group ≫= fun ab => [ab.1; ab.2])
                       ∧ Forall (fun q => 0 ≤ q < nrow * ncol)
                                (group ≫= fun ab => [ab.1; ab.2])) pairs.
Proof.
  intros (Hr & Hc & ->)%make_pairs_inv. unfold expected_pairs.
  apply Forall_fmap, Forall_forall. intros k _. split.
  - apply expected_group_matching.
  - apply expected_group_in_range.
Qed.

Lemma pair_groups_are_matchings_witness :
  Forall (fun group => NoDup (group ≫= fun ab => [ab.1; ab.2])
                       ∧ Forall (fun q => 0 ≤ q < 2 * 3) (group ≫= fun ab => [ab.1; ab.2]))
    ([[(0, 3); (1, 4); (2, 5)]; []; [(0, 1); (3, 4)]; [(1, 2); (4, 5)]]
       : list (list (Z * Z))).
Proof. apply (pair_groups_are_matchings 2 3). reflexivity. Defined.

Lemma range_to_nat (n : Z) : range (Z.of_nat (Z.to_nat n)) = range n.
Proof. unfold range, seqZ. by rewrite Nat2Z.id. Qed.

Lemma filter_all {A} (P : A → Prop) `{!∀ x, Decision (P x)} (l : list A) :
  Forall P l → filter P l = l.
Proof. induction 1; [done|]. rewrite filter_cons_True by done. by f_equal. Qed.

Lemma filter_none {A} (P : A → Prop) `{!∀ x, Decision (P x)} (l : list A) :
  Forall (fun x => ¬ P x) l → filter P l = [].
Proof. induction 1; [done|]. by rewrite filter_cons_False. Qed.

(** The qubits a run of single-qubit gates acts on. *)
Lemma acted_on_singles (singles : list Gate) (off : nat) :
  (∀ (q : nat) (g : Gate), singles !! q = Some g → qubits g = [Z.of_nat (off + q)]) →
  acted_on singles = seqZ (Z.of_nat off) (Z.of_nat (length singles)).
Proof.
  revert off. induction singles as [|g singles IH]; intros off Hq; [done|].
  unfold acted_on. rewrite bind_cons, (Hq 0%nat g eq_refl), Nat.add_0_r.
  cbn [length]. rewrite Nat2Z.inj_succ, seqZ_cons by lia. simpl. f_equal.
  rewrite Z.pred_succ, <- Nat2Z.inj_succ. apply IH.
  intros q g' Hg'. rewrite (Hq (S q) g' Hg'). do 2 f_equal. lia.
Qed.

Lemma acted_on_iswap_gates (group : list (Z * Z)) :
  acted_on (iswap_gates group) = group ≫= fun ab => [ab.1; ab.2].
Proof. unfold acted_on, iswap_gates. by rewrite list_fmap_bind. Qed.

(** The two kinds of gates of a layer, told apart by their names. *)
Lemma layer_gates (n : nat) (pairs : list (list (Z * Z))) (i : nat) (layer : list Gate) :
  layer_ok n pairs i layer →
  ∃ p group, pattern !! Z.to_nat (Z.of_nat i `mod` 8) = Some p
             ∧ pairs !! Z.to_nat p = Some group
             ∧ two_qubit_gates layer = iswap_gates group
             ∧ acted_on (one_qubit_gates layer) = range (Z.of_nat n)
             ∧ acted_on layer = range (Z.of_nat n) ++ acted_on (iswap_gates group).
Proof.
  intros (singles & p & group & Hp & Hgroup & -> & Hlen & Hsingles).
  exists p, group. split; [done|]. split; [done|].
  assert (Hone : filter (fun g => name g ∈ one_qubit_gate_names) singles = singles).
  { apply filter_all, Forall_forall.
    intros g [q Hq]%list_elem_of_lookup_1. by destruct (Hsingles q g Hq) as (_ & _ & ?). }
  assert (Htwo : filter (fun g => name g = the_two_qubit_gate_name) singles = []).
  { apply filter_none, Forall_forall.
    intros g [q Hq]%list_elem_of_lookup_1 Hname.
    destruct (Hsingles q g Hq) as (_ & _ & Hin). rewrite Hname in Hin.
    unfold one_qubit_gate_names in Hin. set_solver. }
  assert (Hone' : filter (fun g => name g ∈ one_qubit_gate_names) (iswap_gates group) = []).
  { apply filter_none, Forall_forall.
    intros g (ab & -> & _)%list_elem_of_fmap. simpl.
    unfold one_qubit_gate_names. set_solver. }
  assert (Htwo' : filter (fun g => name g = the_two_qubit_gate_name) (iswap_gates group)
                  = iswap_gates group).
  { apply filter_all, Forall_forall. by intros g (ab & -> & _)%list_elem_of_fmap. }
  assert (Hacted : acted_on singles = range (Z.of_nat n)).
  { rewrite <- Hlen. apply (acted_on_singles singles 0).
    intros q g Hq. by destruct (Hsingles q g Hq) as (? & _). }
  unfold two_qubit_gates, one_qubit_gates. rewrite !filter_app, Hone, Htwo, Hone', Htwo'.
  rewrite app_nil_r. split; [done|]. split; [done|].
  unfold acted_on in *. by rewrite bind_app, Hacted.
Qed.

Section circuit_props.
Context {G : Type} {RS : RandomState G}.

Lemma generate_returns (nrow ncol nlayer seed : Z) :
  0 ≤ nrow → 0 ≤ ncol → 0 ≤ seed < 2 ^ 32 →
  ∃ gates,
    generate (G:=G) nrow ncol nlayer seed
    = Ok (MkCircuit gates nrow ncol nlayer the_two_qubit_gate_name seed)
    ∧ length gates = Z.to_nat nlayer
    ∧ (∀ i layer, gates !! i = Some layer →
         layer_ok (Z.to_nat (nrow * ncol)) (expected_pairs nrow ncol) i layer)
    ∧ names_alternate (Z.to_nat (nrow * ncol)) gates.
Proof.
  intros Hr Hc Hseed. unfold generate, new_random_state.
  rewrite bool_decide_eq_true_2 by done. cbn [mbind res_bind].
  rewrite make_pairs_closed by done. cbn [mbind res_bind].
  assert (Hn : length (range (nrow * ncol)) = Z.to_nat (nrow * ncol))
    by (unfold range; apply length_seqZ).
  rewrite Hn.
  destruct (layers_prefix (Z.to_nat nlayer) (Z.to_nat (nrow * ncol))
              (expected_pairs nrow ncol) (seeded seed) eq_refl)
    as (rs & pg & gates & Hrun & Hgl & _ & Hlayers & Halt & _).
  rewrite !range_to_nat in Hrun. rewrite Hrun. cbn [mbind res_bind].
  exists gates. auto.
Qed.

Lemma generate_raises (nrow ncol nlayer seed : Z) :
  ¬ (0 ≤ nrow ∧ 0 ≤ ncol ∧ 0 ≤ seed < 2 ^ 32) →
  generate (G:=G) nrow ncol nlayer seed = Raise ValueError.
Proof.
  intros Hbad. unfold generate, new_random_state. case_bool_decide; [|done].
  cbn [mbind res_bind]. unfold make_pairs. rewrite ndindex_negative by lia. done.
Qed.

(** X17: how [generate] ends.  It returns when [nrow >= 0], [ncol >= 0]
    and the seed is in [0, 2^32): the circuit records [nrow], [ncol],
    [nlayer], the gate name ISWAP and the seed, and has [nlayer] layers,
    none when [nlayer <= 0].  Otherwise it raises [ValueError]; it raises
    nothing else. *)
Theorem generate_outcome (nrow ncol nlayer seed : Z) :
  (0 ≤ nrow ∧ 0 ≤ ncol ∧ 0 ≤ seed < 2 ^ 32 →
   ∃ gates,
     generate (G:=G) nrow ncol nlayer seed = Ok (MkCircuit gates nrow ncol nlayer "ISWAP" seed)
     ∧ length gates = Z.to_nat nlayer)
  ∧ (¬ (0 ≤ nrow ∧ 0 ≤ ncol ∧ 0 ≤ seed < 2 ^ 32) →
     generate (G:=G) nrow ncol nlayer seed = Raise ValueError).
Proof.
  split; [|apply generate_raises]. intros (Hr & Hc & Hseed).
  destruct (generate_returns nrow ncol nlayer seed) as (gates & Hgen & Hlen & _); try done.
  by exists gates.
Qed.

(** X18: in every layer of a generated circuit the single-qubit gates act
    on the qubits [0, 1, ..., nrow*ncol - 1], one gate each, in this
    order; the two-qubit gates act on pairwise disjoint qubits; and no gate
    acts on a qubit outside the lattice. *)
Theorem layers_act_on_disjoint_pairs (nrow ncol nlayer seed : Z) :
  0 ≤ nrow → 0 ≤ ncol → 0 ≤ seed < 2 ^ 32 →
  ∃ circuit,
    generate (G:=G) nrow ncol nlayer seed = Ok circuit
    ∧ Forall (fun layer =>
                acted_on (one_qubit_gates layer) = range (nrow * ncol)
                ∧ NoDup (acted_on (two_qubit_gates layer))
                ∧ Forall (fun q => 0 ≤ q < nrow * ncol) (acted_on layer))
             (gates circuit).
Proof.
  intros Hr Hc Hseed.
  destruct (generate_returns nrow ncol nlayer seed) as (gates & Hgen & _ & Hlayers & _);
    try done.
  eexists. split; [exact Hgen|]. cbn [Rqc.gates]. apply Forall_forall.
  intros layer [i Hi]%list_elem_of_lookup_1.
  destruct (layer_gates _ _ _ _ (Hlayers i layer Hi))
    as (p & group & _ & [_ ->]%expected_pairs_lookup & Htwo & Hone & Hall).
  rewrite Z2Nat.id in Hone, Hall by nia. rewrite Htwo, Hall, acted_on_iswap_gates.
  split; [done|]. split; [apply expected_group_matching|].
  apply Forall_app. split; [|apply expected_group_in_range].
  apply Forall_forall. intros q Hq%elem_of_seqZ. lia.
Qed.

(** X19: the two-qubit gates of a generated circuit repeat with period
    eight: layers [i] and [i + 8] hold the same two-qubit gates, in the
    same order. *)
Theorem two_qubit_gates_repeat (nrow ncol nlayer seed : Z) :
  0 ≤ nrow → 0 ≤ ncol → 0 ≤ seed < 2 ^ 32 →
  ∃ circuit,
    generate (G:=G) nrow ncol nlayer seed = Ok circuit
    ∧ ∀ (i : nat) (l1 l2 : list Gate),
        gates circuit !! i = Some l1 → gates circuit !! (i + 8)%nat = Some l2 →
        two_qubit_gates l1 = two_qubit_gates l2.
Proof.
  intros Hr Hc Hseed.
  destruct (generate_returns nrow ncol nlayer seed) as (gates & Hgen & _ & Hlayers & _);
    try done.
  eexists. split; [exact Hgen|]. cbn [Rqc.gates]. intros i l1 l2 H1 H2.
  destruct (layer_gates _ _ _ _ (Hlayers i l1 H1)) as (p1 & g1 & Hp1 & Hg1 & -> & _).
  destruct (layer_gates _ _ _ _ (Hlayers _ l2 H2)) as (p2 & g2 & Hp2 & Hg2 & -> & _).
  replace (Z.of_nat (i + 8) `mod` 8) with (Z.of_nat i `mod` 8) in Hp2
    by (rewrite Nat2Z.inj_add; Z.div_mod_to_equations; lia).
  congruence.
Qed.
(** X22: on a lattice without sites ([nrow = 0] or [ncol = 0]) the
    generator draws nothing and returns [nlayer] empty layers. *)
Theorem generate_on_empty_lattice (nrow ncol nlayer seed : Z) :
  0 ≤ nrow → 0 ≤ ncol → nrow = 0 ∨ ncol = 0 → 0 ≤ seed < 2 ^ 32 →
  generate (G:=G) nrow ncol nlayer seed
  = Ok (MkCircuit (replicate (Z.to_nat nlayer) []) nrow ncol nlayer "ISWAP" seed).
Proof.
  intros Hr Hc Hempty Hseed.
  destruct (generate_returns nrow ncol nlayer seed) as (gates & -> & Hlen & Hlayers & _);
    try done.
  do 2 f_equal. rewrite <- Hlen. symmetry. apply replicate_as_Forall. split; [done|].
  apply Forall_forall. intros layer [i Hi]%list_elem_of_lookup_1. symmetry.
  destruct (Hlayers i layer Hi) as (singles & p & group & _ & Hgroup & -> & Hsingles & _).
  apply expected_pairs_lookup in Hgroup as [_ ->].
  replace (nrow * ncol) with 0 in Hsingles by nia.
  apply nil_length_inv in Hsingles as ->. unfold expected_group.
  assert (index_pairs nrow ncol = []) as ->; [|done].
  apply length_zero_iff_nil. pose proof (length_index_pairs nrow ncol Hr Hc). nia.
Qed.
End circuit_props.

Lemma generate_outcome_witness :
  (∃ gates, generate (G:=nat) 2 2 3 0 = Ok (MkCircuit gates 2 2 3 "ISWAP" 0)
            ∧ length gates = 3%nat)
  ∧ generate (G:=nat) 2 2 3 (-1) = Raise ValueError
  ∧ generate (G:=nat) 2 (-2) 3 0 = Raise ValueError.
Proof.
  split; [|split].
  - apply (generate_outcome (G:=nat) 2 2 3 0). lia.
  - apply (generate_outcome (G:=nat) 2 2 3 (-1)). lia.
  - apply (generate_outcome (G:=nat) 2 (-2) 3 0). lia.
Defined.

Lemma layers_act_on_disjoint_pairs_witness :
  ∃ circuit,
    generate (G:=nat) 2 3 4 7 = Ok circuit
    ∧ Forall (fun layer =>
                acted_on (one_qubit_gates layer) = range (2 * 3)
                ∧ NoDup (acted_on (two_qubit_gates layer))
                ∧ Forall (fun q => 0 ≤ q < 2 * 3) (acted_on layer))
             (gates circuit).
Proof. apply (layers_act_on_disjoint_pairs (G:=nat) 2 3 4 7); lia. Defined.

Lemma two_qubit_gates_repeat_witness :
  ∃ circuit,
    generate (G:=nat) 2 2 10 0 = Ok circuit
    ∧ ∀ (i : nat) (l1 l2 : list Gate),
        gates circuit !! i = Some l1 → gates circuit !! (i + 8)%nat = Some l2 →
        two_qubit_gates l1 = two_qubit_gates l2.
Proof. apply (two_qubit_gates_repeat (G:=nat) 2 2 10 0); lia. Defined.
Lemma generate_on_empty_lattice_witness :
  generate (G:=nat) 0 3 2 5 = Ok (MkCircuit [[]; []] 0 3 2 "ISWAP" 5).
Proof. apply (generate_on_empty_lattice (G:=nat) 0 3 2 5); lia. Defined.
End RqcBondsProps.

(** ** Running a generated circuit *)

Module RqcRunProps.
Import Rqc RqcSpec RqcProps RqcBonds RqcBondsProps RqcRun RqcRunSpec.

Section runner_props.
Context {G : Type} {RS : RandomState G} {V : Type} {SV : Statevector V} {PR : Process}.

Lemma run_statevector_loop (r : Z) (layers : list (list Gate)) (off : nat)
    (qstate : V) (out : list line) :
  foldl (run_statevector_iteration r) (qstate, out) (imap (fun i => pair (off + i)%nat) layers)
  = (foldl apply_circuit qstate layers,
     if bool_decide (r = 0) then out ++ (LayerTime <$> seq off (length layers)) else out).
Proof.
  revert off qstate out. induction layers as [|layer layers IH]; intros off qstate out.
  - simpl. case_bool_decide; by rewrite ?app_nil_r.
  - cbn [imap foldl run_statevector_iteration length seq fmap list_fmap].
    rewrite Nat.add_0_r.
    rewrite (imap_ext _ (fun i => pair (S off + i)%nat) layers)
      by (intros; simpl; f_equal; lia).
    rewrite IH. case_bool_decide; [|done]. by rewrite <- app_assoc.
Qed.

Lemma run_statevector_enumerate (r : Z) (layers : list (list Gate)) (qstate : V) :
  foldl (run_statevector_iteration r) (qstate, []) (enumerate layers)
  = (foldl apply_circuit qstate layers,
     if bool_decide (r = 0) then LayerTime <$> seq 0 (length layers) else []).
Proof.
  unfold enumerate.
  rewrite (imap_ext _ (fun i => pair (0 + i)%nat) layers) by done.
  by rewrite run_statevector_loop.
Qed.

(** X20: [run_statevector] starts from the all-zeros state on
    [nrow * ncol] qubits and applies the layers of the circuit in order,
    each once; on the process of rank 0 it prints one [layer_time] line
    per layer, numbered from 0 in order, and on any other process
    nothing. *)
Theorem run_statevector_applies_layers (circuit : Circuit) (backend : backend_name) :
  run_statevector circuit backend
  = (foldl apply_circuit
       (computational_zeros (Rqc.nrow circuit * Rqc.ncol circuit) backend) (gates circuit),
     if bool_decide (rank backend = 0) then layer_lines (length (gates circuit)) else []).
Proof. unfold run_statevector, layer_lines. apply run_statevector_enumerate. Qed.

(** X21: [main] of the circuit script.  For [nrow, ncol >= 0] and a seed
    in [0, 2^32) it generates the circuit and leaves the all-zeros state on
    [nrow * ncol] qubits with the [nlayer] generated layers applied in
    order; the process of rank 0 prints the [nlayer] layer times and then
    the seven lines of the summary, any other process nothing.  Otherwise
    it raises [ValueError] before a state is made or a line printed. *)
Theorem main_runs_generated_circuit (a : args) :
  (0 ≤ nrow a ∧ 0 ≤ ncol a ∧ 0 ≤ seed a < 2 ^ 32 →
   ∃ circuit,
     generate (G:=G) (nrow a) (ncol a) (nlayer a) (seed a) = Ok circuit
     ∧ length (gates circuit) = Z.to_nat (nlayer a)
     ∧ main (G:=G) a
       = Ok (foldl apply_circuit (computational_zeros (nrow a * ncol a) (backend a))
                   (gates circuit),
             if bool_decide (rank (backend a) = 0)
             then layer_lines (Z.to_nat (nlayer a)) ++ summary_lines else []))
  ∧ (¬ (0 ≤ nrow a ∧ 0 ≤ ncol a ∧ 0 ≤ seed a < 2 ^ 32) →
     main (G:=G) (V:=V) a = Raise ValueError).
Proof.
  split.
  - intros (Hr & Hc & Hseed).
    destruct (generate_returns (G:=G) (nrow a) (ncol a) (nlayer a) (seed a))
      as (gates & Hgen & Hlen & _); try done.
    eexists. split; [exact Hgen|]. split; [done|].
    unfold main, run_statevector. rewrite Hgen. cbn [mbind res_bind].
    rewrite run_statevector_enumerate. cbn [Rqc.gates Rqc.nrow Rqc.ncol].
    rewrite Hlen. unfold layer_lines. by case_bool_decide.
  - intros Hbad. unfold main. by rewrite generate_raises.
Qed.
End runner_props.

Lemma main_runs_generated_circuit_witness :
  (∃ circuit,
     generate (G:=nat) 2 2 3 0 = Ok circuit
     ∧ length (gates circuit) = 3%nat
     ∧ main (G:=nat) (PR:=first_process) (Args 2 2 3 0 numpy)
       = Ok (Recorded 4 numpy (gates circuit),
             [LayerTime 0; LayerTime 1; LayerTime 2] ++ summary_lines))
  ∧ (∃ circuit,
       generate (G:=nat) 2 2 3 0 = Ok circuit
       ∧ length (gates circuit) = 3%nat
       ∧ main (G:=nat) (PR:=other_process) (Args 2 2 3 0 ctf)
         = Ok (Recorded 4 ctf (gates circuit), []))
  ∧ main (G:=nat) (V:=recorded) (PR:=first_process) (Args 2 2 3 (2 ^ 32) numpy)
    = Raise ValueError.
Proof.
  split; [|split].
  - destruct (main_runs_generated_circuit (G:=nat) (V:=recorded) (PR:=first_process)
                (Args 2 2 3 0 numpy)) as [Hok _].
    destruct Hok as (circuit & Hgen & Hlen & Hmain); [simpl; lia|].
    exists circuit. split; [exact Hgen|]. split; [exact Hlen|]. rewrite Hmain.
    vm_compute in Hgen. injection Hgen as <-. reflexivity.
  - destruct (main_runs_generated_circuit (G:=nat) (V:=recorded) (PR:=other_process)
                (Args 2 2 3 0 ctf)) as [Hok _].
    destruct Hok as (circuit & Hgen & Hlen & Hmain); [simpl; lia|].
    exists circuit. split; [exact Hgen|]. split; [exact Hlen|]. rewrite Hmain.
    vm_compute in Hgen. injection Hgen as <-. reflexivity.
  - apply (main_runs_generated_circuit (G:=nat) (V:=recorded) (PR:=first_process)
             (Args 2 2 3 (2 ^ 32) numpy)). simpl. lia.
Defined.
End RqcRunProps.
